(** * PS-Analytics: the pagination loop of [extract.py] and the cleaning
      cascade of [processing.py], embedded and verified.

    Conventions of the embedding.
    - A float64 cell is a rational ([Q]); NaN and None are [VNull].  The
      source only adds, subtracts, multiplies and compares floats, so the
      model is exact wherever the float operations are (all the concrete
      figures below are dyadic).  Computed floats are compared with
      [==].
    - A pandas object with identity (a DataFrame) lives in a heap and is
      named by its location; an operation that builds a new frame
      allocates, an [inplace=True] operation or a column assignment
      overwrites.
    - [print] appends an event to the world's output.
    - A raised exception is the [Raise] outcome. *)

From Stdlib Require Import String Ascii List ZArith QArith Qround Bool Lia.
Import ListNotations.
Local Open Scope string_scope.
Local Open Scope list_scope.
Local Open Scope Z_scope.

Set Implicit Arguments.

(** ** Values, columns and frames *)

(** A shapely geometry.  [geom_valid] is the verdict of GEOS's validity
    test, which the source only consults through [is_valid]. *)
Record geometry : Type := Geometry
  { geom_x : Q; geom_y : Q; geom_valid : bool }.

Inductive value : Type :=
| VNull
| VNum (q : Q)
| VStr (s : string)
| VGeom (g : geometry).

(** numpy dtypes, as far as [dtype.kind] tells them apart. *)
Inductive dtype : Type :=
| Dint | Duint | Dfloat | Dbool | Dobject | Dgeometry.

Definition kind (d : dtype) : string :=
  match d with
  | Dint => "i" | Duint => "u" | Dfloat => "f" | Dbool => "b"
  | Dobject => "O" | Dgeometry => "O"
  end.

Definition label := Z.

(** A frame: named, typed columns and labelled rows whose cells follow the
    column order. *)
Record DataFrame : Type := Frame
  { columns : list (string * dtype);
    rows : list (label * list value) }.

Record Series : Type := MkSeries
  { s_dtype : dtype;
    s_items : list (label * value) }.

Definition df_len (f : DataFrame) : nat := length (rows f).
Definition index (f : DataFrame) : list label := map fst (rows f).

Fixpoint position (col : string) (cs : list (string * dtype)) : option nat :=
  match cs with
  | [] => None
  | (c, _) :: rest =>
      if String.eqb c col then Some O
      else option_map S (position col rest)
  end.

Definition has_column (f : DataFrame) (col : string) : bool :=
  match position col (columns f) with Some _ => true | None => false end.

Definition cell (f : DataFrame) (col : string) (r : list value) : value :=
  match position col (columns f) with
  | Some i => nth i r VNull
  | None => VNull
  end.

(** [gdf[col]] *)
Definition getitem_col (f : DataFrame) (col : string) : option Series :=
  match position col (columns f) with
  | Some i =>
      Some (MkSeries (snd (nth i (columns f) (col, Dobject)))
                     (map (fun lr => (fst lr, nth i (snd lr) VNull)) (rows f)))
  | None => None
  end.

Definition isnull (v : value) : bool :=
  match v with VNull => true | _ => false end.

(** ** Exceptions, outcomes and the world *)

Inductive exn : Type :=
| KeyError (what : list string)
| TypeError (what : string)
| AttributeError
| ValueError
| IndexingError
| ReferenceError
| HTTPError (status : Z)
| RuntimeError
| JSONDecodeError
| ConnectionError
| StopIteration.

Inductive result (A : Type) : Type :=
| Ok (a : A)
| Raise (e : exn).
Arguments Ok {A} a.
Arguments Raise {A} e.

(** What the source prints, one constructor per [print] statement. *)
Inductive event : Type :=
| InfoRaw (n : nat)
| InfoValidGeometry (n : nat)
| InfoValidVersion (n : nat)
| WarnNullOperation (n : nat)
| InfoAfterOperation (n : nat)
| InfoAfterNulls (n : nat)
| InfoOutliers (removed : nat) (col : string)
| InfoAfterDuplicates (n : nat)
| InfoPage (offset : Z) (count : nat) (acc : nat).

Definition loc := nat.

Record world : Type := World
  { heap : list DataFrame;
    stdout : list event }.

(** State and exceptions: a computation runs on a state and either returns
    or raises, and leaves a state behind in both cases. *)
Definition St (S A : Type) : Type := S -> result A * S.

Definition ret {S A} (a : A) : St S A := fun w => (Ok a, w).
Definition raise {S A} (e : exn) : St S A := fun w => (Raise e, w).
Definition bind {S A B} (m : St S A) (k : A -> St S B) : St S B :=
  fun w => match m w with
           | (Ok a, w') => k a w'
           | (Raise e, w') => (Raise e, w')
           end.

Notation "x <- m ;; k" := (bind m (fun x => k))
  (at level 61, m at next level, right associativity).
Notation "m ;;; k" := (bind m (fun _ => k))
  (at level 61, right associativity).

Definition lift {S A} (r : result A) : St S A := fun w => (r, w).

Definition lift_option {S A} (o : option A) (e : exn) : St S A :=
  match o with Some a => ret a | None => raise e end.

(** The cleaning code runs on a heap of frames and an output stream. *)
Definition M : Type -> Type := St world.

Definition print (e : event) : M unit :=
  fun w => (Ok tt, World (heap w) (stdout w ++ [e])).

(** A new frame object. *)
Definition alloc (f : DataFrame) : M loc :=
  fun w => (Ok (length (heap w)), World (heap w ++ [f]) (stdout w)).

Definition load (l : loc) : M DataFrame :=
  fun w => match nth_error (heap w) l with
           | Some f => (Ok f, w)
           | None => (Raise ReferenceError, w)
           end.

Fixpoint update {A} (l : list A) (i : nat) (x : A) : list A :=
  match l, i with
  | [], _ => []
  | _ :: t, O => x :: t
  | h :: t, S j => h :: update t j x
  end.

(** Overwriting an existing frame object in place. *)
Definition store (l : loc) (f : DataFrame) : M unit :=
  fun w => match nth_error (heap w) l with
           | Some _ => (Ok tt, World (update (heap w) l f) (stdout w))
           | None => (Raise ReferenceError, w)
           end.


(** ** Floats and quantiles *)

(** A float: [None] is NaN. *)
Definition float := option Q.

Definition fadd (a b : float) : float :=
  match a, b with Some x, Some y => Some (x + y)%Q | _, _ => None end.
Definition fsub (a b : float) : float :=
  match a, b with Some x, Some y => Some (x - y)%Q | _, _ => None end.
Definition fmul (a b : float) : float :=
  match a, b with Some x, Some y => Some (x * y)%Q | _, _ => None end.

(** [a <= b]; a comparison with NaN is [False]. *)
Definition fle (a b : float) : bool :=
  match a, b with Some x, Some y => Qle_bool x y | _, _ => false end.

Definition to_float (v : value) : float :=
  match v with VNum q => Some q | _ => None end.

Fixpoint insert (x : Q) (l : list Q) : list Q :=
  match l with
  | [] => [x]
  | y :: t => if Qle_bool x y then x :: l else y :: insert x t
  end.

Definition sort (l : list Q) : list Q := fold_right insert [] l.

(** The non-null numbers of a series, in row order. *)
Definition dropna_values (s : Series) : list Q :=
  flat_map (fun lv => match snd lv with VNum q => [q] | _ => [] end)
           (s_items s).

(** [a[lo] + (a[hi] - a[lo]) * g] at the virtual index [(n-1)*q] of the
    sorted array: pandas' default, linear interpolation. *)
Definition interpolate (a : list Q) (q : Q) : float :=
  match a with
  | [] => None
  | x0 :: _ =>
      let n := Z.of_nat (length a) in
      let pos := (inject_Z (n - 1) * q)%Q in
      let lo := Qfloor pos in
      let hi := Z.min (lo + 1) (n - 1) in
      let g := (pos - inject_Z lo)%Q in
      let vlo := nth (Z.to_nat lo) a x0 in
      let vhi := nth (Z.to_nat hi) a x0 in
      Some (vlo + (vhi - vlo) * g)%Q
  end.

(** [series.quantile(q)]: nulls are skipped; NaN when nothing is left. *)
Definition quantile (s : Series) (q : Q) : float :=
  interpolate (sort (dropna_values s)) q.

(** ** Boolean masks and row selection *)

(** [keep_mask] starts as a numpy array and becomes a Series at its first
    [&] with one. *)
Inductive bool_mask : Type :=
| NdArray (bs : list bool)
| BoolSeries (items : list (label * bool)).

Definition labels {A} (s : list (label * A)) : list label := map fst s.

Fixpoint labels_eqb (a b : list label) : bool :=
  match a, b with
  | [], [] => true
  | x :: a', y :: b' => Z.eqb x y && labels_eqb a' b'
  | _, _ => false
  end.

Fixpoint lookup {A} (k : label) (s : list (label * A)) : option A :=
  match s with
  | [] => None
  | (k', v) :: t => if Z.eqb k' k then Some v else lookup k t
  end.

Definition mem (k : label) (ks : list label) : bool :=
  existsb (Z.eqb k) ks.

(** [series >= x] and [series <= x]: a bool Series on the same index. *)
Definition series_ge (s : Series) (x : float) : list (label * bool) :=
  map (fun lv => (fst lv, fle x (to_float (snd lv)))) (s_items s).
Definition series_le (s : Series) (x : float) : list (label * bool) :=
  map (fun lv => (fst lv, fle (to_float (snd lv)) x)) (s_items s).

(** [l & r] on two bool Series.  Equal indexes: cell by cell.  Otherwise
    pandas aligns both on the join of the indexes and a label missing on
    one side counts as [False].  (pandas also sorts the joined index; only
    lookups by label are made on it here.) *)
Definition series_and (l r : list (label * bool)) : list (label * bool) :=
  if labels_eqb (labels l) (labels r) then
    map (fun p => (fst (fst p), snd (fst p) && snd (snd p))) (combine l r)
  else
    let joined :=
      labels l ++ filter (fun k => negb (mem k (labels l))) (labels r) in
    map (fun k => (k, match lookup k l, lookup k r with
                      | Some a, Some b => a && b
                      | _, _ => false
                      end)) joined.

(** [keep_mask & col_mask] *)
Definition mask_and (keep_mask : bool_mask) (col_mask : list (label * bool))
  : result (list (label * bool)) :=
  match keep_mask with
  | NdArray bs =>
      if Nat.eqb (length bs) (length col_mask)
      then Ok (map (fun p => (fst (snd p), fst p && snd (snd p)))
                   (combine bs col_mask))
      else Raise ValueError
  | BoolSeries s => Ok (series_and s col_mask)
  end.

(** [fillna] on a bool-dtype Series: comparisons never yield a missing
    value, so there is nothing to fill. *)
Definition fillna (s : list (label * bool)) (fill : bool)
  : list (label * bool) := s.

(** The rows at the [True] positions. *)
Definition select (f : DataFrame) (bs : list bool) : DataFrame :=
  Frame (columns f) (map snd (filter fst (combine bs (rows f)))).

Fixpoint reindex (s : list (label * bool)) (idx : list label)
  : option (list bool) :=
  match idx with
  | [] => Some []
  | k :: rest =>
      match lookup k s, reindex s rest with
      | Some b, Some bs => Some (b :: bs)
      | _, _ => None
      end
  end.

(** [gdf[mask]] with a bool Series: used as it is when its index is the
    frame's, otherwise reindexed to the frame's labels (pandas warns), and
    refused when a label of the frame is missing from it. *)
Definition getitem_mask (f : DataFrame) (m : list (label * bool))
  : result DataFrame :=
  if labels_eqb (labels m) (index f) then Ok (select f (map snd m))
  else match reindex m (index f) with
       | Some bs => Ok (select f bs)
       | None => Raise IndexingError
       end.

(** [reset_index(drop=True)]: labels 0, 1, 2, ... *)
Definition reset_index (f : DataFrame) : DataFrame :=
  Frame (columns f)
        (combine (map Z.of_nat (seq 0 (df_len f))) (map snd (rows f))).

(** ** [remove_outliers_iqr] *)

Definition numeric_kind (d : dtype) : bool :=
  existsb (String.eqb (kind d)) ["i"; "u"; "f"].

Record bounds : Type := Bounds
  { q1 : float; q3 : float; iqr : float;
    lower_limit : float; upper_limit : float }.

(** Lines 115-120. *)
Definition iqr_bounds (series : Series) (k : Q) : bounds :=
  let q1 := quantile series (1 # 4) in
  let q3 := quantile series (3 # 4) in
  let iqr := fsub q3 q1 in
  Bounds q1 q3 iqr (fsub q1 (fmul (Some k) iqr)) (fadd q3 (fmul (Some k) iqr)).

(** Lines 122-129. *)
Definition column_mask (series : Series) (k : Q) (treat_na_as_outlier : bool)
  : list (label * bool) :=
  let b := iqr_bounds series k in
  let col_inlier :=
    series_and (series_ge series (lower_limit b))
               (series_le series (upper_limit b)) in
  if treat_na_as_outlier then fillna col_inlier false
  else fillna col_inlier true.

(** The body of the [for col in columns] loop, one column per call. *)
Fixpoint iqr_loop (cols : list string) (k : Q) (treat_na_as_outlier : bool)
    (gdf_filtered : loc) (data_count : nat) (keep_mask : bool_mask)
  : M loc :=
  match cols with
  | [] => ret gdf_filtered
  | col :: rest =>
      f <- load gdf_filtered ;;
      series <- lift_option (getitem_col f col) (KeyError [col]) ;;
      if negb (numeric_kind (s_dtype series)) then raise (TypeError col)
      else
        let col_mask := column_mask series k treat_na_as_outlier in
        keep_mask' <- lift (mask_and keep_mask col_mask) ;;
        kept <- lift (getitem_mask f keep_mask') ;;
        gdf_filtered' <- alloc (reset_index kept) ;;
        let n := df_len (reset_index kept) in
        (if Nat.ltb n data_count
         then print (InfoOutliers (data_count - n) col)
         else ret tt) ;;;
        iqr_loop rest k treat_na_as_outlier gdf_filtered'
                 (if Nat.ltb n data_count then n else data_count)
                 (BoolSeries keep_mask')
  end.

Definition remove_outliers_iqr (gdf : loc) (cols : list string) (k : Q)
    (treat_na_as_outlier : bool) : M loc :=
  f <- load gdf ;;
  gdf_filtered <- alloc f ;;
  let data_count := df_len f in
  let keep_mask := NdArray (map (fun _ => true) (index f)) in
  iqr_loop cols k treat_na_as_outlier gdf_filtered data_count keep_mask.

(** ** The frame operations [validate_gdf] uses *)

Definition value_eqb (a b : value) : bool :=
  match a, b with
  | VNull, VNull => true
  | VNum x, VNum y => Qeq_bool x y
  | VStr s, VStr t => String.eqb s t
  | VGeom g, VGeom h =>
      Qeq_bool (geom_x g) (geom_x h) && Qeq_bool (geom_y g) (geom_y h)
      && Bool.eqb (geom_valid g) (geom_valid h)
  | _, _ => false
  end.

(** A bool Series computed cell by cell from a column. *)
Definition series_map (p : value -> bool) (s : Series) : list (label * bool) :=
  map (fun lv => (fst lv, p (snd lv))) (s_items s).

(** [geometry.is_valid]: a missing geometry is not valid. *)
Definition is_valid (v : value) : bool :=
  match v with VGeom g => geom_valid g | _ => false end.

(** [series == s] for a string [s]. *)
Definition eq_str (s : string) (v : value) : bool :=
  match v with VStr t => String.eqb t s | _ => false end.

(** [series.replace([1, "1"], "Sim")]: a cell equal to the number one or
    to the text "1" becomes "Sim"; a numeric column that had such a cell
    becomes an object column. *)
Definition is_one (v : value) : bool :=
  match v with
  | VNum q => Qeq_bool q 1
  | VStr s => String.eqb s "1"
  | _ => false
  end.

Definition replace_one (v : value) : value :=
  if is_one v then VStr "Sim" else v.

Definition replace (s : Series) : Series :=
  MkSeries (if existsb (fun lv => is_one (snd lv)) (s_items s)
            then Dobject else s_dtype s)
           (map (fun lv => (fst lv, replace_one (snd lv))) (s_items s)).

(** [gdf[col] = series] for a column the frame has: the cells of the column
    are overwritten, cell by cell on equal indexes, by label otherwise (a
    label the series lacks gets a null). *)
Definition set_cells (i : nat) (f : DataFrame) (s : Series)
  : list (label * list value) :=
  if labels_eqb (labels (s_items s)) (index f) then
    map (fun p => (fst (fst p), update (snd (fst p)) i (snd (snd p))))
        (combine (rows f) (s_items s))
  else
    map (fun lr => (fst lr,
                    update (snd lr) i
                      (match lookup (fst lr) (s_items s) with
                       | Some v => v | None => VNull end)))
        (rows f).

Definition set_dtype (i : nat) (d : dtype) (cs : list (string * dtype))
  : list (string * dtype) :=
  match nth_error cs i with
  | Some (c, _) => update cs i (c, d)
  | None => cs
  end.

Definition setitem_col (f : DataFrame) (col : string) (s : Series)
  : option DataFrame :=
  match position col (columns f) with
  | Some i => Some (Frame (set_dtype i (s_dtype s) (columns f))
                          (set_cells i f s))
  | None => None
  end.

Definition missing_columns (f : DataFrame) (subset : list string)
  : list string :=
  filter (fun c => negb (has_column f c)) subset.

(** [gdf.dropna(subset=...)]: the rows with no null in the subset. *)
Definition dropna (f : DataFrame) (subset : list string) : result DataFrame :=
  match missing_columns f subset with
  | [] =>
      Ok (Frame (columns f)
                (filter (fun lr =>
                           forallb (fun c => negb (isnull (cell f c (snd lr))))
                                   subset)
                        (rows f)))
  | missing => Raise (KeyError missing)
  end.

(** [duplicated(keep="first")]: a row is a duplicate when an earlier row
    has the same key; nulls compare equal to each other here. *)
Definition key_eqb (a b : list value) : bool :=
  Nat.eqb (length a) (length b)
  && forallb (fun p => value_eqb (fst p) (snd p)) (combine a b).

Fixpoint duplicated (seen : list (list value)) (keys : list (list value))
  : list bool :=
  match keys with
  | [] => []
  | k :: rest => existsb (key_eqb k) seen :: duplicated (k :: seen) rest
  end.

Definition row_key (f : DataFrame) (subset : list string) (r : list value)
  : list value :=
  map (fun c => cell f c r) subset.

Definition drop_duplicates (f : DataFrame) (subset : list string)
  : result DataFrame :=
  match missing_columns f subset with
  | [] =>
      Ok (select f (map negb (duplicated []
                                (map (fun lr => row_key f subset (snd lr))
                                     (rows f)))))
  | missing => Raise (KeyError missing)
  end.

Definition mem_str (c : string) (cs : list string) : bool :=
  existsb (String.eqb c) cs.

(** [gdf.drop(columns=...)]: every label must exist. *)
Definition drop (f : DataFrame) (cols : list string) : result DataFrame :=
  match missing_columns f cols with
  | [] =>
      let keep := map (fun c => negb (mem_str (fst c) cols)) (columns f) in
      Ok (Frame (map snd (filter fst (combine keep (columns f))))
                (map (fun lr =>
                        (fst lr, map snd (filter fst (combine keep (snd lr)))))
                     (rows f)))
  | missing => Raise (KeyError missing)
  end.

(** ** [validate_gdf]

    The function is one straight-line body; it is cut here at its own
    numbered comments, one definition per step.  A frame that no variable
    keeps (the operand of [.copy()] or of [.reset_index]) is not
    allocated. *)

Definition notna (v : value) : bool := negb (isnull v).

(** [gdf.geometry]: the active geometry column, named "geometry". *)
Definition geometry_of (f : DataFrame) : M Series :=
  lift_option (getitem_col f "geometry") AttributeError.

Definition column_of (f : DataFrame) (col : string) : M Series :=
  lift_option (getitem_col f col) (KeyError [col]).

(** 1) lines 160-164 *)
Definition step_geometry (gdf : loc) : M loc :=
  f <- load gdf ;;
  g <- geometry_of f ;;
  t <- lift (getitem_mask f (series_map notna g)) ;;
  gdf <- alloc t ;;
  f <- load gdf ;;
  g <- geometry_of f ;;
  t <- lift (getitem_mask f (series_map is_valid g)) ;;
  gdf <- alloc t ;;
  print (InfoValidGeometry (df_len t)) ;;;
  ret gdf.

Definition valid_version : string := "Versão Válida".

(** 2.1) lines 170-173 *)
Definition step_version (gdf : loc) : M loc :=
  f <- load gdf ;;
  s <- column_of f "versao" ;;
  t <- lift (getitem_mask f (series_map (eq_str valid_version) s)) ;;
  gdf <- alloc t ;;
  print (InfoValidVersion (df_len t)) ;;;
  ret gdf.

Definition count_null (s : Series) : nat :=
  length (filter (fun lv => isnull (snd lv)) (s_items s)).

(** 2.2) lines 177-186 *)
Definition step_operation (gdf : loc) : M loc :=
  f <- load gdf ;;
  s <- column_of f "operacao" ;;
  f' <- lift_option (setitem_col f "operacao" (replace s))
                    (KeyError ["operacao"]) ;;
  store gdf f' ;;;
  f <- load gdf ;;
  s <- column_of f "operacao" ;;
  let missing_operation_info := count_null s in
  (if Nat.ltb 0 missing_operation_info
   then print (WarnNullOperation missing_operation_info)
   else ret tt) ;;;
  t <- lift (dropna f ["operacao"]) ;;
  gdf <- alloc t ;;
  print (InfoAfterOperation (df_len t)) ;;;
  ret gdf.

Definition drop_na_columns : list string :=
  ["pot_mw"; "alt_total"; "alt_torre"; "diam_rotor"; "eol_versao_id";
   "nome_eol"; "den_aeg"].

(** 2.3) lines 190-195 *)
Definition step_nulls (gdf : loc) : M loc :=
  f <- load gdf ;;
  t <- lift (dropna f drop_na_columns) ;;
  gdf <- alloc t ;;
  print (InfoAfterNulls (df_len t)) ;;;
  ret gdf.

Definition check_outliers : list string := ["pot_mw"].

(** 3) lines 199-200 *)
Definition step_outliers (gdf : loc) : M loc :=
  remove_outliers_iqr gdf check_outliers 3 true.

(** 4) lines 204-206 *)
Definition step_duplicates (gdf : loc) : M loc :=
  f <- load gdf ;;
  t <- lift (drop_duplicates f ["latitude"; "longitude"]) ;;
  gdf <- alloc (reset_index t) ;;
  print (InfoAfterDuplicates (df_len (reset_index t))) ;;;
  ret gdf.

Definition drop_columns : list string :=
  ["geometry"; "origem"; "x"; "y"; "datum_emp"; "fuso_ag"; "versao"].

(** 5) lines 210-213: the frame is pruned in place and returned. *)
Definition step_prune (gdf : loc) : M loc :=
  f <- load gdf ;;
  f' <- lift (drop f drop_columns) ;;
  store gdf f' ;;;
  ret gdf.

Definition validate_gdf (gdf : loc) : M loc :=
  f <- load gdf ;;
  print (InfoRaw (df_len f)) ;;;
  gdf <- step_geometry gdf ;;
  gdf <- step_version gdf ;;
  gdf <- step_operation gdf ;;
  gdf <- step_nulls gdf ;;
  gdf <- step_outliers gdf ;;
  gdf <- step_duplicates gdf ;;
  step_prune gdf.

(** ** [extract.py]: the HTTP session and the pagination loop *)

#[warnings="-register-all"] Inductive json : Type :=
| JNull
| JBool (b : bool)
| JNum (n : Z)
| JStr (s : string)
| JArr (items : list json)
| JObj (fields : list (string * json)).

(** Python's truth value of a decoded JSON value. *)
Definition truthy (j : json) : bool :=
  match j with
  | JNull => false
  | JBool b => b
  | JNum n => negb (Z.eqb n 0)
  | JStr s => negb (String.eqb s "")
  | JArr l => negb (Nat.eqb (length l) 0)
  | JObj l => negb (Nat.eqb (length l) 0)
  end.

(** What [list.extend] and [len] see of a value: the items of an array, the
    characters of a string, the keys of an object; anything else is not
    iterable. *)
Definition iterate (j : json) : option (list json) :=
  match j with
  | JArr l => Some l
  | JStr s => Some (map (fun c => JStr (String c EmptyString))
                        (list_ascii_of_string s))
  | JObj l => Some (map (fun kv => JStr (fst kv)) l)
  | _ => None
  end.

(** A query parameter and the dict of them, in insertion order. *)
Inductive pvalue : Type :=
| PStr (s : string)
| PInt (n : Z).

Definition dict (V : Type) : Type := list (string * V).

Fixpoint get {V} (d : dict V) (key : string) : option V :=
  match d with
  | [] => None
  | (k, v) :: rest => if String.eqb k key then Some v else get rest key
  end.

Definition contains {V} (d : dict V) (key : string) : bool :=
  match get d key with Some _ => true | None => false end.

Fixpoint set_key {V} (d : dict V) (key : string) (v : V) : dict V :=
  match d with
  | [] => [(key, v)]
  | (k, v') :: rest =>
      if String.eqb k key then (k, v) :: rest
      else (k, v') :: set_key rest key v
  end.

(** [d.update(other)] *)
Definition dict_update {V} (d other : dict V) : dict V :=
  fold_left (fun acc kv => set_key acc (fst kv) (snd kv)) other d.

Definition _default_params (offset limit : Z) : dict pvalue :=
  [("where", PStr "1=1");
   ("outFields", PStr "*");
   ("returnGeometry", PStr "true");
   ("outSR", PStr "4326");
   ("f", PStr "geojson");
   ("resultOffset", PInt offset);
   ("resultRecordCount", PInt limit)].

(** What [session.get] comes back with: a transport failure, or a response
    with its status and its body; the body decodes to a JSON object or not
    at all. *)
Inductive reply : Type :=
| Failure (e : exn)
| Response (status : Z) (body : option (dict json)).

(** The session against a mocked endpoint: the replies still to be served,
    the requests issued so far, and the output stream. *)
Record net : Type := Net
  { replies : list reply;
    sent : list (string * dict pvalue);
    out : list event }.

(** [session.get(url, params=params, timeout=60)]: the request is issued,
    and the next reply served; a mock with nothing left raises. *)
Definition session_get (url : string) (params : dict pvalue) : St net reply :=
  fun n =>
    let issued := sent n ++ [(url, params)] in
    match replies n with
    | r :: rest =>
        match r with
        | Failure e => (Raise e, Net rest issued (out n))
        | Response _ _ => (Ok r, Net rest issued (out n))
        end
    | [] => (Raise StopIteration, Net [] issued (out n))
    end.

(** [resp.raise_for_status()] *)
Definition raise_for_status (status : Z) : St net unit :=
  if (400 <=? status) && (status <? 600) then raise (HTTPError status)
  else ret tt.

(** Lines 23-26: the canonical parameters, overridden by the caller's when
    [extra_params] is neither [None] nor empty. *)
Definition request_params (offset : Z) (extra_params : option (dict pvalue))
    (limit : Z) : dict pvalue :=
  let params := _default_params offset limit in
  match extra_params with
  | Some (kv :: more) => dict_update params (kv :: more)
  | _ => params
  end.

Definition fetch_page (url : string) (offset : Z)
    (extra_params : option (dict pvalue)) (limit : Z) : St net (dict json) :=
  let params := request_params offset extra_params limit in
  resp <- session_get url params ;;
  match resp with
  | Failure e => raise e
  | Response status body =>
      raise_for_status status ;;;
      data <- lift_option body JSONDecodeError ;;
      if contains data "error" then raise RuntimeError
      else ret data
  end.

Definition ARCGIS_URL : string :=
  "https://sigel.aneel.gov.br/arcgis/rest/services/PORTAL/WFS/MapServer/0/query".

Definition limit : Z := 1000.

Definition say (e : event) : St net unit :=
  fun n => (Ok tt, Net (replies n) (sent n) (out n ++ [e])).

(** The [while True] loop, one iteration per unit of fuel; [None] when the
    fuel is spent before the loop breaks. *)
Fixpoint fetch_loop (fuel : nat) (extra_params : option (dict pvalue))
    (verbose : bool) (offset : Z) (features : list json)
  : St net (option (list json)) :=
  match fuel with
  | O => ret None
  | S fuel' =>
      data <- fetch_page ARCGIS_URL offset extra_params limit ;;
      let page_features :=
        match get data "features" with Some v => v | None => JArr [] end in
      items <- lift_option (iterate page_features) (TypeError "features") ;;
      let features := features ++ items in
      (if verbose
       then say (InfoPage offset (length items) (length features))
       else ret tt) ;;;
      let exceeded :=
        match get data "exceededTransferLimit" with
        | Some v => v | None => JBool false end in
      if negb (truthy exceeded) || (Z.of_nat (length items) <? limit)
      then ret (Some features)
      else fetch_loop fuel' extra_params verbose (offset + limit) features
  end.

Definition fetch_all_features (fuel : nat)
    (extra_params : option (dict pvalue)) (verbose : bool)
  : St net (option (list json)) :=
  fetch_loop fuel extra_params verbose 0 [].

(** ** Pages of the endpoint, for the statements below *)

(** A page as the endpoint serves it: HTTP 200, a JSON object with the
    features and, when [page_exceeded] is not [None], the
    [exceededTransferLimit] flag. *)
Record page : Type := Page
  { page_features : list json;
    page_exceeded : option bool }.

Definition page_body (p : page) : dict json :=
  ("features", JArr (page_features p))
  :: match page_exceeded p with
     | Some b => [("exceededTransferLimit", JBool b)]
     | None => []
     end.

Definition serve (p : page) : reply := Response 200 (Some (page_body p)).

Definition flagged (p : page) : bool :=
  match page_exceeded p with Some b => b | None => false end.

Definition full (p : page) : bool :=
  limit <=? Z.of_nat (length (page_features p)).

Definition continues (p : page) : bool := flagged p && full p.

Fixpoint take_while {A} (f : A -> bool) (l : list A) : list A :=
  match l with
  | [] => []
  | x :: t => if f x then x :: take_while f t else []
  end.

(** The number of requests a run has issued. *)
Definition requests (n : net) : nat := length (sent n).

(** The Python class of an exception. *)
Definition exn_class (e : exn) : string :=
  match e with
  | KeyError _ => "KeyError"
  | TypeError _ => "TypeError"
  | AttributeError => "AttributeError"
  | ValueError => "ValueError"
  | IndexingError => "IndexingError"
  | ReferenceError => "ReferenceError"
  | HTTPError _ => "HTTPError"
  | RuntimeError => "RuntimeError"
  | JSONDecodeError => "JSONDecodeError"
  | ConnectionError => "ConnectionError"
  | StopIteration => "StopIteration"
  end.

(** ** Definitions for the statements below *)

(** The heap [w'] holds all of [w], untouched, and possibly new frames. *)
Definition grows (w w' : world) : Prop :=
  exists extra, heap w' = heap w ++ extra.

(** The frame a run returns, when it returns one. *)
Definition result_frame (run : result loc * world) : option DataFrame :=
  match fst run with
  | Ok l => nth_error (heap (snd run)) l
  | Raise _ => None
  end.

(** Line 122 on one cell: inside the closed interval of the bounds. *)
Definition inlier (b : bounds) (v : value) : bool :=
  fle (lower_limit b) (to_float v) && fle (to_float v) (upper_limit b).

(** The outlier filter as the specification words it: the columns in the
    given order, each judged with bounds taken on the table the preceding
    columns left, a row going as soon as one column flags it. *)
Fixpoint sequential_iqr_spec (cols : list string) (k : Q)
    (treat_na_as_outlier : bool) (f : DataFrame) : option DataFrame :=
  match cols with
  | [] => Some f
  | col :: rest =>
      match getitem_col f col with
      | Some s =>
          sequential_iqr_spec rest k treat_na_as_outlier
            (reset_index
               (Frame (columns f)
                      (filter (fun lr => inlier (iqr_bounds s k)
                                                (cell f col (snd lr)))
                              (rows f))))
      | None => None
      end
  end.

(** A float that is the rational [q]. *)
Definition feq (a : float) (q : Q) : Prop :=
  match a with Some x => (x == q)%Q | None => False end.

Definition num (z : Z) : value := VNum (inject_Z z).

(** A frame of one integer column on a fresh index. *)
Definition one_column (col : string) (zs : list Z) : DataFrame :=
  Frame [(col, Dint)]
        (combine (map Z.of_nat (seq 0 (length zs)))
                 (map (fun z => [num z]) zs)).

(** The column of the IQR-boundary example. *)
Definition boundary_frame : DataFrame :=
  one_column "pot_mw" [1; 2; 3; 4; 5; 100].

Definition boundary_series : Series :=
  MkSeries Dint (combine [0; 1; 2; 3; 4; 5]
                         (map num [1; 2; 3; 4; 5; 100])).

(** A column whose quartiles coincide although it is not constant. *)
Definition zero_iqr_frame : DataFrame :=
  one_column "pot_mw" [7; 7; 7; 7; 100].

Definition zero_iqr_series : Series :=
  MkSeries Dint (combine [0; 1; 2; 3; 4] (map num [7; 7; 7; 7; 100])).

(** Two columns: the first row is an outlier of [a]; no row is one of
    [b]. *)
Definition two_columns : DataFrame :=
  Frame [("a", Dint); ("b", Dint)]
        [(0, [num 100; num 1]); (1, [num 1; num 2]); (2, [num 2; num 3]);
         (3, [num 3; num 4]); (4, [num 4; num 5]); (5, [num 5; num 6])].

Definition demo_pages : list page :=
  [Page (repeat (JObj []) 1000) (Some true);
   Page [JObj []] (Some true);
   Page [] None].

Definition error_body : dict json :=
  [("error", JObj [("code", JNum 400); ("message", JStr "Invalid query")])].

(** What step 2.2 makes of a row whose status cell is the cell [i]. *)
Definition normalise_row (i : nat) (lr : label * list value)
  : label * list value :=
  (fst lr, update (snd lr) i (replace_one (nth i (snd lr) VNull))).

(** The number of rows of the frame at a location. *)
Definition nrows (w : world) (l : loc) : option nat :=
  option_map df_len (nth_error (heap w) l).

(** A step never returns more rows than it was given. *)
Definition shrinks (step : loc -> M loc) : Prop :=
  forall w gdf f out w',
    nth_error (heap w) gdf = Some f ->
    step gdf w = (Ok out, w') ->
    exists f', nth_error (heap w') out = Some f'
               /\ (df_len f' <= df_len f)%nat.

(** Status cells of every kind. *)
Definition status_frame : DataFrame :=
  Frame [("operacao", Dobject)]
        [(0, [num 1]); (1, [VStr "1"]); (2, [VNull]); (3, [VStr "Sim"]);
         (4, [VStr "Nao"])].

(** Two rows on the same coordinates and one elsewhere. *)
Definition twin_frame : DataFrame :=
  Frame [("nome_eol", Dobject); ("latitude", Dfloat); ("longitude", Dfloat)]
        [(0, [VStr "A"; VNum (-5 # 2); VNum (-77 # 2)]);
         (1, [VStr "B"; VNum (-5 # 2); VNum (-77 # 2)]);
         (2, [VStr "C"; VNum (-3 # 1); VNum (-40 # 1)])].

(** A small raw table with every column the cascade names. *)
Definition raw_columns : list (string * dtype) :=
  [("geometry", Dgeometry); ("versao", Dobject); ("operacao", Dobject);
   ("pot_mw", Dfloat); ("alt_total", Dfloat); ("alt_torre", Dfloat);
   ("diam_rotor", Dfloat); ("eol_versao_id", Dint); ("nome_eol", Dobject);
   ("den_aeg", Dobject); ("latitude", Dfloat); ("longitude", Dfloat);
   ("origem", Dobject); ("x", Dfloat); ("y", Dfloat);
   ("datum_emp", Dobject); ("fuso_ag", Dobject)].

Definition turbine (valid : bool) (versao : string) (operacao : value)
    (pot : value) (lat lon : Z) : list value :=
  [VGeom (Geometry (inject_Z lon) (inject_Z lat) valid); VStr versao;
   operacao; pot; num 120; num 80; num 90; num 7; VStr "EOL";
   VStr "AEG"; num lat; num lon; VStr "SIGEL"; num 500000; num 9000000;
   VStr "SIRGAS2000"; VStr "24S"].

Definition raw_frame : DataFrame :=
  Frame raw_columns
        [(0, turbine true valid_version (num 1) (num 1) (-5) (-38));
         (1, turbine true valid_version (VStr "1") (num 2) (-6) (-38));
         (2, turbine true valid_version (VStr "Sim") (num 3) (-7) (-38));
         (3, turbine true valid_version (num 1) (num 4) (-8) (-38));
         (4, turbine true valid_version (num 1) (num 5) (-9) (-38));
         (5, turbine true valid_version (num 1) (num 100) (-10) (-38));
         (6, turbine false valid_version (num 1) (num 3) (-11) (-38));
         (7, turbine true "Versao Antiga" (num 1) (num 3) (-12) (-38));
         (8, turbine true valid_version VNull (num 3) (-13) (-38));
         (9, turbine true valid_version (num 1) VNull (-14) (-38));
         (10, turbine true valid_version (num 1) (num 3) (-5) (-38))].

(** ** More of [extract.py], for the statements below *)

(** What [fetch_page] makes of the reply it is served (lines 29-37). *)
Definition reply_outcome (r : reply) : result (dict json) :=
  match r with
  | Failure e => Raise e
  | Response status body =>
      if (400 <=? status) && (status <? 600) then Raise (HTTPError status)
      else match body with
           | None => Raise JSONDecodeError
           | Some data =>
               if contains data "error" then Raise RuntimeError else Ok data
           end
  end.

(** A full page that does not carry the flag, then a short page. *)
Definition unflagged_pages : list page :=
  [Page (repeat (JObj []) 1000) (Some false);
   Page [JObj []] (Some true)].

(** The requests a run of the loop issues from [offset] on: the [i]-th
    asks for the page that starts [i * limit] records further. *)
Definition expected_requests (offset : Z) (extra : option (dict pvalue))
    (count : nat) : list (string * dict pvalue) :=
  map (fun i => (ARCGIS_URL,
                 request_params (offset + Z.of_nat i * limit) extra limit))
      (seq 0 count).

(** The progress lines of a verbose run over the pages it fetched. *)
Fixpoint progress (offset : Z) (acc : nat) (ps : list page) : list event :=
  match ps with
  | [] => []
  | p :: rest =>
      let acc' := (acc + length (page_features p))%nat in
      InfoPage offset (length (page_features p)) acc'
      :: progress (offset + limit) acc' rest
  end.

(** The caller's value for a query parameter: the last binding of the key
    in [extra_params], none when there is no override. *)
Definition override (extra : option (dict pvalue)) (key : string)
  : option pvalue :=
  match extra with
  | Some e => get (rev e) key
  | None => None
  end.

(** ** More of [processing.py], for the statements below *)

(** [l1] is [l2] with some elements left out, the others in their order. *)
Inductive subseq {A : Type} : list A -> list A -> Prop :=
| subseq_nil : subseq [] []
| subseq_skip (x : A) (l1 l2 : list A) : subseq l1 l2 -> subseq l1 (x :: l2)
| subseq_keep (x : A) (l1 l2 : list A) :
    subseq l1 l2 -> subseq (x :: l1) (x :: l2).

(** The cells of a frame, row by row, without the labels. *)
Definition cells (f : DataFrame) : list (list value) := map snd (rows f).

(** The labels 0, 1, 2, ... of a re-indexed frame. *)
Definition dense_index (f : DataFrame) : Prop :=
  index f = map Z.of_nat (seq 0 (df_len f)).

(** The column names of a frame. *)
Definition names (f : DataFrame) : list string := map fst (columns f).

(** Every attribute of [subset] is there in the row. *)
Definition complete_row (f : DataFrame) (subset : list string)
    (lr : label * list value) : bool :=
  forallb (fun c => negb (isnull (cell f c (snd lr)))) subset.

(** The rows [drop_duplicates] keeps among keys, after the keys in [seen]. *)
Definition kept_keys (seen : list (list value)) (keys : list (list value))
  : list (list value) :=
  map snd (filter fst (combine (map negb (duplicated seen keys)) keys)).

Definition coordinates : list string := ["latitude"; "longitude"].

(** A computation that leaves the frames at the locations below [n] as
    they are, keeps the heap at least that long, and returns a location
    that is not below [n]. *)
Definition untouched_below (n : nat) (m : M loc) : Prop :=
  forall w,
    (n <= length (heap w))%nat ->
    (forall l, (l < n)%nat ->
               nth_error (heap (snd (m w))) l = nth_error (heap w) l)
    /\ (n <= length (heap (snd (m w))))%nat
    /\ forall out, fst (m w) = Ok out -> (n <= out)%nat.

(** The columns [validate_gdf] asks for by name. *)
Definition required_columns : list string :=
  "geometry" :: "versao" :: "operacao"
  :: drop_na_columns ++ coordinates ++ drop_columns.

(** The dtype of a column, when the frame has it. *)
Definition dtype_of (f : DataFrame) (col : string) : option dtype :=
  option_map s_dtype (getitem_col f col).

(** The characters of a string. *)
Definition chars (s : string) : list ascii := list_ascii_of_string s.

Definition is_space (c : ascii) : bool := Ascii.eqb c " ".


(** [f'] is [f] with every row rewritten by [R], labels and order kept. *)
Definition rows_rewritten (R : list value -> list value) (f f' : DataFrame)
  : Prop :=
  rows f' = map (fun lr => (fst lr, R (snd lr))) (rows f).

(** The name [lowercase_columns] gives a column of a frame whose active
    geometry column is called [geometry_name]. *)
Definition lowered (lower : string -> string) (geometry_name : string)
    (c : string) : string :=
  if negb (String.eqb c geometry_name) then lower c else c.

(** A frame of points whose geometry column is called SHAPE, with an
    attribute that happens to be called Geometry. *)
Definition shape_frame : DataFrame :=
  Frame [("SHAPE", Dgeometry); ("NOME_EOL", Dobject); ("Geometry", Dobject)]
        [(0, [VGeom (Geometry (-77 # 2) (-5 # 2) true); VStr "A";
              VStr "Point"]);
         (1, [VNull; VStr "B"; VNull])].

(** A frame of points that has no coordinate columns yet. *)
Definition points_frame : DataFrame :=
  Frame [("geometry", Dgeometry); ("NOME_EOL", Dobject); ("POT_MW", Dfloat)]
        [(0, [VGeom (Geometry (-77 # 2) (-5 # 2) true); VStr "A"; num 2]);
         (1, [VNull; VStr "B"; num 3]);
         (2, [VGeom (Geometry (-40 # 1) (-3 # 1) true); VStr "C"; VNull])].

(** A text cell: a string or a null. *)
Definition is_text (v : value) : bool :=
  match v with VStr _ | VNull => true | _ => false end.

(** A frame with text in its object columns. *)
Definition text_frame : DataFrame :=
  Frame [("nome_eol", Dobject); ("pot_mw", Dfloat); ("obs", Dobject)]
        [(0, [VStr (String "A" (String "013" (String "010" "B")));
              num 2; VNull]);
         (1, [VStr "C"; VNull; VStr (String "010" "D")])].

(** What [drop(columns=cols)] makes of a row of a frame with the columns
    [cs]: the cells of the dropped columns go. *)
Definition pruned_row (cs : list (string * dtype)) (cols : list string)
    (r : list value) : list value :=
  map snd (filter fst (combine (map (fun c => negb (mem_str (fst c) cols)) cs)
                               r)).

(** The attributes that must not be null after steps 2.2 and 2.3. *)
Definition required_values : list string := "operacao" :: drop_na_columns.

(** ** The transforms applied before the cascade *)

(** [geometry.x] and [geometry.y] of a point geometry; NaN where the
    geometry is missing. *)
Definition point_x (v : value) : value :=
  match v with VGeom g => VNum (geom_x g) | _ => VNull end.
Definition point_y (v : value) : value :=
  match v with VGeom g => VNum (geom_y g) | _ => VNull end.

(** A row cut, or padded with nulls, to [n] cells. *)
Definition fit (n : nat) (r : list value) : list value :=
  firstn n (r ++ repeat VNull n).

(** [gdf[col] = series]: a column the frame has is overwritten where it
    stands ([setitem_col]); a new one is appended after the others. *)
Definition assign_col (f : DataFrame) (col : string) (s : Series)
  : DataFrame :=
  match setitem_col f col s with
  | Some f' => f'
  | None =>
      let n := length (columns f) in
      Frame (columns f ++ [(col, s_dtype s)])
            (if labels_eqb (labels (s_items s)) (index f) then
               map (fun p => (fst (fst p),
                              fit n (snd (fst p)) ++ [snd (snd p)]))
                   (combine (rows f) (s_items s))
             else
               map (fun lr => (fst lr,
                               fit n (snd lr)
                               ++ [match lookup (fst lr) (s_items s) with
                                   | Some v => v | None => VNull end]))
                   (rows f))
  end.

(** A float Series computed cell by cell from a column. *)
Definition float_series (g : value -> value) (s : Series) : Series :=
  MkSeries Dfloat (map (fun lv => (fst lv, g (snd lv))) (s_items s)).

(** Lines 43-45: both columns are assigned on the frame itself. *)
Definition add_lat_lon (gdf : loc) : M loc :=
  f <- load gdf ;;
  g <- geometry_of f ;;
  store gdf (assign_col f "longitude" (float_series point_x g)) ;;;
  f <- load gdf ;;
  g <- geometry_of f ;;
  store gdf (assign_col f "latitude" (float_series point_y g)) ;;;
  ret gdf.

(** [gdf.geometry.name].  A GeoDataFrame carries the name of its active
    geometry column, here [active] ([None] when none was ever set).
    [gdf.geometry] raises when that name is unset or is not a column of
    the frame, and the Series it returns bears that name. *)
Definition geometry_name (active : option string) (f : DataFrame)
  : M string :=
  match active with
  | Some g => lift_option (getitem_col f g) AttributeError ;;; ret g
  | None => raise AttributeError
  end.

(** The comprehension of line 34, one column per call: the name of the
    geometry column is asked for at every column.  [lower] is Python's
    [str.lower]. *)
Fixpoint renamed (lower : string -> string) (active : option string)
    (f : DataFrame) (cols : list (string * dtype))
  : M (list (string * dtype)) :=
  match cols with
  | [] => ret []
  | (col, d) :: rest =>
      g <- geometry_name active f ;;
      more <- renamed lower active f rest ;;
      ret ((if negb (String.eqb col g) then lower col else col, d) :: more)
  end.

(** Lines 33-35: the names are assigned on the copy. *)
Definition lowercase_columns (lower : string -> string)
    (active : option string) (gdf : loc) : M loc :=
  f <- load gdf ;;
  gdf <- alloc f ;;
  f <- load gdf ;;
  cols <- renamed lower active f (columns f) ;;
  store gdf (Frame cols (rows f)) ;;;
  ret gdf.

(** [str.lower] on ASCII text. *)
Definition ascii_lower_char (c : ascii) : ascii :=
  let n := nat_of_ascii c in
  if (Nat.leb 65 n && Nat.leb n 90)%bool then ascii_of_nat (n + 32) else c.

Fixpoint ascii_lower (s : string) : string :=
  match s with
  | EmptyString => EmptyString
  | String c rest => String (ascii_lower_char c) (ascii_lower rest)
  end.

(** A carriage return or a line feed. *)
Definition is_break (c : ascii) : bool :=
  (Ascii.eqb c "013" || Ascii.eqb c "010")%bool.

(** [re.sub(r'[\r\n]+', ' ', s)]: every maximal run of line breaks becomes
    one space; [in_run] tells that the previous character was a break. *)
Fixpoint sub_breaks (in_run : bool) (s : string) : string :=
  match s with
  | EmptyString => EmptyString
  | String c rest =>
      if is_break c then
        if in_run then sub_breaks true rest
        else String " " (sub_breaks true rest)
      else String c (sub_breaks false rest)
  end.

Definition replace_line_breaks (s : string) : string := sub_breaks false s.

(** The [.str] accessor refuses a column whose values, nulls apart, are
    all numbers; it takes strings, mixed values and an all-null column. *)
Definition str_accessor_ok (s : Series) : bool :=
  let present := filter (fun lv => negb (isnull (snd lv))) (s_items s) in
  match present with
  | [] => true
  | _ :: _ =>
      negb (forallb (fun lv => match snd lv with VNum _ => true | _ => false end)
                    present)
  end.

(** [.str.replace(...)] on one cell: a string is rewritten; anything else
    comes out as NaN. *)
Definition str_replace_cell (v : value) : value :=
  match v with
  | VStr s => VStr (replace_line_breaks s)
  | _ => VNull
  end.

Definition str_replace (s : Series) : Series :=
  MkSeries Dobject (map (fun lv => (fst lv, str_replace_cell (snd lv)))
                        (s_items s)).

(** [gdf.select_dtypes(include="object").columns] *)
Definition object_columns (f : DataFrame) : list string :=
  map fst (filter (fun cd => match snd cd with Dobject => true | _ => false end)
                  (columns f)).

(** The body of the loop of lines 64-65, one column per call. *)
Fixpoint line_breaks_loop (cols : list string) (gdf : loc) : M unit :=
  match cols with
  | [] => ret tt
  | col :: rest =>
      f <- load gdf ;;
      s <- column_of f col ;;
      if negb (str_accessor_ok s) then raise AttributeError
      else
        store gdf (assign_col f col (str_replace s)) ;;;
        line_breaks_loop rest gdf
  end.

Definition deal_with_line_breaks (gdf : loc) : M loc :=
  f <- load gdf ;;
  line_breaks_loop (object_columns f) gdf ;;;
  ret gdf.

(** ** [remove_outliers_iqr] over the arithmetic of the column

    Lines 115-129 compute with what the libraries supply: [quantile], the
    float operations [-], [*], [+] and the comparisons of a cell with a
    scalar.  In NumPy these round to float64 and a comparison with NaN is
    [False]; on a nullable dtype (Int64, Float64) a comparison with a
    missing value is itself missing.  Here the function is modelled again
    with that arithmetic as a parameter; the model of the earlier sections
    is the instance [exact] below (exact rationals, NumPy comparisons). *)

Record arithmetic : Type := Arithmetic
  { scalar : Type;
    (** [series.quantile(q)] *)
    a_quantile : Series -> Q -> scalar;
    a_sub : scalar -> scalar -> scalar;
    a_mul : scalar -> scalar -> scalar;
    a_add : scalar -> scalar -> scalar;
    (** [cell >= x] and [cell <= x]; [None] is the missing value a
        nullable dtype gives. *)
    a_ge : value -> scalar -> option bool;
    a_le : value -> scalar -> option bool }.

Record bounds_in (A : arithmetic) : Type := BoundsIn
  { lower_limit_in : scalar A; upper_limit_in : scalar A }.

(** Lines 115-120. *)
Definition iqr_bounds_in (A : arithmetic) (series : Series) (k : scalar A)
  : bounds_in A :=
  let q1 := a_quantile A series (1 # 4) in
  let q3 := a_quantile A series (3 # 4) in
  let iqr := a_sub A q3 q1 in
  BoundsIn A (a_sub A q1 (a_mul A k iqr)) (a_add A q3 (a_mul A k iqr)).

(** [series >= x] and [series <= x]: a mask on the index of the series. *)
Definition series_ge_in (A : arithmetic) (s : Series) (x : scalar A)
  : list (label * option bool) :=
  map (fun lv => (fst lv, a_ge A (snd lv) x)) (s_items s).
Definition series_le_in (A : arithmetic) (s : Series) (x : scalar A)
  : list (label * option bool) :=
  map (fun lv => (fst lv, a_le A (snd lv) x)) (s_items s).

(** [a & b] on one cell: plain conjunction on booleans, Kleene's where a
    side is missing. *)
Definition and3 (a b : option bool) : option bool :=
  match a, b with
  | Some false, _ => Some false
  | _, Some false => Some false
  | Some true, Some true => Some true
  | _, _ => None
  end.

(** [l & r] on two masks of the same Series, cell by cell. *)
Definition series_and_in (l r : list (label * option bool))
  : list (label * option bool) :=
  map (fun p => (fst (fst p), and3 (snd (fst p)) (snd (snd p))))
      (combine l r).

(** [mask.fillna(fill)] *)
Definition fill3 (b : option bool) (fill : bool) : bool :=
  match b with Some x => x | None => fill end.
Definition fillna_in (m : list (label * option bool)) (fill : bool)
  : list (label * bool) :=
  map (fun lb => (fst lb, fill3 (snd lb) fill)) m.

(** Lines 122-129. *)
Definition column_mask_in (A : arithmetic) (series : Series) (k : scalar A)
    (treat_na_as_outlier : bool) : list (label * bool) :=
  let b := iqr_bounds_in A series k in
  let col_inlier :=
    series_and_in (series_ge_in A series (lower_limit_in b))
                  (series_le_in A series (upper_limit_in b)) in
  if treat_na_as_outlier then fillna_in col_inlier false
  else fillna_in col_inlier true.

(** The body of the [for col in columns] loop, one column per call. *)
Fixpoint iqr_loop_in (A : arithmetic) (cols : list string) (k : scalar A)
    (treat_na_as_outlier : bool) (gdf_filtered : loc) (data_count : nat)
    (keep_mask : bool_mask) : M loc :=
  match cols with
  | [] => ret gdf_filtered
  | col :: rest =>
      f <- load gdf_filtered ;;
      series <- lift_option (getitem_col f col) (KeyError [col]) ;;
      if negb (numeric_kind (s_dtype series)) then raise (TypeError col)
      else
        let col_mask := column_mask_in A series k treat_na_as_outlier in
        keep_mask' <- lift (mask_and keep_mask col_mask) ;;
        kept <- lift (getitem_mask f keep_mask') ;;
        gdf_filtered' <- alloc (reset_index kept) ;;
        let n := df_len (reset_index kept) in
        (if Nat.ltb n data_count
         then print (InfoOutliers (data_count - n) col)
         else ret tt) ;;;
        iqr_loop_in A rest k treat_na_as_outlier gdf_filtered'
                    (if Nat.ltb n data_count then n else data_count)
                    (BoolSeries keep_mask')
  end.

Definition remove_outliers_iqr_in (A : arithmetic) (gdf : loc)
    (cols : list string) (k : scalar A) (treat_na_as_outlier : bool)
  : M loc :=
  f <- load gdf ;;
  gdf_filtered <- alloc f ;;
  let data_count := df_len f in
  let keep_mask := NdArray (map (fun _ => true) (index f)) in
  iqr_loop_in A cols k treat_na_as_outlier gdf_filtered data_count keep_mask.

(** The arithmetic of the earlier sections: exact rationals, NaN as
    [None], and NumPy's comparisons, which are [False] on NaN. *)
Definition exact : arithmetic :=
  @Arithmetic float quantile fsub fmul fadd
             (fun v x => Some (fle x (to_float v)))
             (fun v x => Some (fle (to_float v) x)).

(** The same arithmetic on a nullable dtype: a comparison with a missing
    value is missing. *)
Definition nullable : arithmetic :=
  @Arithmetic float quantile fsub fmul fadd
             (fun v x => match v with
                         | VNull => None
                         | _ => Some (fle x (to_float v))
                         end)
             (fun v x => match v with
                         | VNull => None
                         | _ => Some (fle (to_float v) x)
                         end).

(** An arithmetic whose comparisons are never missing: a NumPy dtype. *)
Definition numpy_backed (A : arithmetic) : Prop :=
  forall v x, a_ge A v x <> None /\ a_le A v x <> None.

(** The test of line 122 on one cell, as a mask cell. *)
Definition col_inlier_in (A : arithmetic) (b : bounds_in A) (v : value)
  : option bool :=
  and3 (a_ge A v (lower_limit_in b)) (a_le A v (upper_limit_in b)).

(** Whether lines 122-129 keep a row, by its cell in the column. *)
Definition keeps (A : arithmetic) (b : bounds_in A)
    (treat_na_as_outlier : bool) (v : value) : bool :=
  fill3 (col_inlier_in b v) (negb treat_na_as_outlier).

(** A column with a missing value. *)
Definition gap_frame : DataFrame :=
  Frame [("pot_mw", Dfloat)]
        [(0, [num 1]); (1, [VNull]); (2, [num 2]); (3, [num 3]);
         (4, [num 100])].

Unset Implicit Arguments.

(** * Theorems: the pagination loop *)

Lemma contains_error_page_body (p : page) :
  contains (page_body p) "error" = false.
Proof. unfold page_body; destruct (page_exceeded p); reflexivity. Qed.

Lemma get_features_page_body (p : page) :
  get (page_body p) "features" = Some (JArr (page_features p)).
Proof. reflexivity. Qed.

Lemma get_exceeded_page_body (p : page) :
  truthy (match get (page_body p) "exceededTransferLimit" with
          | Some v => v | None => JBool false end) = flagged p.
Proof. unfold page_body, flagged; destruct (page_exceeded p); reflexivity. Qed.

(** One served page through [fetch_page]. *)
Lemma fetch_page_serve url offset extra lim p rest s o :
  fetch_page url offset extra lim (Net (serve p :: rest) s o)
  = (Ok (page_body p),
     Net rest (s ++ [(url, request_params offset extra lim)]) o).
Proof.
  unfold fetch_page, bind, session_get, serve; cbn.
  rewrite contains_error_page_body. reflexivity.
Qed.

(** One iteration of the loop on a served page. *)
Lemma fetch_loop_step fuel extra verbose offset feats p rest s o :
  fetch_loop (S fuel) extra verbose offset feats (Net (serve p :: rest) s o)
  = let feats' := feats ++ page_features p in
    let n' := Net rest
                  (s ++ [(ARCGIS_URL, request_params offset extra limit)])
                  (o ++ if verbose
                        then [InfoPage offset (length (page_features p))
                                       (length feats')]
                        else []) in
    if continues p
    then fetch_loop fuel extra verbose (offset + limit) feats' n'
    else (Ok (Some feats'), n').
Proof.
  cbn [fetch_loop]. unfold bind at 1. rewrite fetch_page_serve.
  rewrite get_features_page_body. cbn [iterate lift_option].
  unfold bind at 1. cbn [ret].
  rewrite get_exceeded_page_body.
  unfold continues, full.
  replace (Z.of_nat (length (page_features p)) <? limit)
    with (negb (limit <=? Z.of_nat (length (page_features p))))
    by (destruct (Z.leb_spec limit (Z.of_nat (length (page_features p))));
        destruct (Z.ltb_spec (Z.of_nat (length (page_features p))) limit);
        simpl; try reflexivity; lia).
  rewrite <- negb_andb.
  destruct verbose; unfold bind, say; cbn;
    destruct (flagged p && _); cbn; rewrite ?app_nil_r; reflexivity.
Qed.

(** The whole run over a sequence of served pages: it stops at the first
    page that does not continue, or asks once more than there are pages. *)
Lemma fetch_loop_pages pages :
  forall fuel extra verbose offset feats s o,
    (length pages < fuel)%nat ->
    let pre := take_while continues pages in
    let run := fetch_loop fuel extra verbose offset feats
                          (Net (map serve pages) s o) in
    requests (snd run) = (length s + S (length pre))%nat
    /\ replies (snd run) = map serve (skipn (S (length pre)) pages)
    /\ fst run = match nth_error pages (length pre) with
                 | Some p =>
                     Ok (Some (feats
                               ++ concat (map page_features (pre ++ [p]))))
                 | None => Raise StopIteration
                 end.
Proof.
  induction pages as [|p ps IH]; intros fuel extra verbose offset feats s o Hfuel;
    destruct fuel as [|fuel]; try (cbn in Hfuel; lia).
  - cbn. unfold requests; cbn. rewrite length_app; cbn.
    repeat split; lia.
  - cbn [map]. rewrite fetch_loop_step. cbn [take_while].
    destruct (continues p) eqn:Hc.
    + cbn zeta.
      specialize (IH fuel extra verbose (offset + limit)
                     (feats ++ page_features p)
                     (s ++ [(ARCGIS_URL, request_params offset extra limit)])
                     (o ++ if verbose
                           then [InfoPage offset (length (page_features p))
                                   (length (feats ++ page_features p))]
                           else [])).
      cbn zeta in IH. destruct IH as (Hr & Hq & Hres); [cbn in Hfuel; lia|].
      rewrite Hr, Hq, Hres. rewrite length_app. cbn [length nth_error skipn].
      repeat split; try lia.
      destruct (nth_error ps (length (take_while continues ps))); [|reflexivity].
      cbn [app map concat]. rewrite <- app_assoc. reflexivity.
    + cbn. unfold requests; cbn. rewrite length_app, app_nil_r; cbn.
      repeat split; lia.
Qed.

Lemma take_while_all {A} (f : A -> bool) (l : list A) :
  forallb f l = true -> take_while f l = l.
Proof.
  induction l as [|x t IH]; cbn; [reflexivity|].
  destruct (f x); cbn; [intros H; rewrite IH by exact H; reflexivity|discriminate].
Qed.

Lemma take_while_app_stop {A} (f : A -> bool) (l : list A) (x : A) (r : list A) :
  forallb f l = true -> f x = false -> take_while f (l ++ x :: r) = l.
Proof.
  induction l as [|y t IH]; cbn; intros Hall Hx.
  - rewrite Hx; reflexivity.
  - destruct (f y); cbn in *; [rewrite IH by assumption; reflexivity|discriminate].
Qed.

Lemma take_while_nth_true {A} (f : A -> bool) (l : list A) :
  forall i x, nth_error l i = Some x ->
              (i < length (take_while f l))%nat -> f x = true.
Proof.
  induction l as [|y t IH]; intros [|i] x Hn Hi; cbn in *; try discriminate.
  - destruct (f y) eqn:E; cbn in Hi; [congruence|lia].
  - destruct (f y) eqn:E; cbn in Hi; [apply (IH i); [assumption|lia]|lia].
Qed.

Lemma take_while_nth_false {A} (f : A -> bool) (l : list A) :
  forall x, nth_error l (length (take_while f l)) = Some x -> f x = false.
Proof.
  induction l as [|y t IH]; intros x Hn; cbn in *; try discriminate.
  destruct (f y) eqn:E; cbn in Hn; [apply IH; assumption|congruence].
Qed.

Lemma nth_error_split_at {A} (l : list A) :
  forall i x, nth_error l i = Some x -> l = firstn i l ++ x :: skipn (S i) l.
Proof.
  induction l as [|y t IH]; intros [|i] x H; cbn in *; try discriminate.
  - congruence.
  - f_equal. apply IH. exact H.
Qed.

Lemma continues_iff (p : page) :
  continues p = true
  <-> page_exceeded p = Some true
      /\ limit <= Z.of_nat (length (page_features p)).
Proof.
  unfold continues, flagged, full. rewrite andb_true_iff, Z.leb_le.
  destruct (page_exceeded p) as [[|]|]; split; intros [H1 H2];
    split; congruence || assumption.
Qed.

(** ** The requests of a run *)

Lemma get_set_key {V} (d : dict V) (key : string) (v : V) (k : string) :
  get (set_key d key v) k = if String.eqb key k then Some v else get d k.
Proof.
  induction d as [|[k0 v0] rest IH]; cbn [set_key get]; [reflexivity|].
  destruct (String.eqb k0 key) eqn:E0; cbn [get].
  - apply String.eqb_eq in E0. subst k0.
    destruct (String.eqb key k); reflexivity.
  - rewrite IH. destruct (String.eqb k0 k) eqn:E1; [|reflexivity].
    apply String.eqb_eq in E1. subst k0. rewrite String.eqb_sym, E0.
    reflexivity.
Qed.

Lemma get_app {V} (a b : dict V) (k : string) :
  get (a ++ b) k = match get a k with Some v => Some v | None => get b k end.
Proof.
  induction a as [|[k0 v0] a IH]; cbn [app get]; [reflexivity|].
  destruct (String.eqb k0 k); [reflexivity|exact IH].
Qed.

Lemma get_dict_update {V} (o : dict V) :
  forall (d : dict V) (k : string),
    get (dict_update d o) k
    = match get (rev o) k with Some v => Some v | None => get d k end.
Proof.
  unfold dict_update.
  induction o as [|[k1 v1] o IH]; intros d k; cbn [fold_left rev fst snd];
    [reflexivity|].
  rewrite IH, get_app, get_set_key. cbn [get].
  destruct (get (rev o) k); [reflexivity|].
  destruct (String.eqb k1 k); reflexivity.
Qed.

Lemma get_absent {V} (d : dict V) (k : string) :
  ~ In k (map fst d) -> get d k = None.
Proof.
  induction d as [|[k0 v0] d IH]; cbn; intros H; [reflexivity|].
  destruct (String.eqb k0 k) eqn:E.
  - apply String.eqb_eq in E. exfalso. apply H. left. exact E.
  - apply IH. intros Hin. apply H. right. exact Hin.
Qed.

Lemma request_params_get offset extra lim k :
  get (request_params offset extra lim) k
  = match override extra k with
    | Some v => Some v
    | None => get (_default_params offset lim) k
    end.
Proof.
  unfold request_params, override.
  destruct extra as [[|kv more]|]; try reflexivity.
  apply get_dict_update.
Qed.

Lemma expected_requests_succ offset extra n :
  expected_requests offset extra (S n)
  = (ARCGIS_URL, request_params offset extra limit)
    :: expected_requests (offset + limit) extra n.
Proof.
  unfold expected_requests. cbn [seq map]. f_equal.
  - do 2 f_equal. cbn. lia.
  - rewrite <- seq_shift, map_map. apply map_ext. intros i.
    do 2 f_equal. rewrite Nat2Z.inj_succ. lia.
Qed.

(** The requests and the progress lines of a run over served pages. *)
Lemma fetch_loop_trace pages :
  forall fuel extra verbose offset feats s o,
    (length pages < fuel)%nat ->
    let count := S (length (take_while continues pages)) in
    let run := fetch_loop fuel extra verbose offset feats
                          (Net (map serve pages) s o) in
    sent (snd run) = s ++ expected_requests offset extra count
    /\ out (snd run)
       = o ++ if verbose
              then progress offset (length feats) (firstn count pages)
              else [].
Proof.
  induction pages as [|p ps IH]; intros fuel extra verbose offset feats s o Hfuel;
    destruct fuel as [|fuel]; try (cbn in Hfuel; lia).
  - cbn. rewrite Z.add_0_r. destruct verbose; rewrite app_nil_r; split;
      reflexivity.
  - cbn [map]. rewrite fetch_loop_step. cbn [take_while].
    destruct (continues p) eqn:Hc; cbn zeta.
    + specialize (IH fuel extra verbose (offset + limit)
                     (feats ++ page_features p)
                     (s ++ [(ARCGIS_URL, request_params offset extra limit)])
                     (o ++ if verbose
                           then [InfoPage offset (length (page_features p))
                                   (length (feats ++ page_features p))]
                           else [])).
      cbn zeta in IH. destruct IH as (Hs & Ho); [cbn in Hfuel; lia|].
      rewrite Hs, Ho. cbn [length].
      rewrite (expected_requests_succ offset extra
                 (S (length (take_while continues ps)))).
      split.
      * rewrite <- app_assoc. reflexivity.
      * rewrite length_app. destruct verbose.
        -- rewrite <- app_assoc. reflexivity.
        -- rewrite !app_nil_r. reflexivity.
    + cbn [snd sent out length]. rewrite expected_requests_succ.
      cbn [firstn progress expected_requests seq map].
      rewrite length_app. destruct verbose; split; reflexivity.
Qed.

Lemma take_while_prefix_length {A} (f : A -> bool) (l r : list A) :
  forallb f l = true -> (length l <= length (take_while f (l ++ r)))%nat.
Proof.
  induction l as [|x l IH]; cbn; intros H; [lia|].
  apply andb_true_iff in H. destruct H as [Hx Hl]. rewrite Hx. cbn [length].
  specialize (IH Hl). lia.
Qed.

(** C2, as stated, fails: the second of these two pages returns fewer than
    [limit] records, yet the run issues one request and not two, because
    the first page, though full, does not carry the flag and ends the
    run. *)
Lemma fetch_all_features_short_page_unreached :
  let run := fetch_all_features 3 None false
               (Net (map serve unflagged_pages) [] []) in
  nth_error unflagged_pages 1 = Some (Page [JObj []] (Some true))
  /\ Z.of_nat (length (page_features (Page [JObj []] (Some true)))) < limit
  /\ requests (snd run) = 1%nat
  /\ requests (snd run) <> 2%nat.
Proof.
  cbn zeta. split; [reflexivity|]. split; [reflexivity|].
  assert (H : requests (snd (fetch_all_features 3 None false
                               (Net (map serve unflagged_pages) [] [])))
              = 1%nat) by (vm_compute; reflexivity).
  split; [exact H|]. rewrite H. discriminate.
Qed.

(** C2, amended.  Over any sequence of served pages, with fuel for all of
    them: (1) after a page the run has fetched, a further request is
    issued if and only if that page carries [exceededTransferLimit = true]
    and holds at least [limit] records; (2) every request the run issues
    goes to the endpoint, the [j]-th (from zero) asking for [limit]
    records from offset [j * limit] on, so that the further request is the
    one for the next page (a caller's override of these two parameters
    apart); (3) when the page of index [N] (the [N+1]-th) is fetched and
    holds fewer than [limit] records, whatever its flag, the run issues
    exactly [N+1] requests; (4) the page of index [N] is fetched when the
    [N] pages before it all continue, and if it is short the run then
    returns the features of these [N+1] pages in order and leaves the
    later pages unasked. *)
Theorem fetch_all_features_pagination
    (pages : list page) (extra : option (dict pvalue)) (verbose : bool)
    (fuel : nat) (Hfuel : (length pages < fuel)%nat) :
  let run := fetch_all_features fuel extra verbose
                                (Net (map serve pages) [] []) in
  (forall i p,
      nth_error pages i = Some p ->
      (i < requests (snd run))%nat ->
      ((S i < requests (snd run))%nat
       <-> page_exceeded p = Some true
           /\ limit <= Z.of_nat (length (page_features p))))
  /\ (forall j,
         (j < requests (snd run))%nat ->
         exists q,
           nth_error (sent (snd run)) j = Some q
           /\ fst q = ARCGIS_URL
           /\ get (snd q) "resultOffset"
              = match override extra "resultOffset" with
                | Some v => Some v
                | None => Some (PInt (Z.of_nat j * limit))
                end
           /\ get (snd q) "resultRecordCount"
              = match override extra "resultRecordCount" with
                | Some v => Some v
                | None => Some (PInt limit)
                end)
  /\ (forall N p,
         nth_error pages N = Some p ->
         (N < requests (snd run))%nat ->
         Z.of_nat (length (page_features p)) < limit ->
         requests (snd run) = S N)
  /\ (forall N p,
         nth_error pages N = Some p ->
         forallb continues (firstn N pages) = true ->
         (N < requests (snd run))%nat
         /\ (Z.of_nat (length (page_features p)) < limit ->
             requests (snd run) = S N
             /\ fst run = Ok (Some (concat (map page_features
                                                (firstn (S N) pages))))
             /\ replies (snd run) = map serve (skipn (S N) pages))).
Proof.
  intros run.
  destruct (fetch_loop_pages pages fuel extra verbose 0 [] [] [] Hfuel)
    as (Hreq & Hrep & Hres).
  destruct (fetch_loop_trace pages fuel extra verbose 0 [] [] [] Hfuel)
    as [Hsent _].
  fold (fetch_all_features fuel extra verbose) in Hreq, Hrep, Hres, Hsent.
  fold run in Hreq, Hrep, Hres, Hsent.
  cbn [length Nat.add app] in Hreq, Hsent.
  assert (Hnext : forall i p,
             nth_error pages i = Some p ->
             (i < requests (snd run))%nat ->
             ((S i < requests (snd run))%nat <-> continues p = true)).
  { intros i p Hn Hi. rewrite Hreq in *. split.
    - intros Hlt. apply (take_while_nth_true continues pages i); [exact Hn|lia].
    - intros Hc.
      destruct (Nat.eq_dec i (length (take_while continues pages))) as [E|E].
      + subst i. rewrite (take_while_nth_false continues pages p Hn) in Hc.
        discriminate.
      + lia. }
  assert (Hpre : forall N p,
             nth_error pages N = Some p ->
             forallb continues (firstn N pages) = true ->
             (N <= length (take_while continues pages))%nat).
  { intros N p Hn Hall.
    assert (Hlen : length (firstn N pages) = N).
    { rewrite length_firstn. apply Nat.min_l.
      apply Nat.lt_le_incl, nth_error_Some. congruence. }
    rewrite (nth_error_split_at pages N p Hn), <- Hlen at 1.
    apply take_while_prefix_length. exact Hall. }
  split; [|split; [|split]].
  - intros i p Hn Hi. rewrite (Hnext i p Hn Hi). apply continues_iff.
  - intros j Hj. rewrite Hreq in Hj. rewrite Hsent.
    unfold expected_requests. rewrite nth_error_map.
    assert (Hseq : nth_error (seq 0 (S (length (take_while continues pages))))
                             j = Some j).
    { rewrite nth_error_nth' with (d := 0%nat) by (rewrite length_seq; lia).
      rewrite seq_nth by lia. reflexivity. }
    rewrite Hseq. cbn [option_map]. eexists. split; [reflexivity|].
    cbn [fst snd]. rewrite !request_params_get.
    split; [reflexivity|]. split.
    + destruct (override extra "resultOffset"); reflexivity.
    + destruct (override extra "resultRecordCount"); reflexivity.
  - intros N p Hn HN Hshort.
    assert (~ (S N < requests (snd run))%nat).
    { intros Hlt. apply (Hnext N p Hn HN) in Hlt.
      apply continues_iff in Hlt. lia. }
    lia.
  - intros N p Hn Hall. split.
    { rewrite Hreq. specialize (Hpre N p Hn Hall). lia. }
    intros Hshort.
    assert (Hstop : continues p = false).
    { destruct (continues p) eqn:E; [|reflexivity].
      apply continues_iff in E. lia. }
    assert (Htw : take_while continues pages = firstn N pages).
    { rewrite (nth_error_split_at pages N p Hn) at 1.
      apply take_while_app_stop; assumption. }
    assert (Hlen : length (firstn N pages) = N).
    { rewrite length_firstn. apply Nat.min_l.
      apply Nat.lt_le_incl, nth_error_Some. congruence. }
    rewrite Htw, Hlen in *. rewrite Hn in Hres.
    repeat split; try assumption.
    rewrite Hres. cbn [app]. do 3 f_equal.
    rewrite (nth_error_split_at pages N p Hn) at 2.
    rewrite firstn_app, Hlen.
    replace (S N - N)%nat with 1%nat by lia.
    rewrite firstn_firstn, Nat.min_r by lia.
    cbn [firstn]. reflexivity.
Qed.

Lemma fetch_all_features_pagination_witness :
  requests (snd (fetch_all_features 4 None false
                   (Net (map serve demo_pages) [] []))) = 2%nat.
Proof.
  refine (proj1 (proj2 (proj2 (@fetch_all_features_pagination
                                 demo_pages None false 4%nat _)))
                1%nat (Page [JObj []] (Some true)) _ _ _).
  - cbn; lia.
  - reflexivity.
  - vm_compute; reflexivity.
  - vm_compute; reflexivity.
Defined.

(** C3, as stated, fails: a 500 response raises [HTTPError], a 200 response
    whose payload holds an [error] object raises [RuntimeError], and these
    are two exception classes. *)
Lemma fetch_page_error_kinds_differ :
  fst (fetch_page ARCGIS_URL 0 None limit (Net [Response 500 None] [] []))
  = Raise (HTTPError 500)
  /\ fst (fetch_page ARCGIS_URL 0 None limit
                     (Net [Response 200 (Some error_body)] [] []))
     = Raise RuntimeError
  /\ exn_class (HTTPError 500) <> exn_class RuntimeError.
Proof. repeat split. discriminate. Qed.

(** C3, amended.  A response with a 4xx or 5xx status makes [fetch_page]
    raise [HTTPError]; a response with any other status whose payload
    holds an [error] key makes it raise [RuntimeError]; in neither case
    does the call return data. *)
Theorem fetch_page_raises
    (url : string) (offset : Z) (extra : option (dict pvalue)) (lim : Z)
    (status : Z) (body : option (dict json))
    (rest : list reply) (s : list (string * dict pvalue)) (o : list event) :
  let run := fetch_page url offset extra lim
                        (Net (Response status body :: rest) s o) in
  (400 <= status < 600 -> fst run = Raise (HTTPError status))
  /\ (~ 400 <= status < 600 ->
      forall data, body = Some data -> contains data "error" = true ->
                   fst run = Raise RuntimeError)
  /\ (400 <= status < 600
      \/ (exists data, body = Some data /\ contains data "error" = true) ->
      forall data, fst run <> Ok data).
Proof.
  cbn zeta.
  assert (Hrun : fst (fetch_page url offset extra lim
                                 (Net (Response status body :: rest) s o))
                 = if (400 <=? status) && (status <? 600)
                   then Raise (HTTPError status)
                   else match body with
                        | None => Raise JSONDecodeError
                        | Some data => if contains data "error"
                                       then Raise RuntimeError else Ok data
                        end).
  { unfold fetch_page, bind, session_get, raise_for_status; cbn.
    destruct ((400 <=? status) && (status <? 600)); cbn; [reflexivity|].
    destruct body as [data|]; cbn; [|reflexivity].
    destruct (contains data "error"); reflexivity. }
  rewrite Hrun.
  destruct ((400 <=? status) && (status <? 600)) eqn:E.
  - apply andb_true_iff in E. destruct E as [E1 E2].
    apply Z.leb_le in E1. apply Z.ltb_lt in E2.
    repeat split; intros; try lia; try reflexivity; discriminate.
  - assert (Hn : ~ 400 <= status < 600).
    { intros [H1 H2]. apply Z.leb_le in H1. apply Z.ltb_lt in H2.
      rewrite H1, H2 in E. discriminate. }
    repeat split.
    + intros H; contradiction.
    + intros _ data -> ->. reflexivity.
    + intros [H|(data & -> & ->)] data'; [contradiction|discriminate].
Qed.

Lemma fetch_page_raises_witness :
  fst (fetch_page ARCGIS_URL 0 None limit (Net [Response 503 None] [] []))
  = Raise (HTTPError 503).
Proof.
  apply (proj1 (fetch_page_raises ARCGIS_URL 0 None limit 503 None [] [] [])).
  lia.
Defined.

(** * Theorems: frames, masks and the heap *)

Lemma labels_eqb_refl (l : list label) : labels_eqb l l = true.
Proof.
  induction l as [|x t IH]; cbn; [reflexivity|].
  rewrite Z.eqb_refl, IH. reflexivity.
Qed.

Lemma labels_eqb_eq (a : list label) :
  forall b, labels_eqb a b = true -> a = b.
Proof.
  induction a as [|x a IH]; intros [|y b] H; cbn in H;
    try discriminate; [reflexivity|].
  apply andb_true_iff in H. destruct H as [H1 H2].
  apply Z.eqb_eq in H1. subst y. f_equal. apply IH, H2.
Qed.

Lemma getitem_col_labels f col s :
  getitem_col f col = Some s -> labels (s_items s) = index f.
Proof.
  unfold getitem_col. destruct (position col (columns f)); [|discriminate].
  intros H; injection H as <-. cbn. unfold labels, index.
  rewrite map_map. reflexivity.
Qed.

Lemma getitem_col_length f col s :
  getitem_col f col = Some s -> length (s_items s) = df_len f.
Proof.
  intros H. apply getitem_col_labels in H.
  apply (f_equal (@length label)) in H.
  unfold labels, index in H. rewrite !length_map in H. exact H.
Qed.

Lemma series_map_labels p s : labels (series_map p s) = labels (s_items s).
Proof. unfold series_map, labels. rewrite map_map. reflexivity. Qed.

Lemma getitem_mask_same_index f m :
  labels m = index f -> getitem_mask f m = Ok (select f (map snd m)).
Proof.
  intros H. unfold getitem_mask. rewrite H, labels_eqb_refl. reflexivity.
Qed.

Lemma filter_combine_length {A} (bs : list bool) :
  forall l : list A,
    (length (filter fst (combine bs l)) <= length l)%nat.
Proof.
  induction bs as [|b bs IH]; intros [|x l]; cbn; try lia.
  specialize (IH l). destruct b; cbn; lia.
Qed.

Lemma select_len f bs : (df_len (select f bs) <= df_len f)%nat.
Proof.
  unfold df_len, select; cbn. rewrite length_map.
  apply filter_combine_length.
Qed.

Lemma reset_index_len f : df_len (reset_index f) = df_len f.
Proof.
  unfold df_len, reset_index; cbn.
  rewrite length_combine, !length_map, length_seq. unfold df_len. lia.
Qed.

Lemma getitem_mask_len f m t :
  getitem_mask f m = Ok t -> (df_len t <= df_len f)%nat.
Proof.
  unfold getitem_mask.
  destruct (labels_eqb (labels m) (index f)).
  - intros H; injection H as <-. apply select_len.
  - destruct (reindex m (index f)); [|discriminate].
    intros H; injection H as <-. apply select_len.
Qed.

(** ** The heap only grows under allocation *)

Lemma grows_refl w : grows w w.
Proof. exists []. rewrite app_nil_r. reflexivity. Qed.

Lemma grows_trans w1 w2 w3 : grows w1 w2 -> grows w2 w3 -> grows w1 w3.
Proof.
  intros [a Ha] [b Hb]. exists (a ++ b). rewrite Hb, Ha, app_assoc.
  reflexivity.
Qed.

Lemma grows_lookup w w' l f :
  grows w w' -> nth_error (heap w) l = Some f ->
  nth_error (heap w') l = Some f.
Proof.
  intros [extra ->] H. rewrite nth_error_app1; [exact H|].
  apply nth_error_Some. congruence.
Qed.

Lemma grows_length w w' : grows w w' -> (length (heap w) <= length (heap w'))%nat.
Proof. intros [extra ->]. rewrite length_app. lia. Qed.

Lemma nth_error_alloc {A} (h : list A) (x : A) :
  nth_error (h ++ [x]) (length h) = Some x.
Proof. rewrite nth_error_app2, Nat.sub_diag by lia. reflexivity. Qed.

(** ** [remove_outliers_iqr]: one iteration, and what every run keeps *)

(** One iteration of the column loop, run on a heap that holds the current
    frame. *)
Lemma iqr_loop_cons col rest k na l dc km w f :
  nth_error (heap w) l = Some f ->
  iqr_loop (col :: rest) k na l dc km w
  = match getitem_col f col with
    | None => (Raise (KeyError [col]), w)
    | Some s =>
        if negb (numeric_kind (s_dtype s)) then (Raise (TypeError col), w)
        else
          match mask_and km (column_mask s k na) with
          | Raise e => (Raise e, w)
          | Ok km' =>
              match getitem_mask f km' with
              | Raise e => (Raise e, w)
              | Ok kept =>
                  let t := reset_index kept in
                  let n := df_len t in
                  iqr_loop rest k na (length (heap w))
                    (if Nat.ltb n dc then n else dc) (BoolSeries km')
                    (World (heap w ++ [t])
                           (stdout w ++ if Nat.ltb n dc
                                        then [InfoOutliers (dc - n) col]
                                        else []))
              end
          end
    end.
Proof.
  intros Hf. cbn [iqr_loop]. unfold bind at 1. unfold load. rewrite Hf.
  unfold bind at 1.
  destruct (getitem_col f col) as [s|]; cbn [lift_option ret raise];
    [|reflexivity].
  destruct (negb (numeric_kind (s_dtype s))); [reflexivity|].
  unfold bind at 1. unfold lift at 1.
  destruct (mask_and km (column_mask s k na)) as [km'|e]; [|reflexivity].
  unfold bind at 1. unfold lift at 1.
  destruct (getitem_mask f km') as [kept|e]; [|reflexivity].
  unfold bind at 1. unfold alloc at 1. cbn [heap stdout].
  unfold bind at 1.
  destruct (Nat.ltb (df_len (reset_index kept)) dc);
    cbn [print ret heap stdout]; [reflexivity|].
  rewrite app_nil_r. destruct w; reflexivity.
Qed.

(** Whatever the loop does, it only allocates; and a frame it returns is
    the current one or a new one, with at most as many rows and the same
    columns. *)
Lemma iqr_loop_sound cols :
  forall k na l dc km w f,
    nth_error (heap w) l = Some f ->
    let run := iqr_loop cols k na l dc km w in
    grows w (snd run)
    /\ forall out,
        fst run = Ok out ->
        (out = l \/ (length (heap w) <= out)%nat)
        /\ exists f', nth_error (heap (snd run)) out = Some f'
                      /\ (df_len f' <= df_len f)%nat.
Proof.
  induction cols as [|col rest IH]; intros k na l dc km w f Hf.
  - cbn. split; [apply grows_refl|].
    intros out H; injection H as <-. split; [left; reflexivity|].
    exists f. split; [exact Hf|lia].
  - rewrite (iqr_loop_cons col rest k na l dc km w f Hf).
    destruct (getitem_col f col) as [s|];
      [|cbn; split; [apply grows_refl|discriminate]].
    destruct (negb (numeric_kind (s_dtype s)));
      [cbn; split; [apply grows_refl|discriminate]|].
    destruct (mask_and km (column_mask s k na)) as [km'|e];
      [|cbn; split; [apply grows_refl|discriminate]].
    destruct (getitem_mask f km') as [kept|e] eqn:Hkept;
      [|cbn; split; [apply grows_refl|discriminate]].
    cbn zeta.
    set (t := reset_index kept).
    set (w1 := World (heap w ++ [t]) _).
    assert (Ht : nth_error (heap w1) (length (heap w)) = Some t)
      by apply nth_error_alloc.
    destruct (IH k na (length (heap w))
                 (if Nat.ltb (df_len t) dc then df_len t else dc)
                 (BoolSeries km') w1 t Ht) as [Hg Hout].
    assert (Hw : grows w w1) by (exists [t]; reflexivity).
    split; [eapply grows_trans; eassumption|].
    intros out Hrun. destruct (Hout out Hrun) as [Hloc (f' & Hf' & Hlen)].
    split.
    + right. destruct Hloc as [->|Hloc]; [lia|].
      cbn [heap w1] in Hloc. rewrite length_app in Hloc. lia.
    + exists f'. split; [exact Hf'|].
      apply getitem_mask_len in Hkept.
      unfold t in Hlen. rewrite reset_index_len in Hlen. lia.
Qed.

(** The entry of [remove_outliers_iqr]: a copy is allocated and the loop
    starts on it. *)
Lemma remove_outliers_iqr_unfold gdf cols k na w f :
  nth_error (heap w) gdf = Some f ->
  remove_outliers_iqr gdf cols k na w
  = iqr_loop cols k na (length (heap w)) (df_len f)
             (NdArray (map (fun _ => true) (index f)))
             (World (heap w ++ [f]) (stdout w)).
Proof.
  intros Hf. unfold remove_outliers_iqr, bind, load, alloc. rewrite Hf.
  reflexivity.
Qed.

(** C9.  [remove_outliers_iqr] leaves its argument as it found it: for
    every heap, frame, column list, factor and null policy, and whether the
    call returns or raises, the input frame (and every other frame that
    existed before the call) is still the same afterwards, and a returned
    frame is a new object. *)
Theorem remove_outliers_iqr_preserves_input
    (w : world) (gdf : loc) (f : DataFrame) (cols : list string) (k : Q)
    (treat_na_as_outlier : bool) :
  nth_error (heap w) gdf = Some f ->
  let run := remove_outliers_iqr gdf cols k treat_na_as_outlier w in
  nth_error (heap (snd run)) gdf = Some f
  /\ (forall l g, nth_error (heap w) l = Some g ->
                  nth_error (heap (snd run)) l = Some g)
  /\ (forall out, fst run = Ok out ->
                  out <> gdf /\ nth_error (heap w) out = None).
Proof.
  intros Hf run. unfold run.
  rewrite (remove_outliers_iqr_unfold gdf cols k treat_na_as_outlier w f Hf).
  set (w1 := World (heap w ++ [f]) (stdout w)).
  assert (Hcopy : nth_error (heap w1) (length (heap w)) = Some f)
    by apply nth_error_alloc.
  destruct (iqr_loop_sound cols k treat_na_as_outlier (length (heap w))
              (df_len f) (NdArray (map (fun _ => true) (index f))) w1 f Hcopy)
    as [Hg Hout].
  assert (Hw : grows w w1) by (exists [f]; reflexivity).
  assert (Hgrow : grows w (snd (iqr_loop cols k treat_na_as_outlier
                                   (length (heap w)) (df_len f)
                                   (NdArray (map (fun _ => true) (index f)))
                                   w1)))
    by (eapply grows_trans; eassumption).
  split; [|split].
  - eapply grows_lookup; eassumption.
  - intros l g Hl. eapply grows_lookup; eassumption.
  - intros out Hrun. destruct (Hout out Hrun) as [Hloc _].
    assert (Hge : (length (heap w) <= out)%nat).
    { destruct Hloc as [->|Hloc]; [lia|].
      cbn [heap w1] in Hloc. rewrite length_app in Hloc. lia. }
    assert (Hlt : (gdf < length (heap w))%nat)
      by (apply nth_error_Some; congruence).
    split; [lia|]. apply nth_error_None. exact Hge.
Qed.

(** ** The outlier filter on one column *)

Lemma combine_map_same {A B C} (g : A -> B) (h : A -> C) (l : list A) :
  combine (map g l) (map h l) = map (fun x => (g x, h x)) l.
Proof. induction l as [|x t IH]; cbn; [reflexivity|]. rewrite IH. reflexivity. Qed.

(** The mask of a column, cell by cell. *)
Lemma column_mask_cells s k na :
  column_mask s k na
  = map (fun lv => (fst lv, inlier (iqr_bounds s k) (snd lv))) (s_items s).
Proof.
  unfold column_mask, fillna.
  assert (H : series_and (series_ge s (lower_limit (iqr_bounds s k)))
                         (series_le s (upper_limit (iqr_bounds s k)))
              = map (fun lv => (fst lv, inlier (iqr_bounds s k) (snd lv)))
                    (s_items s)).
  { unfold series_and, series_ge, series_le, labels.
    rewrite !map_map. cbn [fst]. rewrite labels_eqb_refl.
    rewrite combine_map_same, map_map. reflexivity. }
  destruct na; exact H.
Qed.

Lemma mask_and_all_true (idx : list label) :
  forall cm : list (label * bool),
    length idx = length cm ->
    mask_and (NdArray (map (fun _ => true) idx)) cm = Ok cm.
Proof.
  intros cm Hlen. unfold mask_and. rewrite length_map, Hlen, Nat.eqb_refl.
  f_equal. revert cm Hlen.
  induction idx as [|i idx IH]; intros [|[l b] cm] Hlen; cbn in *;
    try discriminate; [reflexivity|].
  rewrite IH by lia. reflexivity.
Qed.

Lemma filter_fst_combine_map {A} (p : A -> bool) (l : list A) :
  map snd (filter fst (combine (map p l) l)) = filter p l.
Proof.
  induction l as [|x t IH]; cbn; [reflexivity|].
  destruct (p x); cbn; rewrite IH; reflexivity.
Qed.

Lemma select_filter f (p : label * list value -> bool) :
  select f (map p (rows f)) = Frame (columns f) (filter p (rows f)).
Proof. unfold select. rewrite filter_fst_combine_map. reflexivity. Qed.

Lemma getitem_col_items f col s :
  getitem_col f col = Some s ->
  s_items s = map (fun lr => (fst lr, cell f col (snd lr))) (rows f).
Proof.
  unfold getitem_col, cell. destruct (position col (columns f));
    [|discriminate].
  intros H; injection H as <-. reflexivity.
Qed.

(** A call with a single column: the copy and one filtered, re-indexed
    frame are allocated; the rows kept are the inliers of that column. *)
Lemma remove_outliers_iqr_one w gdf f col s k na :
  nth_error (heap w) gdf = Some f ->
  getitem_col f col = Some s ->
  numeric_kind (s_dtype s) = true ->
  remove_outliers_iqr gdf [col] k na w
  = let t := reset_index
               (Frame (columns f)
                      (filter (fun lr => inlier (iqr_bounds s k)
                                                (cell f col (snd lr)))
                              (rows f))) in
    (Ok (S (length (heap w))),
     World (heap w ++ [f; t])
           (stdout w ++ if Nat.ltb (df_len t) (df_len f)
                        then [InfoOutliers (df_len f - df_len t) col]
                        else [])).
Proof.
  intros Hf Hs Hnum.
  rewrite (remove_outliers_iqr_unfold gdf [col] k na w f Hf).
  rewrite (iqr_loop_cons col [] k na (length (heap w)) (df_len f) _
             (World (heap w ++ [f]) (stdout w)) f (nth_error_alloc _ _)).
  rewrite Hs, Hnum. cbn [negb].
  rewrite mask_and_all_true
    by (rewrite column_mask_cells, length_map;
        unfold index; rewrite length_map;
        symmetry; apply (getitem_col_length f col s Hs)).
  rewrite getitem_mask_same_index
    by (rewrite column_mask_cells; unfold labels; rewrite map_map; cbn [fst];
        apply (getitem_col_labels f col s Hs)).
  rewrite column_mask_cells, map_map. cbn [snd].
  rewrite (getitem_col_items f col s Hs), map_map. cbn [snd fst].
  rewrite (select_filter f (fun lr => inlier (iqr_bounds s k)
                                             (cell f col (snd lr)))).
  cbn [iqr_loop heap stdout]. unfold ret.
  rewrite <- app_assoc, length_app, Nat.add_comm. reflexivity.
Qed.

(** On a single column the code does what the specification words say. *)
Lemma remove_outliers_iqr_one_spec w gdf f col s k na :
  nth_error (heap w) gdf = Some f ->
  getitem_col f col = Some s ->
  numeric_kind (s_dtype s) = true ->
  result_frame (remove_outliers_iqr gdf [col] k na w)
  = sequential_iqr_spec [col] k na f.
Proof.
  intros Hf Hs Hnum.
  rewrite (remove_outliers_iqr_one w gdf f col s k na Hf Hs Hnum).
  cbn [sequential_iqr_spec]. rewrite Hs.
  unfold result_frame. cbn [fst snd heap].
  rewrite nth_error_app2 by lia.
  replace (S (length (heap w)) - length (heap w))%nat with 1%nat by lia.
  reflexivity.
Qed.

Lemma remove_outliers_iqr_preserves_input_witness :
  nth_error
    (heap (snd (remove_outliers_iqr 0%nat ["pot_mw"] (3 # 2) true
                  (World [boundary_frame] [])))) 0
  = Some boundary_frame.
Proof.
  apply (proj1 (remove_outliers_iqr_preserves_input
                  (World [boundary_frame] []) 0%nat boundary_frame
                  ["pot_mw"] (3 # 2) true eq_refl)).
Defined.

(** ** The outlier filter on concrete columns *)

Lemma boundary_series_is_column :
  getitem_col boundary_frame "pot_mw" = Some boundary_series.
Proof. reflexivity. Qed.

(** C4, as stated, fails: on [1,2,3,4,5,100] with k = 1.5 the upper bound
    [Q3 + k*IQR] is 4.75 + 1.5 * 2.5 = 8.5, not 6.5. *)
Lemma iqr_boundary_upper_is_not_6_5 :
  getitem_col boundary_frame "pot_mw" = Some boundary_series
  /\ feq (upper_limit (iqr_bounds boundary_series (3 # 2))) (17 # 2)
  /\ ~ feq (upper_limit (iqr_bounds boundary_series (3 # 2))) (13 # 2).
Proof.
  split; [reflexivity|]. split; vm_compute; [reflexivity|discriminate].
Qed.

(** C4, amended.  On the column [1,2,3,4,5,100] with k = 1.5: Q1 = 2.25,
    Q3 = 4.75, IQR = 2.5, the bounds are -1.5 and 8.5, the value 100 is
    flagged and its row removed, and the rows of 1 to 5 are all kept, in
    order. *)
Theorem iqr_boundary_example :
  let b := iqr_bounds boundary_series (3 # 2) in
  getitem_col boundary_frame "pot_mw" = Some boundary_series
  /\ feq (q1 b) (9 # 4) /\ feq (q3 b) (19 # 4) /\ feq (iqr b) (5 # 2)
  /\ feq (lower_limit b) (- 3 # 2) /\ feq (upper_limit b) (17 # 2)
  /\ inlier b (num 100) = false
  /\ forallb (inlier b) (map num [1; 2; 3; 4; 5]) = true
  /\ result_frame (remove_outliers_iqr 0%nat ["pot_mw"] (3 # 2) true
                     (World [boundary_frame] []))
     = Some (one_column "pot_mw" [1; 2; 3; 4; 5]).
Proof. cbn zeta. repeat split; vm_compute; reflexivity. Qed.

Lemma zero_iqr_series_is_column :
  getitem_col zero_iqr_frame "pot_mw" = Some zero_iqr_series.
Proof. reflexivity. Qed.

Lemma zero_iqr_quartiles :
  exists a b,
    quantile zero_iqr_series (1 # 4) = Some a
    /\ quantile zero_iqr_series (3 # 4) = Some b
    /\ (a == 7)%Q /\ (b == 7)%Q.
Proof. vm_compute. do 2 eexists. repeat split; reflexivity. Qed.

Lemma zero_iqr_inliers (k : Q) :
  inlier (iqr_bounds zero_iqr_series k) (num 7) = true
  /\ inlier (iqr_bounds zero_iqr_series k) (num 100) = false.
Proof.
  destruct zero_iqr_quartiles as (a & b & Ha & Hb & Ea & Eb).
  unfold inlier, iqr_bounds. cbn [lower_limit upper_limit].
  rewrite Ha, Hb. cbn [fsub fmul fadd fle to_float num].
  assert (Hlo : (a - k * (b - a) == 7)%Q) by (rewrite Ea, Eb; ring).
  assert (Hhi : (b + k * (b - a) == 7)%Q) by (rewrite Ea, Eb; ring).
  split.
  - apply andb_true_iff. split; apply Qle_bool_iff.
    + rewrite Hlo. apply Qle_refl.
    + rewrite Hhi. apply Qle_refl.
  - apply andb_false_iff. right.
    destruct (Qle_bool (inject_Z 100) (b + k * (b - a))) eqn:E;
      [|reflexivity].
    apply Qle_bool_iff in E. rewrite Hhi in E.
    unfold Qle in E. cbn in E. lia.
Qed.

(** C5 fails on the code: the column [7,7,7,7,100] has Q1 = Q3 = 7, so its
    IQR is zero, and for every factor [k] and either null policy the row
    of 100 is removed. *)
Theorem zero_iqr_column_loses_a_row (k : Q) (treat_na_as_outlier : bool) :
  getitem_col zero_iqr_frame "pot_mw" = Some zero_iqr_series
  /\ feq (iqr (iqr_bounds zero_iqr_series k)) 0
  /\ result_frame (remove_outliers_iqr 0%nat ["pot_mw"] k treat_na_as_outlier
                     (World [zero_iqr_frame] []))
     = Some (one_column "pot_mw" [7; 7; 7; 7]).
Proof.
  split; [reflexivity|]. split.
  - destruct zero_iqr_quartiles as (a & b & Ha & Hb & Ea & Eb).
    unfold iqr_bounds. cbn [iqr]. rewrite Ha, Hb. cbn [fsub feq].
    rewrite Ea, Eb. ring.
  - rewrite (remove_outliers_iqr_one_spec (World [zero_iqr_frame] []) 0%nat
               zero_iqr_frame "pot_mw" zero_iqr_series k treat_na_as_outlier
               eq_refl eq_refl eq_refl).
    cbn [sequential_iqr_spec].
    rewrite zero_iqr_series_is_column.
    destruct (zero_iqr_inliers k) as [H7 H100].
    f_equal. unfold reset_index, df_len.
    change (rows zero_iqr_frame)
      with [(0, [num 7]); (1, [num 7]); (2, [num 7]); (3, [num 7]);
            (4, [num 100])].
    cbn [filter snd].
    change (cell zero_iqr_frame "pot_mw" [num 7]) with (num 7).
    change (cell zero_iqr_frame "pot_mw" [num 100]) with (num 100).
    rewrite H7, H100. reflexivity.
Qed.

(** C1 fails on the code.  On [two_columns] with the columns [a] then [b]
    and k = 1.5, column [a] flags the first row only and column [b] flags
    no row of the reduced table, so five rows should remain; the code
    returns four, having also removed the row (1, 2), which no column
    flags. *)
Theorem two_columns_lose_an_unflagged_row :
  sequential_iqr_spec ["a"; "b"] (3 # 2) true two_columns
  = Some (Frame [("a", Dint); ("b", Dint)]
                [(0, [num 1; num 2]); (1, [num 2; num 3]);
                 (2, [num 3; num 4]); (3, [num 4; num 5]);
                 (4, [num 5; num 6])])
  /\ result_frame (remove_outliers_iqr 0%nat ["a"; "b"] (3 # 2) true
                     (World [two_columns] []))
     = Some (Frame [("a", Dint); ("b", Dint)]
                   [(0, [num 2; num 3]); (1, [num 3; num 4]);
                    (2, [num 4; num 5]); (3, [num 5; num 6])]).
Proof. split; vm_compute; reflexivity. Qed.

(** ** A constant column flags nothing *)

Lemma insert_Forall (P : Q -> Prop) x l :
  P x -> Forall P l -> Forall P (insert x l).
Proof.
  intros Hx Hl. induction Hl as [|y t Hy Ht IH]; cbn.
  - constructor; [exact Hx|constructor].
  - destruct (Qle_bool x y).
    + constructor; [exact Hx|constructor; assumption].
    + constructor; assumption.
Qed.

Lemma sort_Forall (P : Q -> Prop) l : Forall P l -> Forall P (sort l).
Proof.
  intros H. induction H as [|x t Hx Ht IH]; cbn; [constructor|].
  apply insert_Forall; assumption.
Qed.

Lemma insert_length x l : length (insert x l) = S (length l).
Proof.
  induction l as [|y t IH]; cbn; [reflexivity|].
  destruct (Qle_bool x y); cbn; [reflexivity|]. rewrite IH. reflexivity.
Qed.

Lemma sort_length l : length (sort l) = length l.
Proof.
  induction l as [|x t IH]; [reflexivity|].
  change (sort (x :: t)) with (insert x (sort t)).
  rewrite insert_length, IH. reflexivity.
Qed.

Lemma nth_Forall (P : Q -> Prop) (l : list Q) (d : Q) n :
  P d -> Forall P l -> P (nth n l d).
Proof.
  intros Hd Hl. revert n. induction Hl as [|x t Hx Ht IH]; intros [|n]; cbn;
    try assumption. apply IH.
Qed.

Lemma interpolate_constant (a : list Q) (q c x : Q) :
  Forall (fun y => (y == c)%Q) a -> interpolate a q = Some x -> (x == c)%Q.
Proof.
  intros Ha. unfold interpolate. destruct a as [|x0 a']; [discriminate|].
  intros H; injection H as <-.
  assert (H0 : (x0 == c)%Q) by (inversion Ha; assumption).
  set (lo := Z.to_nat _). set (hi := Z.to_nat _).
  pose proof (nth_Forall (fun y => (y == c)%Q) (x0 :: a') x0 lo H0 Ha) as Hlo.
  pose proof (nth_Forall (fun y => (y == c)%Q) (x0 :: a') x0 hi H0 Ha) as Hhi.
  cbv beta in Hlo, Hhi. rewrite Hlo, Hhi. ring.
Qed.

Lemma dropna_values_constant s c :
  Forall (fun lv => exists q, snd lv = VNum q /\ (q == c)%Q) (s_items s) ->
  Forall (fun y => (y == c)%Q) (dropna_values s).
Proof.
  unfold dropna_values. intros H.
  induction H as [|lv t (q & Hq & Hc) Ht IH]; cbn; [constructor|].
  rewrite Hq. cbn. constructor; assumption.
Qed.

(** Every cell of a constant column is an inlier, whatever the factor. *)
Lemma constant_column_inliers s k c :
  Forall (fun lv => exists q, snd lv = VNum q /\ (q == c)%Q) (s_items s) ->
  Forall (fun lv => inlier (iqr_bounds s k) (snd lv) = true) (s_items s).
Proof.
  intros Hall.
  pose proof (sort_Forall _ _ (dropna_values_constant s c Hall)) as Hsorted.
  apply Forall_forall. intros lv Hin.
  destruct (proj1 (Forall_forall _ _) Hall lv Hin) as (q & Hq & Hc).
  rewrite Hq. unfold inlier, iqr_bounds, quantile.
  cbn [lower_limit upper_limit to_float].
  destruct (interpolate (sort (dropna_values s)) (1 # 4)) as [a|] eqn:Ea.
  - destruct (interpolate (sort (dropna_values s)) (3 # 4)) as [b|] eqn:Eb.
    + apply (interpolate_constant _ _ c a Hsorted) in Ea.
      apply (interpolate_constant _ _ c b Hsorted) in Eb.
      cbn [fsub fmul fadd fle].
      apply andb_true_iff. split; apply Qle_bool_iff.
      * rewrite Ea, Eb, Hc.
        setoid_replace (c - k * (c - c))%Q with c by ring. apply Qle_refl.
      * rewrite Ea, Eb, Hc.
        setoid_replace (c + k * (c - c))%Q with c by ring. apply Qle_refl.
    + unfold interpolate in Ea, Eb.
      destruct (sort (dropna_values s)); discriminate.
  - exfalso. unfold interpolate in Ea.
    destruct (sort (dropna_values s)) as [|x0 a'] eqn:Es; [|discriminate].
    pose proof (sort_length (dropna_values s)) as Hl. rewrite Es in Hl.
    unfold dropna_values in Hl.
    destruct (s_items s) as [|lv0 t]; [destruct Hin|].
    inversion Hall as [|? ? (q0 & Hq0 & _) _]; subst.
    cbn in Hl. rewrite Hq0 in Hl. cbn in Hl. discriminate.
Qed.

Lemma filter_all {A} (p : A -> bool) (l : list A) :
  Forall (fun x => p x = true) l -> filter p l = l.
Proof.
  intros H. induction H as [|x t Hx Ht IH]; cbn; [reflexivity|].
  rewrite Hx, IH. reflexivity.
Qed.

(** On a constant column the filter keeps every row, for every factor and
    either null policy. *)
Lemma constant_column_keeps_all w gdf f col s k na c :
  nth_error (heap w) gdf = Some f ->
  getitem_col f col = Some s ->
  numeric_kind (s_dtype s) = true ->
  Forall (fun lv => exists q, snd lv = VNum q /\ (q == c)%Q) (s_items s) ->
  result_frame (remove_outliers_iqr gdf [col] k na w) = Some (reset_index f).
Proof.
  intros Hf Hs Hnum Hall.
  rewrite (remove_outliers_iqr_one_spec w gdf f col s k na Hf Hs Hnum).
  cbn [sequential_iqr_spec]. rewrite Hs.
  pose proof (constant_column_inliers s k c Hall) as Hin.
  rewrite (getitem_col_items f col s Hs) in Hin.
  rewrite Forall_map in Hin. cbn [snd] in Hin.
  rewrite (filter_all _ _ Hin). destruct f; reflexivity.
Qed.

(** ** The steps of [validate_gdf], one run each *)

Lemma getitem_mask_column f col s (p : value -> bool) :
  getitem_col f col = Some s ->
  getitem_mask f (series_map p s)
  = Ok (Frame (columns f)
              (filter (fun lr => p (cell f col (snd lr))) (rows f))).
Proof.
  intros Hs.
  rewrite getitem_mask_same_index
    by (rewrite series_map_labels; apply (getitem_col_labels f col s Hs)).
  unfold series_map. rewrite map_map. cbn [snd].
  rewrite (getitem_col_items f col s Hs), map_map. cbn [snd].
  rewrite (select_filter f (fun lr => p (cell f col (snd lr)))).
  reflexivity.
Qed.

Lemma getitem_col_has f col :
  has_column f col = true -> exists s, getitem_col f col = Some s.
Proof.
  unfold has_column, getitem_col.
  destruct (position col (columns f)); [eexists; reflexivity|discriminate].
Qed.

Lemma getitem_col_none f col :
  getitem_col f col = None <-> has_column f col = false.
Proof.
  unfold has_column, getitem_col.
  destruct (position col (columns f)); split; congruence.
Qed.

Lemma filter_length_le {A} (p : A -> bool) (l : list A) :
  (length (filter p l) <= length l)%nat.
Proof. induction l as [|x t IH]; cbn; [lia|]. destruct (p x); cbn; lia. Qed.

Lemma step_geometry_run w gdf f :
  nth_error (heap w) gdf = Some f ->
  step_geometry gdf w
  = match getitem_col f "geometry" with
    | None => (Raise AttributeError, w)
    | Some _ =>
        let t1 := Frame (columns f)
                        (filter (fun lr => notna (cell f "geometry" (snd lr)))
                                (rows f)) in
        let t2 := Frame (columns f)
                        (filter (fun lr => is_valid (cell f "geometry" (snd lr)))
                                (rows t1)) in
        (Ok (S (length (heap w))),
         World (heap w ++ [t1; t2])
               (stdout w ++ [InfoValidGeometry (df_len t2)]))
    end.
Proof.
  intros Hf. unfold step_geometry. unfold bind at 1. unfold load at 1.
  rewrite Hf. unfold bind at 1. unfold geometry_of at 1.
  destruct (getitem_col f "geometry") as [g|] eqn:Hg;
    cbn [lift_option ret raise]; [|reflexivity].
  unfold bind at 1. unfold lift at 1.
  rewrite (getitem_mask_column f "geometry" g notna Hg).
  unfold bind at 1. unfold alloc at 1. cbn [heap stdout].
  set (t1 := Frame (columns f) _).
  unfold bind at 1. unfold load at 1. cbn [heap].
  rewrite nth_error_alloc.
  assert (Hg1 : exists g1, getitem_col t1 "geometry" = Some g1).
  { apply getitem_col_has. unfold has_column. cbn [columns t1].
    unfold getitem_col in Hg.
    destruct (position "geometry" (columns f)); [reflexivity|discriminate]. }
  destruct Hg1 as [g1 Hg1].
  unfold bind at 1. unfold geometry_of at 1. rewrite Hg1.
  cbn [lift_option ret].
  unfold bind at 1. unfold lift at 1.
  rewrite (getitem_mask_column t1 "geometry" g1 is_valid Hg1).
  unfold bind, alloc, print, ret. cbn [heap stdout columns t1].
  rewrite <- app_assoc, length_app, Nat.add_comm. reflexivity.
Qed.

Lemma step_version_run w gdf f :
  nth_error (heap w) gdf = Some f ->
  step_version gdf w
  = match getitem_col f "versao" with
    | None => (Raise (KeyError ["versao"]), w)
    | Some _ =>
        let t := Frame (columns f)
                       (filter (fun lr => eq_str valid_version
                                                 (cell f "versao" (snd lr)))
                               (rows f)) in
        (Ok (length (heap w)),
         World (heap w ++ [t]) (stdout w ++ [InfoValidVersion (df_len t)]))
    end.
Proof.
  intros Hf. unfold step_version. unfold bind at 1. unfold load at 1.
  rewrite Hf. unfold bind at 1. unfold column_of at 1.
  destruct (getitem_col f "versao") as [s|] eqn:Hs;
    cbn [lift_option ret raise]; [|reflexivity].
  unfold bind at 1. unfold lift at 1.
  rewrite (getitem_mask_column f "versao" s (eq_str valid_version) Hs).
  reflexivity.
Qed.

Lemma missing_columns_nil f subset :
  missing_columns f subset = []
  <-> forall c, In c subset -> has_column f c = true.
Proof.
  unfold missing_columns. induction subset as [|c t IH]; cbn.
  - split; [intros _ c []|reflexivity].
  - destruct (has_column f c) eqn:E; cbn.
    + rewrite IH. split.
      * intros H c' [<-|Hin]; [exact E|apply H, Hin].
      * intros H c' Hin. apply H. right. exact Hin.
    + split; [discriminate|]. intros H.
      specialize (H c (or_introl eq_refl)). congruence.
Qed.

Lemma dropna_len f subset t :
  dropna f subset = Ok t -> (df_len t <= df_len f)%nat.
Proof.
  unfold dropna. destruct (missing_columns f subset); [|discriminate].
  intros H; injection H as <-. apply filter_length_le.
Qed.

Lemma step_nulls_run w gdf f :
  nth_error (heap w) gdf = Some f ->
  step_nulls gdf w
  = match dropna f drop_na_columns with
    | Raise e => (Raise e, w)
    | Ok t => (Ok (length (heap w)),
               World (heap w ++ [t]) (stdout w ++ [InfoAfterNulls (df_len t)]))
    end.
Proof.
  intros Hf. unfold step_nulls. unfold bind at 1. unfold load at 1.
  rewrite Hf. unfold bind at 1. unfold lift at 1.
  destruct (dropna f drop_na_columns); reflexivity.
Qed.

Lemma step_duplicates_run w gdf f :
  nth_error (heap w) gdf = Some f ->
  step_duplicates gdf w
  = match drop_duplicates f ["latitude"; "longitude"] with
    | Raise e => (Raise e, w)
    | Ok t => (Ok (length (heap w)),
               World (heap w ++ [reset_index t])
                     (stdout w ++ [InfoAfterDuplicates
                                     (df_len (reset_index t))]))
    end.
Proof.
  intros Hf. unfold step_duplicates. unfold bind at 1. unfold load at 1.
  rewrite Hf. unfold bind at 1. unfold lift at 1.
  destruct (drop_duplicates f ["latitude"; "longitude"]); reflexivity.
Qed.

Lemma step_prune_run w gdf f :
  nth_error (heap w) gdf = Some f ->
  step_prune gdf w
  = match drop f drop_columns with
    | Raise e => (Raise e, w)
    | Ok f' => (Ok gdf, World (update (heap w) gdf f') (stdout w))
    end.
Proof.
  intros Hf. unfold step_prune. unfold bind at 1. unfold load at 1.
  rewrite Hf. unfold bind at 1. unfold lift at 1.
  destruct (drop f drop_columns); [|reflexivity].
  unfold bind, store, ret. rewrite Hf. reflexivity.
Qed.

Lemma update_length {A} (l : list A) :
  forall i x, length (update l i x) = length l.
Proof.
  induction l as [|h t IH]; intros [|i] x; cbn; try reflexivity.
  rewrite IH. reflexivity.
Qed.

Lemma nth_error_update_same {A} (l : list A) :
  forall i x, (i < length l)%nat -> nth_error (update l i x) i = Some x.
Proof.
  induction l as [|h t IH]; intros [|i] x Hi; cbn in *; try lia.
  - reflexivity.
  - apply IH. lia.
Qed.

Lemma nth_error_update_other {A} (l : list A) :
  forall i j x, i <> j -> nth_error (update l i x) j = nth_error l j.
Proof.
  induction l as [|h t IH]; intros [|i] [|j] x Hij; cbn; try reflexivity.
  - contradiction.
  - apply IH. congruence.
Qed.

Lemma nth_update_same (l : list value) :
  forall i v, nth i l VNull = VNull -> v = VNull \/ (i < length l)%nat ->
              nth i (update l i v) VNull = v.
Proof.
  induction l as [|h t IH]; intros [|i] v Hn Hv; cbn in *.
  - destruct Hv as [->|Hv]; [reflexivity|lia].
  - destruct Hv as [->|Hv]; [reflexivity|lia].
  - reflexivity.
  - apply IH; [exact Hn|]. destruct Hv; [left; assumption|right; lia].
Qed.

Lemma nth_update (l : list value) :
  forall i v, (i < length l)%nat -> nth i (update l i v) VNull = v.
Proof.
  induction l as [|h t IH]; intros [|i] v Hi; cbn in *; try lia.
  - reflexivity.
  - apply IH. lia.
Qed.

Lemma update_nth (l : list value) :
  forall i, update l i (nth i l VNull) = l.
Proof.
  induction l as [|h t IH]; intros [|i]; cbn; try reflexivity.
  rewrite IH. reflexivity.
Qed.

Lemma nth_overflow_null (l : list value) i :
  (length l <= i)%nat -> nth i l VNull = VNull.
Proof. apply nth_overflow. Qed.

Lemma position_update_name cs :
  forall i c d0 d col,
    nth_error cs i = Some (c, d0) ->
    position col (update cs i (c, d)) = position col cs.
Proof.
  induction cs as [|[c' d'] cs IH]; intros [|i] c d0 d col H; cbn in *;
    try discriminate.
  - injection H as -> ->. reflexivity.
  - rewrite (IH i c d0 d col H). reflexivity.
Qed.

Lemma position_set_dtype cs i d col :
  position col (set_dtype i d cs) = position col cs.
Proof.
  unfold set_dtype. destruct (nth_error cs i) as [[c d0]|] eqn:E;
    [|reflexivity].
  apply (position_update_name cs i c d0 d col E).
Qed.

Lemma combine_map_right {A B} (h : A -> B) (l : list A) :
  combine l (map h l) = map (fun x => (x, h x)) l.
Proof. induction l as [|x t IH]; cbn; [reflexivity|]. rewrite IH. reflexivity. Qed.

Lemma filter_map_length {A B} (g : A -> B) (p : B -> bool) (l : list A) :
  length (filter p (map g l)) = length (filter (fun x => p (g x)) l).
Proof.
  induction l as [|x t IH]; cbn; [reflexivity|].
  destruct (p (g x)); cbn; rewrite IH; reflexivity.
Qed.

(** The cell of the status column after the replacement. *)
Lemma replaced_cell i (r : list value) :
  nth i (update r i (replace_one (nth i r VNull))) VNull
  = replace_one (nth i r VNull).
Proof.
  destruct (Nat.lt_ge_cases i (length r)) as [Hlt|Hge].
  - apply nth_update. exact Hlt.
  - rewrite (nth_overflow_null r i Hge).
    assert (Hu : forall (l : list value) j v,
               (length l <= j)%nat -> update l j v = l).
    { induction l as [|h t IH]; intros [|j] v Hj; cbn in *;
        try reflexivity; try lia.
      rewrite IH by lia. reflexivity. }
    rewrite Hu by exact Hge. rewrite (nth_overflow_null r i Hge).
    reflexivity.
Qed.

Lemma step_operation_run w gdf f i s :
  nth_error (heap w) gdf = Some f ->
  position "operacao" (columns f) = Some i ->
  getitem_col f "operacao" = Some s ->
  step_operation gdf w
  = let f1 := Frame (set_dtype i (s_dtype (replace s)) (columns f))
                    (map (fun lr =>
                            (fst lr,
                             update (snd lr) i
                                    (replace_one (nth i (snd lr) VNull))))
                         (rows f)) in
    let missing :=
      length (filter (fun lr => isnull (nth i (snd lr) VNull)) (rows f1)) in
    let t := Frame (columns f1)
                   (filter (fun lr => notna (nth i (snd lr) VNull))
                           (rows f1)) in
    (Ok (length (heap w)),
     World (update (heap w) gdf f1 ++ [t])
           (stdout w
            ++ (if Nat.ltb 0 missing then [WarnNullOperation missing] else [])
            ++ [InfoAfterOperation (df_len t)])).
Proof.
  intros Hf Hi Hs. cbn zeta.
  set (f1 := Frame (set_dtype i (s_dtype (replace s)) (columns f))
                   (map (fun lr =>
                           (fst lr,
                            update (snd lr) i
                                   (replace_one (nth i (snd lr) VNull))))
                        (rows f))).
  assert (Hset : setitem_col f "operacao" (replace s) = Some f1).
  { unfold setitem_col. rewrite Hi. unfold f1. do 2 f_equal.
    unfold set_cells.
    assert (Hitems : s_items (replace s)
                     = map (fun lr => (fst lr,
                                       replace_one (nth i (snd lr) VNull)))
                           (rows f)).
    { cbn [replace s_items].
      rewrite (getitem_col_items f "operacao" s Hs), map_map. cbn [fst snd].
      unfold cell. rewrite Hi. reflexivity. }
    rewrite Hitems. unfold labels. rewrite map_map. cbn [fst].
    fold (index f). rewrite labels_eqb_refl.
    rewrite combine_map_right, map_map. reflexivity. }
  assert (Hi1 : position "operacao" (columns f1) = Some i)
    by (cbn [columns f1]; rewrite position_set_dtype; exact Hi).
  assert (Hlt : (gdf < length (heap w))%nat)
    by (apply nth_error_Some; congruence).
  unfold step_operation. unfold bind at 1. unfold load at 1. rewrite Hf.
  unfold bind at 1. unfold column_of at 1. rewrite Hs.
  cbn [lift_option ret].
  unfold bind at 1. rewrite Hset. cbn [lift_option ret].
  unfold bind at 1. unfold store at 1. rewrite Hf.
  unfold bind at 1. unfold load at 1. cbn [heap].
  rewrite (nth_error_update_same (heap w) gdf f1 Hlt).
  unfold bind at 1. unfold column_of at 1. unfold getitem_col at 1.
  rewrite Hi1. cbn [lift_option ret].
  unfold count_null. cbn [s_items].
  rewrite (filter_map_length
             (fun lr : label * list value => (fst lr, nth i (snd lr) VNull))
             (fun lv => isnull (snd lv))).
  cbn [snd].
  assert (Hdrop : dropna f1 ["operacao"]
                  = Ok (Frame (columns f1)
                              (filter (fun lr => notna (nth i (snd lr) VNull))
                                      (rows f1)))).
  { unfold dropna.
    assert (Hm : missing_columns f1 ["operacao"] = []).
    { apply missing_columns_nil. intros c [<-|[]].
      unfold has_column. rewrite Hi1. reflexivity. }
    rewrite Hm. do 2 f_equal. apply filter_ext. intros lr.
    cbn [forallb]. unfold cell. rewrite Hi1, andb_true_r. reflexivity. }
  set (missing := length (filter _ (rows f1))).
  destruct (Nat.ltb 0 missing).
  - unfold bind at 1. unfold print at 1. cbn [heap stdout].
    unfold bind at 1. unfold lift at 1. rewrite Hdrop.
    unfold bind, alloc, print, ret. cbn [heap stdout].
    rewrite update_length, <- !app_assoc. reflexivity.
  - unfold bind at 1. unfold ret at 1.
    unfold bind at 1. unfold lift at 1. rewrite Hdrop.
    unfold bind, alloc, print, ret. cbn [heap stdout app].
    rewrite update_length. reflexivity.
Qed.

(** ** Step 2.2: the operational status *)

Lemma isnull_replace_one v : isnull (replace_one v) = isnull v.
Proof.
  unfold replace_one. destruct (is_one v) eqn:E; [|reflexivity].
  destruct v; cbn in *; try discriminate; reflexivity.
Qed.

Lemma filter_map_commute {A B} (g : A -> B) (p : B -> bool) (l : list A) :
  filter p (map g l) = map g (filter (fun x => p (g x)) l).
Proof.
  induction l as [|x t IH]; cbn; [reflexivity|].
  destruct (p (g x)); cbn; rewrite IH; reflexivity.
Qed.

(** C6.  On a frame that has the status column (at position [i]), step 2.2
    returns, and: the frame it was given now holds, row for row, "Sim" in
    every status cell that was the number one or the text "1", every other
    cell as it was; the frame it returns holds exactly the rows of that
    normalised frame whose status is not null, in order (so a status of
    one survives as "Sim" and is never filtered as a null); the null rows
    are counted in a warning when there are any, and the run goes on. *)
Theorem step_operation_normalises
    (w : world) (gdf : loc) (f : DataFrame) (i : nat) :
  nth_error (heap w) gdf = Some f ->
  position "operacao" (columns f) = Some i ->
  exists f1 t w',
    step_operation gdf w = (Ok (length (heap w)), w')
    /\ nth_error (heap w') gdf = Some f1
    /\ nth_error (heap w') (length (heap w)) = Some t
    /\ rows f1 = map (normalise_row i) (rows f)
    /\ rows t = map (normalise_row i)
                    (filter (fun lr => notna (cell f "operacao" (snd lr)))
                            (rows f))
    /\ (forall q, (q == 1)%Q -> replace_one (VNum q) = VStr "Sim")
    /\ replace_one (VStr "1") = VStr "Sim"
    /\ (forall v, is_one v = false -> replace_one v = v)
    /\ (forall lr, In lr (rows t) ->
                   cell t "operacao" (snd lr) <> VNull
                   /\ is_one (cell t "operacao" (snd lr)) = false)
    /\ let nulls :=
         length (filter (fun lr => isnull (cell f "operacao" (snd lr)))
                        (rows f)) in
       stdout w' = stdout w
                   ++ (if Nat.ltb 0 nulls then [WarnNullOperation nulls]
                       else [])
                   ++ [InfoAfterOperation (df_len t)].
Proof.
  intros Hf Hi.
  assert (Hs : exists s, getitem_col f "operacao" = Some s)
    by (apply getitem_col_has; unfold has_column; rewrite Hi; reflexivity).
  destruct Hs as [s Hs].
  pose proof (step_operation_run w gdf f i s Hf Hi Hs) as Hrun.
  cbn zeta in Hrun.
  set (f1 := Frame (set_dtype i (s_dtype (replace s)) (columns f))
                   (map (fun lr =>
                           (fst lr,
                            update (snd lr) i
                                   (replace_one (nth i (snd lr) VNull))))
                        (rows f))) in *.
  set (t := Frame (columns f1)
                  (filter (fun lr => notna (nth i (snd lr) VNull))
                          (rows f1))) in *.
  assert (Hlt : (gdf < length (heap w))%nat)
    by (apply nth_error_Some; congruence).
  assert (Hcell : forall r, cell f "operacao" r = nth i r VNull)
    by (intros r; unfold cell; rewrite Hi; reflexivity).
  assert (Hcellt : forall r, cell t "operacao" r = nth i r VNull).
  { intros r. unfold cell. cbn [columns t f1].
    rewrite position_set_dtype, Hi. reflexivity. }
  assert (Hrows_t : rows t
                    = map (normalise_row i)
                          (filter (fun lr => notna (cell f "operacao" (snd lr)))
                                  (rows f))).
  { cbn [rows t f1].
    rewrite (filter_map_commute
               (fun lr : label * list value =>
                  (fst lr, update (snd lr) i
                                  (replace_one (nth i (snd lr) VNull))))).
    cbn [snd]. f_equal. apply filter_ext. intros lr.
    rewrite replaced_cell, Hcell. unfold notna.
    rewrite isnull_replace_one. reflexivity. }
  exists f1, t. eexists. split; [exact Hrun|]. cbn [heap stdout].
  split; [|split; [|split; [|split; [|split; [|split; [|split; [|split]]]]]]].
  - rewrite nth_error_app1 by (rewrite update_length; exact Hlt).
    apply nth_error_update_same. exact Hlt.
  - rewrite <- (update_length (heap w) gdf f1). apply nth_error_alloc.
  - reflexivity.
  - exact Hrows_t.
  - intros q Hq. unfold replace_one. cbn [is_one].
    apply Qeq_bool_iff in Hq. rewrite Hq. reflexivity.
  - reflexivity.
  - intros v Hv. unfold replace_one. rewrite Hv. reflexivity.
  - intros lr Hin. rewrite Hcellt. rewrite Hrows_t in Hin.
    apply in_map_iff in Hin. destruct Hin as (lr0 & <- & Hin0).
    apply filter_In in Hin0. destruct Hin0 as [_ Hnn].
    unfold normalise_row. cbn [snd]. rewrite replaced_cell.
    rewrite Hcell in Hnn. unfold notna in Hnn.
    split.
    + intros Hnull. rewrite <- isnull_replace_one in Hnn.
      rewrite Hnull in Hnn. discriminate.
    + unfold replace_one. destruct (is_one (nth i (snd lr0) VNull)) eqn:E;
        [reflexivity|exact E].
  - cbn zeta. do 2 f_equal.
    assert (Hn : length (filter (fun lr => isnull (nth i (snd lr) VNull))
                                (rows f1))
                 = length (filter (fun lr => isnull (cell f "operacao" (snd lr)))
                                  (rows f))).
    { cbn [rows f1].
      rewrite (filter_map_length
                 (fun lr : label * list value =>
                    (fst lr, update (snd lr) i
                                    (replace_one (nth i (snd lr) VNull))))
                 (fun lr => isnull (nth i (snd lr) VNull))).
      cbn [snd]. f_equal. apply filter_ext. intros lr.
      rewrite replaced_cell, isnull_replace_one, Hcell. reflexivity. }
    rewrite Hn. reflexivity.
Qed.

Lemma step_operation_normalises_witness :
  exists f1 t w',
    step_operation 0%nat (World [status_frame] []) = (Ok 1%nat, w')
    /\ nth_error (heap w') 0 = Some f1
    /\ nth_error (heap w') 1 = Some t
    /\ rows f1 = map (normalise_row 0) (rows status_frame)
    /\ rows t = map (normalise_row 0)
                    (filter (fun lr => notna (cell status_frame "operacao"
                                                   (snd lr)))
                            (rows status_frame)).
Proof.
  destruct (step_operation_normalises (World [status_frame] []) 0%nat
              status_frame 0%nat eq_refl eq_refl)
    as (f1 & t & w' & H1 & H2 & H3 & H4 & H5 & _).
  exists f1, t, w'. repeat split; assumption.
Defined.

(** ** Step 4: duplicate coordinates *)

(** The verdict on the key at position [j]: it equals one seen before. *)
Lemma duplicated_nth keys :
  forall seen j k,
    nth_error keys j = Some k ->
    nth_error (duplicated seen keys) j
    = Some (existsb (key_eqb k) (rev (firstn j keys) ++ seen)).
Proof.
  induction keys as [|k0 rest IH]; intros seen [|j] k H; cbn in H;
    try discriminate.
  - injection H as ->. reflexivity.
  - cbn [duplicated nth_error firstn rev].
    rewrite (IH (k0 :: seen) j k H), <- app_assoc. reflexivity.
Qed.

Lemma duplicated_length keys :
  forall seen, length (duplicated seen keys) = length keys.
Proof.
  induction keys as [|k rest IH]; intros seen; cbn; [reflexivity|].
  rewrite IH. reflexivity.
Qed.

Lemma in_firstn_nth {A} (l : list A) :
  forall j x, In x (firstn j l)
              <-> exists j', (j' < j)%nat /\ nth_error l j' = Some x.
Proof.
  induction l as [|y t IH]; intros j x.
  - rewrite firstn_nil. split; [intros []|].
    intros (j' & _ & H). destruct j'; discriminate.
  - destruct j as [|j]; cbn [firstn].
    + split; [intros []|]. intros (j' & H & _). lia.
    + cbn [In]. rewrite IH. split.
      * intros [->|(j' & Hlt & Hn)].
        -- exists 0%nat. split; [lia|reflexivity].
        -- exists (S j'). split; [lia|exact Hn].
      * intros ([|j'] & Hlt & Hn); cbn in Hn.
        -- left. congruence.
        -- right. exists j'. split; [lia|exact Hn].
Qed.

Lemma map_snd_combine {A B} (a : list A) :
  forall b : list B, length a = length b -> map snd (combine a b) = b.
Proof.
  induction a as [|x a IH]; intros [|y b] H; cbn in *; try discriminate;
    [reflexivity|].
  rewrite IH by lia. reflexivity.
Qed.

Lemma map_fst_combine {A B} (a : list A) :
  forall b : list B, length a = length b -> map fst (combine a b) = a.
Proof.
  induction a as [|x a IH]; intros [|y b] H; cbn in *; try discriminate;
    [reflexivity|].
  rewrite IH by lia. reflexivity.
Qed.

Lemma reset_index_cells f : map snd (rows (reset_index f)) = map snd (rows f).
Proof.
  unfold reset_index. cbn [rows]. apply map_snd_combine.
  rewrite !length_map, length_seq. reflexivity.
Qed.

Lemma reset_index_index f :
  index (reset_index f) = map Z.of_nat (seq 0 (df_len (reset_index f))).
Proof.
  rewrite reset_index_len. unfold reset_index, index. cbn [rows].
  apply map_fst_combine. rewrite !length_map, length_seq. reflexivity.
Qed.

(** C7.  On a frame with both coordinate columns, step 4 returns a frame
    in which: the row at position [j] of the input is kept if and only if
    no earlier row has the same (latitude, longitude) pair, so each pair
    keeps its first row and loses every later one; the kept rows stand in
    their original order; and the labels are 0, 1, 2, ...  On two rows
    with the same coordinates and a third elsewhere, the first and the
    third remain, in that order. *)
Theorem step_duplicates_keeps_first :
  (forall (w : world) (gdf : loc) (f : DataFrame),
      nth_error (heap w) gdf = Some f ->
      has_column f "latitude" = true ->
      has_column f "longitude" = true ->
      exists t w' keep,
        step_duplicates gdf w = (Ok (length (heap w)), w')
        /\ nth_error (heap w') (length (heap w)) = Some t
        /\ length keep = df_len f
        /\ (forall j lr,
               nth_error (rows f) j = Some lr ->
               (nth_error keep j = Some true
                <-> forall j' lr',
                     (j' < j)%nat ->
                     nth_error (rows f) j' = Some lr' ->
                     key_eqb (row_key f ["latitude"; "longitude"] (snd lr))
                             (row_key f ["latitude"; "longitude"] (snd lr'))
                     = false))
        /\ map snd (rows t)
           = map snd (map snd (filter fst (combine keep (rows f))))
        /\ index t = map Z.of_nat (seq 0 (df_len t))
        /\ columns t = columns f)
  /\ result_frame (step_duplicates 0%nat (World [twin_frame] []))
     = Some (Frame (columns twin_frame)
                   [(0, [VStr "A"; VNum (-5 # 2); VNum (-77 # 2)]);
                    (1, [VStr "C"; VNum (-3 # 1); VNum (-40 # 1)])]).
Proof.
  split; [|vm_compute; reflexivity].
  intros w gdf f Hf Hlat Hlon.
  set (subset := ["latitude"; "longitude"]).
  set (keys := map (fun lr : label * list value => row_key f subset (snd lr))
                   (rows f)).
  set (keep := map negb (duplicated [] keys)).
  assert (Hdrop : drop_duplicates f subset = Ok (select f keep)).
  { unfold drop_duplicates.
    assert (Hm : missing_columns f subset = []).
    { apply missing_columns_nil. intros c [<-|[<-|[]]]; assumption. }
    rewrite Hm. reflexivity. }
  pose proof (step_duplicates_run w gdf f Hf) as Hrun.
  fold subset in Hrun. rewrite Hdrop in Hrun.
  exists (reset_index (select f keep)). eexists. exists keep.
  split; [exact Hrun|]. cbn [heap].
  split; [apply nth_error_alloc|].
  split.
  { unfold keep, keys, df_len.
    rewrite length_map, duplicated_length, length_map. reflexivity. }
  split.
  { intros j lr Hj.
    assert (Hk : nth_error keys j = Some (row_key f subset (snd lr)))
      by (unfold keys; rewrite nth_error_map, Hj; reflexivity).
    unfold keep. rewrite nth_error_map.
    rewrite (duplicated_nth keys [] j _ Hk), app_nil_r. unfold option_map.
    split.
    - intros H j' lr' Hlt Hj'. injection H as H.
      apply negb_true_iff in H.
      destruct (key_eqb (row_key f subset (snd lr))
                        (row_key f subset (snd lr'))) eqn:E; [|reflexivity].
      assert (Hex : existsb (key_eqb (row_key f subset (snd lr)))
                            (rev (firstn j keys)) = true).
      { apply existsb_exists. exists (row_key f subset (snd lr')).
        split; [|exact E]. apply in_rev. rewrite rev_involutive.
        apply in_firstn_nth. exists j'. split; [exact Hlt|].
        unfold keys. rewrite nth_error_map, Hj'. reflexivity. }
      exfalso. exact (eq_true_false_abs _ Hex H).
    - intros H. f_equal. apply negb_true_iff.
      destruct (existsb (key_eqb (row_key f subset (snd lr)))
                        (rev (firstn j keys))) eqn:E; [|reflexivity].
      apply existsb_exists in E. destruct E as (k' & Hin & Hk').
      apply in_rev in Hin. apply in_firstn_nth in Hin.
      destruct Hin as (j' & Hlt & Hn).
      unfold keys in Hn. rewrite nth_error_map in Hn.
      destruct (nth_error (rows f) j') as [lr'|] eqn:Hj'; [|discriminate].
      injection Hn as <-. exfalso.
      exact (eq_true_false_abs _ Hk' (H j' lr' Hlt Hj')). }
  split; [rewrite reset_index_cells; reflexivity|].
  split; [apply reset_index_index|reflexivity].
Qed.

Lemma step_duplicates_keeps_first_witness :
  exists t w' (keep : list bool),
    step_duplicates 0%nat (World [twin_frame] []) = (Ok 1%nat, w')
    /\ nth_error (heap w') 1 = Some t
    /\ length keep = df_len twin_frame.
Proof.
  destruct (proj1 step_duplicates_keeps_first (World [twin_frame] []) 0%nat
              twin_frame eq_refl eq_refl eq_refl)
    as (t & w' & keep & H1 & H2 & H3 & _).
  exists t, w', keep. repeat split; assumption.
Defined.

(** ** The cascade as a whole *)

Lemma bind_ok {S A B} (m : St S A) (k : A -> St S B) w b w' :
  bind m k w = (Ok b, w') ->
  exists a w1, m w = (Ok a, w1) /\ k a w1 = (Ok b, w').
Proof.
  unfold bind. destruct (m w) as [[a|e] w1]; [|discriminate].
  intros H. exists a, w1. split; [reflexivity|exact H].
Qed.

Lemma step_geometry_shrinks : shrinks step_geometry.
Proof.
  intros w gdf f out w' Hf Hrun.
  rewrite (step_geometry_run w gdf f Hf) in Hrun.
  destruct (getitem_col f "geometry"); [|discriminate].
  cbn zeta in Hrun. injection Hrun as <- <-. cbn [heap].
  eexists. split.
  - rewrite nth_error_app2 by lia.
    replace (S (length (heap w)) - length (heap w))%nat with 1%nat by lia.
    reflexivity.
  - unfold df_len. cbn [rows].
    etransitivity; [apply filter_length_le|apply filter_length_le].
Qed.

Lemma step_version_shrinks : shrinks step_version.
Proof.
  intros w gdf f out w' Hf Hrun.
  rewrite (step_version_run w gdf f Hf) in Hrun.
  destruct (getitem_col f "versao"); [|discriminate].
  cbn zeta in Hrun. injection Hrun as <- <-. cbn [heap].
  eexists. split; [apply nth_error_alloc|].
  unfold df_len. cbn [rows]. apply filter_length_le.
Qed.

Lemma step_operation_missing w gdf f :
  nth_error (heap w) gdf = Some f ->
  position "operacao" (columns f) = None ->
  step_operation gdf w = (Raise (KeyError ["operacao"]), w).
Proof.
  intros Hf Hi. unfold step_operation, bind, load, column_of, getitem_col.
  rewrite Hf, Hi. reflexivity.
Qed.

Lemma nth_error_alloc_update {A} (h : list A) (l : nat) (x t : A) :
  nth_error (update h l x ++ [t]) (length h) = Some t.
Proof. rewrite <- (update_length h l x). apply nth_error_alloc. Qed.

Lemma step_operation_shrinks : shrinks step_operation.
Proof.
  intros w gdf f out w' Hf Hrun.
  destruct (position "operacao" (columns f)) as [i|] eqn:Hi.
  - assert (Hs : exists s, getitem_col f "operacao" = Some s)
      by (apply getitem_col_has; unfold has_column; rewrite Hi; reflexivity).
    destruct Hs as [s Hs].
    rewrite (step_operation_run w gdf f i s Hf Hi Hs) in Hrun.
    cbn zeta in Hrun. injection Hrun as <- <-. cbn [heap].
    eexists. split.
    + apply nth_error_alloc_update.
    + unfold df_len. cbn [rows].
      etransitivity; [apply filter_length_le|].
      rewrite length_map. lia.
  - rewrite (step_operation_missing w gdf f Hf Hi) in Hrun. discriminate.
Qed.

Lemma step_nulls_shrinks : shrinks step_nulls.
Proof.
  intros w gdf f out w' Hf Hrun.
  rewrite (step_nulls_run w gdf f Hf) in Hrun.
  destruct (dropna f drop_na_columns) as [t|e] eqn:Hd; [|discriminate].
  injection Hrun as <- <-. cbn [heap].
  exists t. split; [apply nth_error_alloc|].
  apply (dropna_len f drop_na_columns t Hd).
Qed.

Lemma step_outliers_shrinks : shrinks step_outliers.
Proof.
  intros w gdf f out w' Hf Hrun. unfold step_outliers in Hrun.
  rewrite (remove_outliers_iqr_unfold gdf check_outliers 3 true w f Hf)
    in Hrun.
  destruct (iqr_loop_sound check_outliers 3 true (length (heap w)) (df_len f)
              (NdArray (map (fun _ => true) (index f)))
              (World (heap w ++ [f]) (stdout w)) f (nth_error_alloc _ _))
    as [_ Hout].
  rewrite Hrun in Hout. cbn [fst snd] in Hout.
  destruct (Hout out eq_refl) as [_ Hf']. exact Hf'.
Qed.

Lemma step_duplicates_shrinks : shrinks step_duplicates.
Proof.
  intros w gdf f out w' Hf Hrun.
  rewrite (step_duplicates_run w gdf f Hf) in Hrun.
  destruct (drop_duplicates f ["latitude"; "longitude"]) as [t|e] eqn:Hd;
    [|discriminate].
  injection Hrun as <- <-. cbn [heap].
  eexists. split; [apply nth_error_alloc|].
  rewrite reset_index_len.
  unfold drop_duplicates in Hd.
  destruct (missing_columns f ["latitude"; "longitude"]); [|discriminate].
  injection Hd as <-. apply select_len.
Qed.

Lemma drop_len f cols f' : drop f cols = Ok f' -> df_len f' = df_len f.
Proof.
  unfold drop. destruct (missing_columns f cols); [|discriminate].
  intros H; injection H as <-. unfold df_len. cbn [rows].
  apply length_map.
Qed.

Lemma step_prune_shrinks : shrinks step_prune.
Proof.
  intros w gdf f out w' Hf Hrun.
  rewrite (step_prune_run w gdf f Hf) in Hrun.
  destruct (drop f drop_columns) as [f'|e] eqn:Hd; [|discriminate].
  injection Hrun as <- <-. cbn [heap].
  exists f'. split.
  - apply nth_error_update_same. apply nth_error_Some. congruence.
  - rewrite (drop_len f drop_columns f' Hd). lia.
Qed.

Lemma shrinks_nrows step w gdf f out w' :
  shrinks step ->
  nth_error (heap w) gdf = Some f ->
  step gdf w = (Ok out, w') ->
  exists f', nth_error (heap w') out = Some f'
             /\ nrows w' out = Some (df_len f')
             /\ (df_len f' <= df_len f)%nat.
Proof.
  intros Hs Hf Hrun. destruct (Hs w gdf f out w' Hf Hrun) as (f' & H1 & H2).
  exists f'. unfold nrows. rewrite H1. repeat split; assumption.
Qed.

Lemma validate_gdf_unfold w gdf f :
  nth_error (heap w) gdf = Some f ->
  validate_gdf gdf w
  = (g1 <- step_geometry gdf ;;
     g2 <- step_version g1 ;;
     g3 <- step_operation g2 ;;
     g4 <- step_nulls g3 ;;
     g5 <- step_outliers g4 ;;
     g6 <- step_duplicates g5 ;;
     step_prune g6)
      (World (heap w) (stdout w ++ [InfoRaw (df_len f)])).
Proof.
  intros Hf. unfold validate_gdf. unfold bind at 1. unfold load at 1.
  rewrite Hf. unfold bind at 1. reflexivity.
Qed.

(** C8.  Each of the seven steps of [validate_gdf], whenever it returns,
    returns a frame with at most as many rows as the frame it was given;
    and a run of [validate_gdf] that returns is these seven steps in
    order, the row counts after them forming a non-increasing chain that
    starts at the row count of the input. *)
Theorem validate_gdf_rows_non_increasing :
  (shrinks step_geometry /\ shrinks step_version /\ shrinks step_operation
   /\ shrinks step_nulls /\ shrinks step_outliers /\ shrinks step_duplicates
   /\ shrinks step_prune)
  /\ forall (w : world) (gdf : loc) (f : DataFrame) (out : loc) (w' : world),
      nth_error (heap w) gdf = Some f ->
      validate_gdf gdf w = (Ok out, w') ->
      exists g1 w1 g2 w2 g3 w3 g4 w4 g5 w5 g6 w6 n1 n2 n3 n4 n5 n6 n7,
        step_geometry gdf (World (heap w) (stdout w ++ [InfoRaw (df_len f)]))
        = (Ok g1, w1)
        /\ step_version g1 w1 = (Ok g2, w2)
        /\ step_operation g2 w2 = (Ok g3, w3)
        /\ step_nulls g3 w3 = (Ok g4, w4)
        /\ step_outliers g4 w4 = (Ok g5, w5)
        /\ step_duplicates g5 w5 = (Ok g6, w6)
        /\ step_prune g6 w6 = (Ok out, w')
        /\ nrows w1 g1 = Some n1 /\ nrows w2 g2 = Some n2
        /\ nrows w3 g3 = Some n3 /\ nrows w4 g4 = Some n4
        /\ nrows w5 g5 = Some n5 /\ nrows w6 g6 = Some n6
        /\ nrows w' out = Some n7
        /\ (n7 <= n6 /\ n6 <= n5 /\ n5 <= n4 /\ n4 <= n3 /\ n3 <= n2
            /\ n2 <= n1 /\ n1 <= df_len f)%nat.
Proof.
  split.
  { repeat split;
      [apply step_geometry_shrinks | apply step_version_shrinks
       | apply step_operation_shrinks | apply step_nulls_shrinks
       | apply step_outliers_shrinks | apply step_duplicates_shrinks
       | apply step_prune_shrinks]. }
  intros w gdf f out w' Hf Hrun.
  rewrite (validate_gdf_unfold w gdf f Hf) in Hrun.
  set (w0 := World (heap w) (stdout w ++ [InfoRaw (df_len f)])) in *.
  assert (Hf0 : nth_error (heap w0) gdf = Some f) by exact Hf.
  apply bind_ok in Hrun. destruct Hrun as (g1 & w1 & H1 & Hrun).
  apply bind_ok in Hrun. destruct Hrun as (g2 & w2 & H2 & Hrun).
  apply bind_ok in Hrun. destruct Hrun as (g3 & w3 & H3 & Hrun).
  apply bind_ok in Hrun. destruct Hrun as (g4 & w4 & H4 & Hrun).
  apply bind_ok in Hrun. destruct Hrun as (g5 & w5 & H5 & Hrun).
  apply bind_ok in Hrun. destruct Hrun as (g6 & w6 & H6 & H7).
  destruct (shrinks_nrows step_geometry w0 gdf f g1 w1
              step_geometry_shrinks Hf0 H1) as (f1 & Hf1 & N1 & L1).
  destruct (shrinks_nrows step_version w1 g1 f1 g2 w2
              step_version_shrinks Hf1 H2) as (f2 & Hf2 & N2 & L2).
  destruct (shrinks_nrows step_operation w2 g2 f2 g3 w3
              step_operation_shrinks Hf2 H3) as (f3 & Hf3 & N3 & L3).
  destruct (shrinks_nrows step_nulls w3 g3 f3 g4 w4
              step_nulls_shrinks Hf3 H4) as (f4 & Hf4 & N4 & L4).
  destruct (shrinks_nrows step_outliers w4 g4 f4 g5 w5
              step_outliers_shrinks Hf4 H5) as (f5 & Hf5 & N5 & L5).
  destruct (shrinks_nrows step_duplicates w5 g5 f5 g6 w6
              step_duplicates_shrinks Hf5 H6) as (f6 & Hf6 & N6 & L6).
  destruct (shrinks_nrows step_prune w6 g6 f6 out w'
              step_prune_shrinks Hf6 H7) as (f7 & Hf7 & N7 & L7).
  exists g1, w1, g2, w2, g3, w3, g4, w4, g5, w5, g6, w6.
  exists (df_len f1), (df_len f2), (df_len f3), (df_len f4), (df_len f5),
    (df_len f6), (df_len f7).
  repeat split; assumption.
Qed.

Lemma validate_gdf_rows_non_increasing_witness :
  exists n, nrows (snd (validate_gdf 0%nat (World [raw_frame] []))) 8%nat
            = Some n /\ (n <= 11)%nat.
Proof.
  assert (Hrun : validate_gdf 0%nat (World [raw_frame] [])
                 = (Ok 8%nat,
                    snd (validate_gdf 0%nat (World [raw_frame] []))))
    by (vm_compute; reflexivity).
  destruct (proj2 validate_gdf_rows_non_increasing
              (World [raw_frame] []) 0%nat raw_frame 8%nat _ eq_refl Hrun)
    as (g1 & w1 & g2 & w2 & g3 & w3 & g4 & w4 & g5 & w5 & g6 & w6
        & n1 & n2 & n3 & n4 & n5 & n6 & n7 & H).
  exists n7. split; [apply H|].
  change (df_len raw_frame) with 11%nat in H. lia.
Defined.

(** ** Step 5: column pruning *)

Lemma position_filtered_out (cols : list string) (c : string) cs :
  mem_str c cols = true ->
  position c (filter (fun cd : string * dtype => negb (mem_str (fst cd) cols))
                     cs) = None.
Proof.
  intros Hc. induction cs as [|[c' d] cs IH]; cbn [filter fst];
    [reflexivity|].
  destruct (mem_str c' cols) eqn:E; cbn [negb]; [exact IH|].
  cbn [position]. destruct (String.eqb c' c) eqn:Ec.
  - apply String.eqb_eq in Ec. subst c'. congruence.
  - rewrite IH. reflexivity.
Qed.

Lemma mem_str_in c cols : In c cols -> mem_str c cols = true.
Proof.
  intros H. apply existsb_exists. exists c. split; [exact H|].
  apply String.eqb_refl.
Qed.

Lemma drop_removes f cols f' c :
  drop f cols = Ok f' -> In c cols -> has_column f' c = false.
Proof.
  unfold drop. destruct (missing_columns f cols); [|discriminate].
  intros H Hin. injection H as <-. unfold has_column. cbn [columns].
  rewrite (filter_fst_combine_map
             (fun cd : string * dtype => negb (mem_str (fst cd) cols))).
  rewrite (position_filtered_out cols c (columns f) (mem_str_in c cols Hin)).
  reflexivity.
Qed.

(** C10.  The pruning step raises [KeyError] as soon as one column of its
    drop set is absent, naming it, and leaves the frame as it was.  A
    frame [validate_gdf] has returned has lost the whole drop set, so the
    pruning step raises [KeyError] on it, and [validate_gdf] applied to it
    raises as well (in its first step, which asks for the geometry
    column). *)
Theorem step_prune_raises_on_pruned :
  (forall (w : world) (gdf : loc) (f : DataFrame) (c : string),
      nth_error (heap w) gdf = Some f ->
      In c drop_columns ->
      has_column f c = false ->
      exists missing,
        step_prune gdf w = (Raise (KeyError missing), w) /\ In c missing)
  /\ (forall (w : world) (gdf : loc) (f : DataFrame) (out : loc) (w' : world),
         nth_error (heap w) gdf = Some f ->
         validate_gdf gdf w = (Ok out, w') ->
         (exists f', nth_error (heap w') out = Some f'
                     /\ forall c, In c drop_columns -> has_column f' c = false)
         /\ (exists missing,
                step_prune out w' = (Raise (KeyError missing), w'))
         /\ exists w'', validate_gdf out w' = (Raise AttributeError, w'')).
Proof.
  split.
  - intros w gdf f c Hf Hin Hc.
    rewrite (step_prune_run w gdf f Hf). unfold drop.
    assert (Hm : In c (missing_columns f drop_columns)).
    { unfold missing_columns. apply filter_In. split; [exact Hin|].
      rewrite Hc. reflexivity. }
    destruct (missing_columns f drop_columns) as [|m ms] eqn:E;
      [destruct Hm|].
    exists (m :: ms). split; [reflexivity|exact Hm].
  - intros w gdf f out w' Hf Hrun.
    rewrite (validate_gdf_unfold w gdf f Hf) in Hrun.
    apply bind_ok in Hrun. destruct Hrun as (g1 & w1 & _ & Hrun).
    apply bind_ok in Hrun. destruct Hrun as (g2 & w2 & _ & Hrun).
    apply bind_ok in Hrun. destruct Hrun as (g3 & w3 & _ & Hrun).
    apply bind_ok in Hrun. destruct Hrun as (g4 & w4 & _ & Hrun).
    apply bind_ok in Hrun. destruct Hrun as (g5 & w5 & _ & Hrun).
    apply bind_ok in Hrun. destruct Hrun as (g6 & w6 & _ & H7).
    destruct (nth_error (heap w6) g6) as [f6|] eqn:Hf6.
    + rewrite (step_prune_run w6 g6 f6 Hf6) in H7.
      destruct (drop f6 drop_columns) as [f'|e] eqn:Hd; [|discriminate].
      injection H7 as <- <-.
      assert (Hout : nth_error (heap (World (update (heap w6) g6 f')
                                            (stdout w6))) g6 = Some f').
      { cbn [heap]. apply nth_error_update_same.
        apply nth_error_Some. congruence. }
      split; [|split].
      * exists f'. split; [exact Hout|].
        intros c Hc. apply (drop_removes f6 drop_columns f' c Hd Hc).
      * rewrite (step_prune_run _ g6 f' Hout). unfold drop.
        assert (Hm : In "geometry" (missing_columns f' drop_columns)).
        { unfold missing_columns. apply filter_In.
          split; [left; reflexivity|].
          rewrite (drop_removes f6 drop_columns f' "geometry" Hd
                     (or_introl eq_refl)).
          reflexivity. }
        destruct (missing_columns f' drop_columns) as [|m ms];
          [destruct Hm|].
        exists (m :: ms). reflexivity.
      * eexists.
        rewrite (validate_gdf_unfold _ g6 f' Hout).
        cbn [heap stdout] in *.
        set (w0 := World (update (heap w6) g6 f')
                         (stdout w6 ++ [InfoRaw (df_len f')])).
        assert (Hg : getitem_col f' "geometry" = None).
        { apply getitem_col_none.
          apply (drop_removes f6 drop_columns f' "geometry" Hd).
          left. reflexivity. }
        unfold bind at 1.
        rewrite (step_geometry_run w0 g6 f' Hout), Hg. reflexivity.
    + unfold step_prune, bind, load in H7. rewrite Hf6 in H7. discriminate.
Qed.

Lemma step_prune_raises_on_pruned_witness :
  exists missing,
    step_prune 0%nat (World [twin_frame] [])
    = (Raise (KeyError missing), World [twin_frame] [])
    /\ In "geometry" missing.
Proof.
  apply (proj1 step_prune_raises_on_pruned (World [twin_frame] []) 0%nat
           twin_frame "geometry" eq_refl).
  - left. reflexivity.
  - reflexivity.
Defined.

(** * More on the pagination loop *)

Lemma get_rev_nodup {V} (d : dict V) (k : string) :
  NoDup (map fst d) -> get (rev d) k = get d k.
Proof.
  induction d as [|[k0 v0] d IH]; cbn [map fst rev get]; intros Hnd;
    [reflexivity|].
  inversion Hnd as [|? ? Hnotin Hnd']; subst.
  rewrite get_app, (IH Hnd'). cbn [get].
  destruct (String.eqb k0 k) eqn:E.
  - apply String.eqb_eq in E. subst k0.
    rewrite (get_absent d k Hnotin). reflexivity.
  - destruct (get d k); reflexivity.
Qed.

(** X1.  The query parameters of a request: a key the caller passes in
    [extra_params] carries the caller's value, whether it overrides a
    canonical parameter or adds one; every other key carries its canonical
    value. *)
Theorem request_params_caller_wins
    (offset lim : Z) (extra : dict pvalue) (k : string) :
  NoDup (map fst extra) ->
  get (request_params offset (Some extra) lim) k
  = match get extra k with
    | Some v => Some v
    | None => get (_default_params offset lim) k
    end.
Proof.
  intros Hnd. rewrite request_params_get. unfold override.
  rewrite (get_rev_nodup extra k Hnd). reflexivity.
Qed.

Lemma request_params_caller_wins_witness :
  get (request_params 0 (Some [("outFields", PStr "POT_MW");
                               ("token", PStr "abc")]) 1000) "outFields"
  = Some (PStr "POT_MW").
Proof.
  apply (request_params_caller_wins 0 1000
           [("outFields", PStr "POT_MW"); ("token", PStr "abc")] "outFields").
  repeat constructor; cbn; intuition discriminate.
Defined.

(** One call of [fetch_page], whatever the reply. *)
Lemma fetch_page_run url offset extra lim r rest s o :
  fetch_page url offset extra lim (Net (r :: rest) s o)
  = (reply_outcome r,
     Net rest (s ++ [(url, request_params offset extra lim)]) o).
Proof.
  unfold fetch_page, bind, session_get. cbn [replies sent out].
  destruct r as [e|status body]; cbn [reply_outcome raise]; [reflexivity|].
  unfold raise_for_status.
  destruct ((400 <=? status) && (status <? 600)); cbn [raise ret];
    [reflexivity|].
  destruct body as [data|]; cbn [lift_option raise ret]; [|reflexivity].
  destruct (contains data "error"); reflexivity.
Qed.

Lemma fetch_page_exhausted url offset extra lim s o :
  fetch_page url offset extra lim (Net [] s o)
  = (Raise StopIteration,
     Net [] (s ++ [(url, request_params offset extra lim)]) o).
Proof. reflexivity. Qed.

(** X2.  A call of [fetch_page] issues exactly one request, with the merged
    parameters, consumes one reply and prints nothing, whether it returns
    or raises; and it returns a payload exactly when the reply is a
    response whose status is not 4xx/5xx and whose body decodes to that
    payload, without an [error] key. *)
Theorem fetch_page_one_request
    (url : string) (offset : Z) (extra : option (dict pvalue)) (lim : Z)
    (n : net) :
  let run := fetch_page url offset extra lim n in
  sent (snd run) = sent n ++ [(url, request_params offset extra lim)]
  /\ replies (snd run) = tl (replies n)
  /\ out (snd run) = out n
  /\ forall data,
      fst run = Ok data
      <-> exists status,
          hd_error (replies n) = Some (Response status (Some data))
          /\ ~ (400 <= status < 600)
          /\ contains data "error" = false.
Proof.
  destruct n as [[|r rest] s o]; cbn zeta.
  - rewrite fetch_page_exhausted. cbn. repeat split; try discriminate.
    intros (status & H & _). discriminate.
  - rewrite fetch_page_run. cbn [fst snd sent replies out tl hd_error].
    repeat split.
    + destruct r as [e|status body]; cbn [reply_outcome]; [discriminate|].
      destruct ((400 <=? status) && (status <? 600)) eqn:E; [discriminate|].
      destruct body as [d|]; [|discriminate].
      destruct (contains d "error") eqn:Ec; [discriminate|].
      intros H; injection H as ->. exists status.
      repeat split; [|exact Ec].
      intros [H1 H2]. apply Z.leb_le in H1. apply Z.ltb_lt in H2.
      rewrite H1, H2 in E. discriminate.
    + intros (status & H & Hs & Hc). injection H as ->.
      cbn [reply_outcome]. rewrite Hc.
      destruct ((400 <=? status) && (status <? 600)) eqn:E; [|reflexivity].
      apply andb_true_iff in E. destruct E as [E1 E2].
      apply Z.leb_le in E1. apply Z.ltb_lt in E2. exfalso. apply Hs. lia.
Qed.

(** X3.  Over any sequence of served pages the run sends its requests to
    the one endpoint, the [i]-th (from zero) with the parameters of offset
    [i * 1000] and page size 1000.  So on the wire [resultOffset] advances
    by 1000 per page, unless the caller overrides [resultOffset] (or
    [resultRecordCount]) in [extra_params]: then every request carries the
    caller's value. *)
Theorem fetch_all_features_offsets
    (pages : list page) (extra : option (dict pvalue)) (verbose : bool)
    (fuel : nat) (Hfuel : (length pages < fuel)%nat) :
  let run := fetch_all_features fuel extra verbose
                                (Net (map serve pages) [] []) in
  sent (snd run) = expected_requests 0 extra (requests (snd run))
  /\ forall i q,
      nth_error (sent (snd run)) i = Some q ->
      fst q = ARCGIS_URL
      /\ get (snd q) "resultOffset"
         = match override extra "resultOffset" with
           | Some v => Some v
           | None => Some (PInt (Z.of_nat i * 1000))
           end
      /\ get (snd q) "resultRecordCount"
         = match override extra "resultRecordCount" with
           | Some v => Some v
           | None => Some (PInt 1000)
           end.
Proof.
  intros run.
  destruct (fetch_loop_trace pages fuel extra verbose 0 [] [] [] Hfuel)
    as [Hs _].
  destruct (fetch_loop_pages pages fuel extra verbose 0 [] [] [] Hfuel)
    as [Hr _].
  fold (fetch_all_features fuel extra verbose) in Hs, Hr. fold run in Hs, Hr.
  cbn [app length Nat.add] in Hs, Hr.
  split; [rewrite Hr; exact Hs|].
  intros i q Hq. rewrite Hs in Hq. unfold expected_requests in Hq.
  rewrite nth_error_map in Hq.
  destruct (nth_error (seq 0 (S (length (take_while continues pages)))) i)
    as [j|] eqn:Hj; [|discriminate].
  assert (j = i).
  { assert (Hlt : (i < length (seq 0 (S (length (take_while continues
                                                              pages)))))%nat)
      by (apply nth_error_Some; congruence).
    rewrite length_seq in Hlt.
    pose proof (nth_error_nth _ _ 0%nat Hj) as Hn.
    rewrite seq_nth in Hn by exact Hlt. lia. }
  subst j. injection Hq as <-. cbn [fst snd].
  rewrite !request_params_get.
  split; [reflexivity|]. split.
  - destruct (override extra "resultOffset"); reflexivity.
  - destruct (override extra "resultRecordCount"); reflexivity.
Qed.

Lemma fetch_all_features_offsets_witness :
  get (snd (nth 1 (sent (snd (fetch_all_features 4 None false
                                (Net (map serve demo_pages) [] []))))
                (ARCGIS_URL, []))) "resultOffset"
  = Some (PInt 1000).
Proof.
  assert (Hfuel : (length demo_pages < 4)%nat) by (cbn; lia).
  destruct (fetch_all_features_offsets demo_pages None false 4%nat Hfuel)
    as [_ H].
  apply (H 1%nat). vm_compute. reflexivity.
Defined.

(** X4.  The progress lines are advisory: a run with [verbose=False] prints
    nothing, a run with [verbose=True] prints one line per page it fetched
    (offset, records of the page, running total), and both runs return the
    same result after the same requests. *)
Theorem fetch_all_features_progress
    (pages : list page) (extra : option (dict pvalue)) (fuel : nat)
    (Hfuel : (length pages < fuel)%nat) :
  let quiet := fetch_all_features fuel extra false
                                  (Net (map serve pages) [] []) in
  let loud := fetch_all_features fuel extra true
                                 (Net (map serve pages) [] []) in
  out (snd quiet) = []
  /\ out (snd loud) = progress 0 0 (firstn (requests (snd loud)) pages)
  /\ fst quiet = fst loud
  /\ sent (snd quiet) = sent (snd loud)
  /\ replies (snd quiet) = replies (snd loud).
Proof.
  intros quiet loud.
  destruct (fetch_loop_trace pages fuel extra false 0 [] [] [] Hfuel)
    as [Hsq Hoq].
  destruct (fetch_loop_trace pages fuel extra true 0 [] [] [] Hfuel)
    as [Hsl Hol].
  destruct (fetch_loop_pages pages fuel extra false 0 [] [] [] Hfuel)
    as (_ & Hrq & Hfq).
  destruct (fetch_loop_pages pages fuel extra true 0 [] [] [] Hfuel)
    as (Hnl & Hrl & Hfl).
  fold (fetch_all_features fuel extra false) in Hsq, Hoq, Hrq, Hfq.
  fold (fetch_all_features fuel extra true) in Hsl, Hol, Hnl, Hrl, Hfl.
  fold quiet in Hsq, Hoq, Hrq, Hfq. fold loud in Hsl, Hol, Hnl, Hrl, Hfl.
  cbn [length Nat.add] in Hnl.
  repeat split.
  - exact Hoq.
  - rewrite Hnl. exact Hol.
  - rewrite Hfq, Hfl. reflexivity.
  - rewrite Hsq, Hsl. reflexivity.
  - rewrite Hrq, Hrl. reflexivity.
Qed.

Lemma fetch_all_features_progress_witness :
  out (snd (fetch_all_features 4 None true (Net (map serve demo_pages) [] [])))
  = [InfoPage 0 1000 1000; InfoPage 1000 1 1001].
Proof.
  assert (Hfuel : (length demo_pages < 4)%nat) by (cbn; lia).
  destruct (fetch_all_features_progress demo_pages None 4%nat Hfuel)
    as (_ & H & _).
  rewrite H. vm_compute. reflexivity.
Defined.

(** A run over pages that all continue, then a reply that makes
    [fetch_page] raise. *)
Lemma fetch_loop_fails pages :
  forall r e rest fuel extra verbose offset feats s o,
    forallb continues pages = true ->
    reply_outcome r = Raise e ->
    (length pages < fuel)%nat ->
    let run := fetch_loop fuel extra verbose offset feats
                          (Net (map serve pages ++ r :: rest) s o) in
    fst run = Raise e
    /\ requests (snd run) = (length s + S (length pages))%nat
    /\ replies (snd run) = rest.
Proof.
  induction pages as [|p ps IH];
    intros r e rest fuel extra verbose offset feats s o Hall Hr Hfuel;
    destruct fuel as [|fuel]; try (cbn in Hfuel; lia).
  - cbn [map app].
    assert (Hrun : fetch_loop (S fuel) extra verbose offset feats
                              (Net (r :: rest) s o)
                   = (Raise e,
                      Net rest
                          (s ++ [(ARCGIS_URL,
                                  request_params offset extra limit)]) o)).
    { cbn [fetch_loop]. unfold bind at 1. rewrite fetch_page_run, Hr.
      reflexivity. }
    cbn zeta. rewrite Hrun. unfold requests. cbn [fst snd sent replies].
    rewrite length_app. cbn [length]. repeat split; lia.
  - cbn [map app]. rewrite fetch_loop_step.
    cbn [forallb] in Hall. apply andb_true_iff in Hall.
    destruct Hall as [Hp Hps]. rewrite Hp. cbn zeta.
    specialize (IH r e rest fuel extra verbose (offset + limit)
                   (feats ++ page_features p)
                   (s ++ [(ARCGIS_URL, request_params offset extra limit)])
                   (o ++ if verbose
                         then [InfoPage offset (length (page_features p))
                                 (length (feats ++ page_features p))]
                         else [])
                   Hps Hr).
    cbn zeta in IH. destruct IH as (H1 & H2 & H3); [cbn in Hfuel; lia|].
    rewrite H1, H2, H3, length_app. cbn [length]. repeat split; lia.
Qed.

(** X5.  A failure on any page aborts the whole run: when the pages before
    it all continue and the next reply makes [fetch_page] raise (a transport
    failure, a 4xx/5xx status, an undecodable body or an embedded error),
    [fetch_all_features] raises that same exception after that request;
    the features already collected are not returned. *)
Theorem fetch_all_features_failure_discards
    (pages : list page) (r : reply) (e : exn) (rest : list reply)
    (extra : option (dict pvalue)) (verbose : bool) (fuel : nat) :
  forallb continues pages = true ->
  reply_outcome r = Raise e ->
  (length pages < fuel)%nat ->
  let run := fetch_all_features fuel extra verbose
                                (Net (map serve pages ++ r :: rest) [] []) in
  fst run = Raise e
  /\ requests (snd run) = S (length pages)
  /\ replies (snd run) = rest.
Proof.
  intros Hall Hr Hfuel.
  apply (fetch_loop_fails pages r e rest fuel extra verbose 0 [] [] []
           Hall Hr Hfuel).
Qed.

Lemma fetch_all_features_failure_discards_witness :
  fst (fetch_all_features 3 None false
         (Net [serve (Page (repeat (JObj []) 1000) (Some true));
               Response 200 (Some error_body)] [] []))
  = Raise RuntimeError.
Proof.
  assert (Hfuel : (length [Page (repeat (JObj []) 1000) (Some true)] < 3)%nat)
    by (cbn; lia).
  apply (proj1 (fetch_all_features_failure_discards
                  [Page (repeat (JObj []) 1000) (Some true)]
                  (Response 200 (Some error_body)) RuntimeError []
                  None false 3%nat eq_refl eq_refl Hfuel)).
Defined.

(** A run over pages that all continue goes on with the reply that
    follows them. *)
Lemma fetch_loop_skip pages :
  forall tail fuel extra verbose offset feats s o,
    forallb continues pages = true ->
    exists s' o',
      fetch_loop (length pages + fuel) extra verbose offset feats
                 (Net (map serve pages ++ tail) s o)
      = fetch_loop fuel extra verbose
                   (offset + Z.of_nat (length pages) * limit)
                   (feats ++ concat (map page_features pages))
                   (Net tail s' o')
      /\ length s' = (length s + length pages)%nat.
Proof.
  induction pages as [|p ps IH];
    intros tail fuel extra verbose offset feats s o Hall.
  - exists s, o. cbn [length map app concat Nat.add Z.of_nat].
    rewrite Z.mul_0_l, Z.add_0_r, app_nil_r. split; [reflexivity|lia].
  - cbn [forallb] in Hall. apply andb_true_iff in Hall.
    destruct Hall as [Hp Hps].
    cbn [length map app Nat.add]. rewrite fetch_loop_step, Hp. cbn zeta.
    destruct (IH tail fuel extra verbose (offset + limit)
                 (feats ++ page_features p)
                 (s ++ [(ARCGIS_URL, request_params offset extra limit)])
                 (o ++ if verbose
                       then [InfoPage offset (length (page_features p))
                               (length (feats ++ page_features p))]
                       else [])
                 Hps) as (s' & o' & Hrun & Hlen).
    exists s', o'. rewrite Hrun. split.
    + cbn [concat map]. rewrite <- !app_assoc.
      replace (offset + limit + Z.of_nat (length ps) * limit)
        with (offset + Z.of_nat (S (length ps)) * limit)
        by (rewrite Nat2Z.inj_succ; lia).
      reflexivity.
    + rewrite Hlen, length_app. cbn [length]. lia.
Qed.

(** One iteration of the loop on a payload that [fetch_page] returns. *)
Lemma fetch_loop_payload status data rest fuel extra verbose offset feats s o :
  reply_outcome (Response status (Some data)) = Ok data ->
  let run := fetch_loop (S fuel) extra verbose offset feats
                        (Net (Response status (Some data) :: rest) s o) in
  (get data "features" = None ->
   fst run = Ok (Some feats) /\ replies (snd run) = rest
   /\ length (sent (snd run)) = S (length s))
  /\ (forall items,
         get data "exceededTransferLimit" = None ->
         get data "features" = Some (JArr items) ->
         fst run = Ok (Some (feats ++ items)) /\ replies (snd run) = rest
         /\ length (sent (snd run)) = S (length s))
  /\ (forall v,
         get data "features" = Some v -> iterate v = None ->
         fst run = Raise (TypeError "features")).
Proof.
  intros Hok. cbn zeta.
  assert (Hrun : forall k : dict json -> St net (option (list json)),
             bind (fetch_page ARCGIS_URL offset extra limit) k
                  (Net (Response status (Some data) :: rest) s o)
             = k data (Net rest
                           (s ++ [(ARCGIS_URL,
                                   request_params offset extra limit)]) o)).
  { intros k. unfold bind. rewrite fetch_page_run, Hok. reflexivity. }
  cbn [fetch_loop]. rewrite Hrun.
  split; [|split].
  - intros Hf. rewrite Hf. cbn [iterate lift_option].
    unfold bind at 1 2. cbn [ret length app]. rewrite app_nil_r.
    destruct verbose; unfold bind, say, ret; cbn;
      rewrite orb_true_r; cbn; rewrite length_app; cbn;
      repeat split; lia.
  - intros items He Hf. rewrite Hf, He.
    cbn [iterate lift_option truthy negb orb].
    unfold bind at 1 2. cbn [ret app].
    destruct verbose; unfold bind, say, ret; cbn; rewrite length_app; cbn;
      repeat split; lia.
  - intros v Hf Hv. rewrite Hf, Hv. reflexivity.
Qed.

(** X6.  Missing keys in a decoded payload, on whatever page of the run it
    comes (after any number of pages that continue).  Without a
    [features] key the page counts as empty and ends the run, which
    returns the features of the pages before it; without an
    [exceededTransferLimit] key the page ends the run however many records
    it holds, and its records are returned after those of the pages
    before; a [features] value that cannot be iterated (null, a number, a
    boolean) raises [TypeError], and nothing is returned. *)
Theorem fetch_all_features_missing_keys
    (pages : list page) (status : Z) (data : dict json) (rest : list reply)
    (extra : option (dict pvalue)) (verbose : bool) (fuel : nat) :
  forallb continues pages = true ->
  reply_outcome (Response status (Some data)) = Ok data ->
  (length pages < fuel)%nat ->
  let run := fetch_all_features fuel extra verbose
               (Net (map serve pages ++ Response status (Some data) :: rest)
                    [] []) in
  let before := concat (map page_features pages) in
  (get data "features" = None ->
   fst run = Ok (Some before) /\ replies (snd run) = rest
   /\ requests (snd run) = S (length pages))
  /\ (forall items,
         get data "exceededTransferLimit" = None ->
         get data "features" = Some (JArr items) ->
         fst run = Ok (Some (before ++ items)) /\ replies (snd run) = rest
         /\ requests (snd run) = S (length pages))
  /\ (forall v,
         get data "features" = Some v -> iterate v = None ->
         fst run = Raise (TypeError "features")).
Proof.
  intros Hall Hok Hfuel. cbn zeta.
  assert (Hf : fuel = (length pages + S (fuel - S (length pages)))%nat)
    by lia.
  unfold fetch_all_features. rewrite Hf.
  destruct (fetch_loop_skip pages (Response status (Some data) :: rest)
              (S (fuel - S (length pages))) extra verbose 0 [] [] [] Hall)
    as (s' & o' & Hrun & Hlen).
  rewrite Hrun. cbn [app length Nat.add] in *.
  destruct (fetch_loop_payload status data rest (fuel - S (length pages))
              extra verbose (0 + Z.of_nat (length pages) * limit)
              (concat (map page_features pages)) s' o' Hok)
    as (H1 & H2 & H3).
  unfold requests. rewrite Hlen in H1, H2.
  split; [exact H1|]. split; [exact H2|exact H3].
Qed.

Lemma fetch_all_features_missing_keys_witness :
  fst (fetch_all_features 3 None false
         (Net (map serve [Page (repeat (JObj []) 1000) (Some true)]
               ++ [Response 200 (Some [])]) [] []))
  = Ok (Some (repeat (JObj []) 1000)).
Proof.
  assert (Hfuel : (length [Page (repeat (JObj []) 1000) (Some true)] < 3)%nat)
    by (cbn; lia).
  destruct (fetch_all_features_missing_keys
              [Page (repeat (JObj []) 1000) (Some true)] 200 [] []
              None false 3%nat eq_refl eq_refl Hfuel) as [H _].
  destruct (H eq_refl) as [Hres _].
  cbn [map concat] in Hres. rewrite app_nil_r in Hres. exact Hres.
Defined.

(** * More on the outlier filter *)

Lemma subseq_refl {A} (l : list A) : subseq l l.
Proof. induction l; constructor; assumption. Qed.

Lemma subseq_trans {A} (l1 l2 l3 : list A) :
  subseq l1 l2 -> subseq l2 l3 -> subseq l1 l3.
Proof.
  intros H12 H23. revert l1 H12.
  induction H23 as [|x l2 l3 H IH|x l2 l3 H IH]; intros l1 H12.
  - exact H12.
  - constructor. apply IH. exact H12.
  - inversion H12; subst.
    + constructor. apply IH. assumption.
    + apply subseq_keep. apply IH. assumption.
Qed.

Lemma subseq_filter {A} (p : A -> bool) (l : list A) : subseq (filter p l) l.
Proof.
  induction l as [|x t IH]; cbn; [constructor|].
  destruct (p x); constructor; exact IH.
Qed.

Lemma subseq_nil_l {A} (l : list A) : subseq [] l.
Proof. induction l; constructor; assumption. Qed.

Lemma subseq_select {A} (bs : list bool) :
  forall l : list A, subseq (map snd (filter fst (combine bs l))) l.
Proof.
  induction bs as [|b bs IH]; intros [|x l]; cbn [combine filter map];
    try apply subseq_nil_l.
  destruct b; cbn [fst filter map snd]; constructor; apply IH.
Qed.

Lemma subseq_map {A B} (g : A -> B) (l1 l2 : list A) :
  subseq l1 l2 -> subseq (map g l1) (map g l2).
Proof. induction 1; cbn; constructor; assumption. Qed.

Lemma subseq_In {A} (l1 l2 : list A) (x : A) :
  subseq l1 l2 -> In x l1 -> In x l2.
Proof.
  induction 1 as [|y l1 l2 H IH|y l1 l2 H IH]; cbn; intros Hin.
  - exact Hin.
  - right. apply IH. exact Hin.
  - destruct Hin as [->|Hin]; [left; reflexivity|right; apply IH; exact Hin].
Qed.

Lemma subseq_length {A} (l1 l2 : list A) :
  subseq l1 l2 -> (length l1 <= length l2)%nat.
Proof. induction 1; cbn; lia. Qed.

Lemma getitem_mask_shape f m t :
  getitem_mask f m = Ok t ->
  columns t = columns f /\ subseq (rows t) (rows f).
Proof.
  unfold getitem_mask.
  destruct (labels_eqb (labels m) (index f)).
  - intros H; injection H as <-. split; [reflexivity|apply subseq_select].
  - destruct (reindex m (index f)); [|discriminate].
    intros H; injection H as <-. split; [reflexivity|apply subseq_select].
Qed.

(** What the loop returns: the current frame when no column is left, a
    re-indexed frame otherwise; in both cases the columns of the current
    frame and some of its rows, unaltered and in order. *)
Lemma iqr_loop_shape cols :
  forall k na l dc km w f out,
    nth_error (heap w) l = Some f ->
    fst (iqr_loop cols k na l dc km w) = Ok out ->
    exists f',
      nth_error (heap (snd (iqr_loop cols k na l dc km w))) out = Some f'
      /\ columns f' = columns f
      /\ subseq (cells f') (cells f)
      /\ (cols = [] -> f' = f)
      /\ (cols <> [] -> dense_index f').
Proof.
  induction cols as [|col rest IH]; intros k na l dc km w f out Hf Hrun.
  - cbn in *. injection Hrun as <-. exists f.
    repeat split; try assumption; try apply subseq_refl. congruence.
  - rewrite (iqr_loop_cons col rest k na l dc km w f Hf) in *.
    destruct (getitem_col f col) as [s|]; [|discriminate].
    destruct (negb (numeric_kind (s_dtype s))); [discriminate|].
    destruct (mask_and km (column_mask s k na)) as [km'|e]; [|discriminate].
    destruct (getitem_mask f km') as [kept|e] eqn:Hkept; [|discriminate].
    cbn zeta in *.
    set (t := reset_index kept) in *.
    set (w1 := World (heap w ++ [t]) _) in *.
    assert (Ht : nth_error (heap w1) (length (heap w)) = Some t)
      by apply nth_error_alloc.
    destruct (IH k na (length (heap w))
                 (if Nat.ltb (df_len t) dc then df_len t else dc)
                 (BoolSeries km') w1 t out Ht Hrun)
      as (f' & Hf' & Hcols & Hsub & Hnil & Hcons).
    destruct (getitem_mask_shape f km' kept Hkept) as [Hkc Hks].
    exists f'. split; [exact Hf'|]. split; [rewrite Hcols; exact Hkc|].
    split.
    + eapply subseq_trans; [exact Hsub|].
      unfold cells, t. rewrite reset_index_cells.
      apply subseq_map. exact Hks.
    + split; [discriminate|]. intros _.
      destruct rest as [|c2 rest'].
      * rewrite (Hnil eq_refl). apply reset_index_index.
      * apply Hcons. discriminate.
Qed.

(** X7.  Whatever the column list, a frame [remove_outliers_iqr] returns
    has the columns of the input and some of its rows, cell for cell and
    in the original order: rows are dropped, never altered or reordered.
    With at least one column the result is re-indexed 0, 1, 2, ...; with
    an empty list it is a copy of the input, labels included. *)
Theorem remove_outliers_iqr_only_drops_rows
    (w : world) (gdf : loc) (f : DataFrame) (cols : list string) (k : Q)
    (treat_na_as_outlier : bool) (out : loc) :
  nth_error (heap w) gdf = Some f ->
  fst (remove_outliers_iqr gdf cols k treat_na_as_outlier w) = Ok out ->
  exists f',
    result_frame (remove_outliers_iqr gdf cols k treat_na_as_outlier w)
    = Some f'
    /\ columns f' = columns f
    /\ subseq (cells f') (cells f)
    /\ (cols = [] -> f' = f)
    /\ (cols <> [] -> dense_index f').
Proof.
  intros Hf Hrun. unfold result_frame. rewrite Hrun.
  rewrite (remove_outliers_iqr_unfold gdf cols k treat_na_as_outlier w f Hf)
    in *.
  apply (iqr_loop_shape cols k treat_na_as_outlier (length (heap w))
           (df_len f) (NdArray (map (fun _ => true) (index f)))
           (World (heap w ++ [f]) (stdout w)) f out
           (nth_error_alloc _ _) Hrun).
Qed.

Lemma remove_outliers_iqr_only_drops_rows_witness :
  exists f',
    result_frame (remove_outliers_iqr 0%nat ["a"; "b"] (3 # 2) true
                    (World [two_columns] []))
    = Some f'
    /\ columns f' = columns two_columns
    /\ subseq (cells f') (cells two_columns).
Proof.
  destruct (remove_outliers_iqr_only_drops_rows
              (World [two_columns] []) 0%nat two_columns ["a"; "b"] (3 # 2)
              true 3%nat eq_refl)
    as (f' & H1 & H2 & H3 & _).
  - vm_compute. reflexivity.
  - exists f'. repeat split; assumption.
Defined.

(** A listed column the current frame lacks makes the loop raise, whatever
    the columns before it do. *)
Lemma iqr_loop_missing cols :
  forall c k na l dc km w f,
    nth_error (heap w) l = Some f ->
    In c cols ->
    has_column f c = false ->
    exists e, fst (iqr_loop cols k na l dc km w) = Raise e.
Proof.
  induction cols as [|col rest IH]; intros c k na l dc km w f Hf Hin Hc;
    [destruct Hin|].
  rewrite (iqr_loop_cons col rest k na l dc km w f Hf).
  destruct (getitem_col f col) as [s|] eqn:Hs;
    [|eexists; reflexivity].
  destruct (negb (numeric_kind (s_dtype s))); [eexists; reflexivity|].
  destruct (mask_and km (column_mask s k na)) as [km'|e];
    [|eexists; reflexivity].
  destruct (getitem_mask f km') as [kept|e] eqn:Hkept;
    [|eexists; reflexivity].
  cbn zeta.
  destruct Hin as [->|Hin].
  - apply getitem_col_none in Hc. congruence.
  - apply (IH c k na _ _ _ _ (reset_index kept)); [apply nth_error_alloc|exact Hin|].
    destruct (getitem_mask_shape f km' kept Hkept) as [Hkc _].
    unfold has_column in *. cbn [reset_index columns]. rewrite Hkc. exact Hc.
Qed.

(** X8.  The checks at the head of the loop.  A listed column that the
    input lacks makes [remove_outliers_iqr] raise, wherever it stands in
    the list; when it stands first the exception is [KeyError] on that
    column, and when the first column is there but its dtype kind is not
    i, u or f it is [TypeError]; in both cases only the copy has been
    allocated and nothing is printed. *)
Theorem remove_outliers_iqr_column_errors
    (w : world) (gdf : loc) (f : DataFrame) (cols : list string) (k : Q)
    (treat_na_as_outlier : bool) (c : string) :
  nth_error (heap w) gdf = Some f ->
  let run := remove_outliers_iqr gdf cols k treat_na_as_outlier w in
  (In c cols -> has_column f c = false -> exists e, fst run = Raise e)
  /\ (forall rest,
         cols = c :: rest -> has_column f c = false ->
         run = (Raise (KeyError [c]), World (heap w ++ [f]) (stdout w)))
  /\ (forall rest s,
         cols = c :: rest -> getitem_col f c = Some s ->
         numeric_kind (s_dtype s) = false ->
         run = (Raise (TypeError c), World (heap w ++ [f]) (stdout w))).
Proof.
  intros Hf run. unfold run.
  rewrite (remove_outliers_iqr_unfold gdf cols k treat_na_as_outlier w f Hf).
  assert (Hcopy : nth_error (heap (World (heap w ++ [f]) (stdout w)))
                            (length (heap w)) = Some f)
    by apply nth_error_alloc.
  split; [|split].
  - intros Hin Hc.
    apply (iqr_loop_missing cols c k treat_na_as_outlier _ _ _ _ f Hcopy Hin Hc).
  - intros rest -> Hc.
    rewrite (iqr_loop_cons c rest k treat_na_as_outlier _ _ _ _ f Hcopy).
    apply getitem_col_none in Hc. rewrite Hc. reflexivity.
  - intros rest s -> Hs Hnum.
    rewrite (iqr_loop_cons c rest k treat_na_as_outlier _ _ _ _ f Hcopy).
    rewrite Hs, Hnum. reflexivity.
Qed.

Lemma remove_outliers_iqr_column_errors_witness :
  exists e,
    fst (remove_outliers_iqr 0%nat ["a"; "pot_mw"] (3 # 2) true
           (World [two_columns] []))
    = Raise e.
Proof.
  apply (proj1 (remove_outliers_iqr_column_errors
                  (World [two_columns] []) 0%nat two_columns ["a"; "pot_mw"]
                  (3 # 2) true "pot_mw" eq_refl)).
  - right. left. reflexivity.
  - reflexivity.
Defined.

(** * The outlier filter over the arithmetic of the column *)

Lemma and3_some (a b : bool) : and3 (Some a) (Some b) = Some (a && b).
Proof. destruct a, b; reflexivity. Qed.

(** The mask of a column, cell by cell. *)
Lemma column_mask_in_cells (A : arithmetic) s (k : scalar A) na :
  column_mask_in A s k na
  = map (fun lv => (fst lv, keeps (iqr_bounds_in A s k) na (snd lv)))
        (s_items s).
Proof.
  unfold column_mask_in.
  assert (H : forall fill,
             fillna_in
               (series_and_in
                  (series_ge_in A s (lower_limit_in (iqr_bounds_in A s k)))
                  (series_le_in A s (upper_limit_in (iqr_bounds_in A s k))))
               fill
             = map (fun lv =>
                      (fst lv,
                       fill3 (col_inlier_in (iqr_bounds_in A s k) (snd lv))
                             fill))
                   (s_items s)).
  { intros fill. unfold fillna_in, series_and_in, series_ge_in, series_le_in.
    rewrite combine_map_same, !map_map. reflexivity. }
  unfold keeps. destruct na; apply H.
Qed.

(** One iteration of the column loop, run on a heap that holds the current
    frame. *)
Lemma iqr_loop_in_cons (A : arithmetic) col rest (k : scalar A) na l dc km
    w f :
  nth_error (heap w) l = Some f ->
  iqr_loop_in A (col :: rest) k na l dc km w
  = match getitem_col f col with
    | None => (Raise (KeyError [col]), w)
    | Some s =>
        if negb (numeric_kind (s_dtype s)) then (Raise (TypeError col), w)
        else
          match mask_and km (column_mask_in A s k na) with
          | Raise e => (Raise e, w)
          | Ok km' =>
              match getitem_mask f km' with
              | Raise e => (Raise e, w)
              | Ok kept =>
                  let t := reset_index kept in
                  let n := df_len t in
                  iqr_loop_in A rest k na (length (heap w))
                    (if Nat.ltb n dc then n else dc) (BoolSeries km')
                    (World (heap w ++ [t])
                           (stdout w ++ if Nat.ltb n dc
                                        then [InfoOutliers (dc - n) col]
                                        else []))
              end
          end
    end.
Proof.
  intros Hf. cbn [iqr_loop_in]. unfold bind at 1. unfold load. rewrite Hf.
  unfold bind at 1.
  destruct (getitem_col f col) as [s|]; cbn [lift_option ret raise];
    [|reflexivity].
  destruct (negb (numeric_kind (s_dtype s))); [reflexivity|].
  unfold bind at 1. unfold lift at 1.
  destruct (mask_and km (column_mask_in A s k na)) as [km'|e]; [|reflexivity].
  unfold bind at 1. unfold lift at 1.
  destruct (getitem_mask f km') as [kept|e]; [|reflexivity].
  unfold bind at 1. unfold alloc at 1. cbn [heap stdout].
  unfold bind at 1.
  destruct (Nat.ltb (df_len (reset_index kept)) dc);
    cbn [print ret heap stdout]; [reflexivity|].
  rewrite app_nil_r. destruct w; reflexivity.
Qed.

Lemma remove_outliers_iqr_in_unfold (A : arithmetic) gdf cols (k : scalar A)
    na w f :
  nth_error (heap w) gdf = Some f ->
  remove_outliers_iqr_in A gdf cols k na w
  = iqr_loop_in A cols k na (length (heap w)) (df_len f)
                (NdArray (map (fun _ => true) (index f)))
                (World (heap w ++ [f]) (stdout w)).
Proof.
  intros Hf. unfold remove_outliers_iqr_in, bind, load, alloc. rewrite Hf.
  reflexivity.
Qed.

(** The model of the earlier sections is the instance for exact
    arithmetic. *)
Lemma column_mask_in_exact s k na :
  column_mask_in exact s (Some k) na = column_mask s k na.
Proof.
  rewrite column_mask_in_cells, column_mask_cells. apply map_ext.
  intros lv. f_equal. unfold keeps, col_inlier_in, inlier.
  cbn [a_ge a_le exact]. rewrite and3_some. reflexivity.
Qed.

Lemma iqr_loop_in_exact cols :
  forall k na l dc km w,
    iqr_loop_in exact cols (Some k) na l dc km w
    = iqr_loop cols k na l dc km w.
Proof.
  induction cols as [|col rest IH]; intros k na l dc km w; [reflexivity|].
  destruct (nth_error (heap w) l) as [f|] eqn:Hf.
  - rewrite (iqr_loop_in_cons exact col rest (Some k) na l dc km w f Hf).
    rewrite (iqr_loop_cons col rest k na l dc km w f Hf).
    destruct (getitem_col f col) as [s|]; [|reflexivity].
    destruct (negb (numeric_kind (s_dtype s))); [reflexivity|].
    rewrite column_mask_in_exact.
    destruct (mask_and km (column_mask s k na)) as [km'|e]; [|reflexivity].
    destruct (getitem_mask f km') as [kept|e]; [|reflexivity].
    cbn zeta. apply IH.
  - cbn [iqr_loop_in iqr_loop]. unfold bind, load. rewrite Hf. reflexivity.
Qed.

Lemma remove_outliers_iqr_in_exact gdf cols k na w :
  remove_outliers_iqr_in exact gdf cols (Some k) na w
  = remove_outliers_iqr gdf cols k na w.
Proof.
  unfold remove_outliers_iqr_in, remove_outliers_iqr, bind.
  destruct (load gdf w) as [[g|e] w1]; [|reflexivity].
  destruct (alloc g w1) as [[l|e] w2]; [|reflexivity].
  apply iqr_loop_in_exact.
Qed.

(** A call with a single column: the copy and one filtered, re-indexed
    frame are allocated. *)
Lemma remove_outliers_iqr_in_one (A : arithmetic) w gdf f col s
    (k : scalar A) na :
  nth_error (heap w) gdf = Some f ->
  getitem_col f col = Some s ->
  numeric_kind (s_dtype s) = true ->
  remove_outliers_iqr_in A gdf [col] k na w
  = let t := reset_index
               (Frame (columns f)
                      (filter (fun lr => keeps (iqr_bounds_in A s k) na
                                               (cell f col (snd lr)))
                              (rows f))) in
    (Ok (S (length (heap w))),
     World (heap w ++ [f; t])
           (stdout w ++ if Nat.ltb (df_len t) (df_len f)
                        then [InfoOutliers (df_len f - df_len t) col]
                        else [])).
Proof.
  intros Hf Hs Hnum.
  rewrite (remove_outliers_iqr_in_unfold A gdf [col] k na w f Hf).
  rewrite (iqr_loop_in_cons A col [] k na (length (heap w)) (df_len f) _
             (World (heap w ++ [f]) (stdout w)) f (nth_error_alloc _ _)).
  rewrite Hs, Hnum. cbn [negb].
  rewrite mask_and_all_true
    by (rewrite column_mask_in_cells, length_map;
        unfold index; rewrite length_map;
        symmetry; apply (getitem_col_length f col s Hs)).
  rewrite getitem_mask_same_index
    by (rewrite column_mask_in_cells; unfold labels; rewrite map_map;
        cbn [fst]; apply (getitem_col_labels f col s Hs)).
  rewrite column_mask_in_cells, map_map. cbn [snd].
  rewrite (getitem_col_items f col s Hs), map_map. cbn [snd fst].
  rewrite (select_filter f (fun lr => keeps (iqr_bounds_in A s k) na
                                            (cell f col (snd lr)))).
  cbn [iqr_loop_in heap stdout]. unfold ret.
  rewrite <- app_assoc, length_app, Nat.add_comm. reflexivity.
Qed.

(** The cells of the frame a single-column call returns. *)
Lemma remove_outliers_iqr_in_one_cells (A : arithmetic) w gdf f col s
    (k : scalar A) na :
  nth_error (heap w) gdf = Some f ->
  getitem_col f col = Some s ->
  numeric_kind (s_dtype s) = true ->
  exists t,
    result_frame (remove_outliers_iqr_in A gdf [col] k na w) = Some t
    /\ columns t = columns f
    /\ cells t = filter (fun r => keeps (iqr_bounds_in A s k) na
                                        (cell f col r)) (cells f).
Proof.
  intros Hf Hs Hnum.
  rewrite (remove_outliers_iqr_in_one A w gdf f col s k na Hf Hs Hnum).
  cbn zeta. eexists. split.
  - unfold result_frame. cbn [fst snd heap].
    rewrite nth_error_app2 by lia.
    replace (S (length (heap w)) - length (heap w))%nat with 1%nat by lia.
    reflexivity.
  - split; [reflexivity|].
    unfold cells. rewrite reset_index_cells. cbn [rows].
    generalize (rows f). intros l.
    induction l as [|lr l IH]; cbn [filter map]; [reflexivity|].
    destruct (keeps (iqr_bounds_in A s k) na (cell f col (snd lr)));
      cbn [map]; rewrite IH; reflexivity.
Qed.

(** On a NumPy dtype the two fills give the same mask. *)
Lemma column_mask_in_numpy (A : arithmetic) s (k : scalar A) :
  numpy_backed A ->
  column_mask_in A s k false = column_mask_in A s k true.
Proof.
  intros Hnp. rewrite !column_mask_in_cells. apply map_ext. intros lv.
  f_equal. unfold keeps, col_inlier_in.
  destruct (Hnp (snd lv) (lower_limit_in (iqr_bounds_in A s k))) as [Hge _].
  destruct (Hnp (snd lv) (upper_limit_in (iqr_bounds_in A s k))) as [_ Hle].
  destruct (a_ge A (snd lv) _) as [a|]; [|congruence].
  destruct (a_le A (snd lv) _) as [b|]; [|congruence].
  rewrite and3_some. reflexivity.
Qed.

Lemma iqr_loop_in_numpy (A : arithmetic) cols :
  numpy_backed A ->
  forall (k : scalar A) l dc km w,
    iqr_loop_in A cols k false l dc km w = iqr_loop_in A cols k true l dc km w.
Proof.
  intros Hnp. induction cols as [|col rest IH]; intros k l dc km w;
    [reflexivity|].
  destruct (nth_error (heap w) l) as [f|] eqn:Hf.
  - rewrite !(iqr_loop_in_cons A col rest k _ l dc km w f Hf).
    destruct (getitem_col f col) as [s|]; [|reflexivity].
    destruct (negb (numeric_kind (s_dtype s))); [reflexivity|].
    rewrite (column_mask_in_numpy A s k Hnp).
    destruct (mask_and km (column_mask_in A s k true)) as [km'|e];
      [|reflexivity].
    destruct (getitem_mask f km') as [kept|e]; [|reflexivity].
    cbn zeta. apply IH.
  - cbn [iqr_loop_in]. unfold bind, load. rewrite Hf. reflexivity.
Qed.

Lemma keeps_true_iff (A : arithmetic) (b : bounds_in A) v :
  keeps b true v = true
  <-> a_ge A v (lower_limit_in b) = Some true
      /\ a_le A v (upper_limit_in b) = Some true.
Proof.
  unfold keeps, col_inlier_in.
  destruct (a_ge A v (lower_limit_in b)) as [[|]|],
           (a_le A v (upper_limit_in b)) as [[|]|]; cbn;
    split; try intros [? ?]; try congruence; auto.
Qed.


(** X9.  What [treat_na_as_outlier] changes.  On a NumPy dtype, where a
    comparison is [True] or [False] and never missing, nothing: for every
    frame, column list and factor both settings give the same run, the
    fill having nothing to fill.  On one numeric column of any dtype, in a frame
    with distinct column names, both settings return, and the two results differ exactly by the rows whose
    test is missing (a missing value of a nullable dtype): [False] keeps
    them, [True] drops them.  And with [True], as long as a null never
    compares as greater or equal, no surviving row has a null in the
    column. *)
Theorem remove_outliers_iqr_null_policy
    (A : arithmetic) (w : world) (gdf : loc) (f : DataFrame) :
  nth_error (heap w) gdf = Some f ->
  (numpy_backed A ->
   forall cols k,
     remove_outliers_iqr_in A gdf cols k false w
     = remove_outliers_iqr_in A gdf cols k true w)
  /\ forall col s k,
      NoDup (names f) ->
      getitem_col f col = Some s ->
      numeric_kind (s_dtype s) = true ->
      let b := iqr_bounds_in A s k in
      exists t_keep t_drop,
        result_frame (remove_outliers_iqr_in A gdf [col] k false w)
        = Some t_keep
        /\ result_frame (remove_outliers_iqr_in A gdf [col] k true w)
           = Some t_drop
        /\ (forall r,
               In r (cells f) -> col_inlier_in b (cell f col r) = None ->
               In r (cells t_keep) /\ ~ In r (cells t_drop))
        /\ (forall r,
               col_inlier_in b (cell f col r) <> None ->
               (In r (cells t_keep) <-> In r (cells t_drop)))
        /\ ((forall x, a_ge A VNull x <> Some true) ->
            forall r, In r (cells t_drop) -> cell t_drop col r <> VNull).
Proof.
  intros Hf. split.
  - intros Hnp cols k.
    rewrite !(remove_outliers_iqr_in_unfold A gdf cols k _ w f Hf).
    apply iqr_loop_in_numpy. exact Hnp.
  - intros col s k _ Hs Hnum b.
    destruct (remove_outliers_iqr_in_one_cells A w gdf f col s k false
                Hf Hs Hnum) as (t_keep & Hk & Ck & Hck).
    destruct (remove_outliers_iqr_in_one_cells A w gdf f col s k true
                Hf Hs Hnum) as (t_drop & Hd & Cd & Hcd).
    fold b in Hck, Hcd.
    exists t_keep, t_drop. split; [exact Hk|]. split; [exact Hd|].
    split; [|split].
    + intros r Hin Hna. rewrite Hck, Hcd, !filter_In.
      unfold keeps. rewrite Hna. cbn [fill3 negb]. split.
      * split; [exact Hin|reflexivity].
      * intros [_ H]. discriminate.
    + intros r Hna. rewrite Hck, Hcd, !filter_In. unfold keeps.
      destruct (col_inlier_in b (cell f col r)) as [x|]; [|congruence].
      cbn [fill3]. reflexivity.
    + intros Hnull r Hin Hr. rewrite Hcd in Hin. apply filter_In in Hin.
      destruct Hin as [_ Hkept]. apply keeps_true_iff in Hkept.
      assert (Hcell : cell t_drop col r = cell f col r)
        by (unfold cell; rewrite Cd; reflexivity).
      rewrite Hcell in Hr. rewrite Hr in Hkept.
      exact (Hnull _ (proj1 Hkept)).
Qed.

Lemma remove_outliers_iqr_null_policy_witness :
  (remove_outliers_iqr_in exact 0%nat ["pot_mw"] (Some (3 # 2)) false
                          (World [gap_frame] [])
   = remove_outliers_iqr_in exact 0%nat ["pot_mw"] (Some (3 # 2)) true
                            (World [gap_frame] []))
  /\ exists t_keep t_drop,
      result_frame (remove_outliers_iqr_in nullable 0%nat ["pot_mw"]
                      (Some (3 # 2)) false (World [gap_frame] []))
      = Some t_keep
      /\ result_frame (remove_outliers_iqr_in nullable 0%nat ["pot_mw"]
                         (Some (3 # 2)) true (World [gap_frame] []))
         = Some t_drop
      /\ In [VNull] (cells t_keep) /\ ~ In [VNull] (cells t_drop).
Proof.
  assert (Hnp : numpy_backed exact)
    by (intros v x; split; discriminate).
  assert (Hnd : NoDup (names gap_frame))
    by (repeat constructor; cbn; intuition).
  split.
  - apply (proj1 (remove_outliers_iqr_null_policy exact
                    (World [gap_frame] []) 0%nat gap_frame eq_refl) Hnp).
  - destruct (proj2 (remove_outliers_iqr_null_policy nullable
                       (World [gap_frame] []) 0%nat gap_frame eq_refl)
                "pot_mw" _ (Some (3 # 2)) Hnd eq_refl eq_refl)
      as (t_keep & t_drop & Hk & Hd & Hna & _).
    exists t_keep, t_drop. split; [exact Hk|]. split; [exact Hd|].
    apply (Hna [VNull]).
    + cbn. right. left. reflexivity.
    + reflexivity.
Defined.

(** On a column with a missing value: a nullable dtype keeps the row under
    [False] and drops it under [True]; a NumPy dtype drops it under both. *)
Example remove_outliers_iqr_gap :
  option_map cells
    (result_frame (remove_outliers_iqr_in nullable 0%nat ["pot_mw"]
                     (Some (3 # 2)) false (World [gap_frame] [])))
  = Some [[num 1]; [VNull]; [num 2]; [num 3]]
  /\ option_map cells
       (result_frame (remove_outliers_iqr_in nullable 0%nat ["pot_mw"]
                        (Some (3 # 2)) true (World [gap_frame] [])))
     = Some [[num 1]; [num 2]; [num 3]]
  /\ option_map cells
       (result_frame (remove_outliers_iqr_in exact 0%nat ["pot_mw"]
                        (Some (3 # 2)) false (World [gap_frame] [])))
     = Some [[num 1]; [num 2]; [num 3]].
Proof. repeat split; vm_compute; reflexivity. Qed.



(** * More on the steps of the cascade *)

Lemma filter_idem {A} (p : A -> bool) (l : list A) :
  filter p (filter p l) = filter p l.
Proof.
  induction l as [|x t IH]; cbn; [reflexivity|].
  destruct (p x) eqn:E; cbn; [rewrite E, IH|]; auto.
Qed.


Lemma dropna_run f subset :
  dropna f subset
  = match missing_columns f subset with
    | [] => Ok (Frame (columns f) (filter (complete_row f subset) (rows f)))
    | missing => Raise (KeyError missing)
    end.
Proof. reflexivity. Qed.

(** X11.  The completeness filter (step 2.3).  When a mandatory column is
    absent the step raises [KeyError] listing exactly the absent ones and
    changes nothing.  Otherwise it returns the rows that have no null in
    any of the seven mandatory columns, with their labels and in order,
    and no other row; applied again to its result it removes nothing. *)
Theorem step_nulls_complete_rows (w : world) (gdf : loc) (f : DataFrame) :
  nth_error (heap w) gdf = Some f ->
  (missing_columns f drop_na_columns <> [] ->
   step_nulls gdf w
   = (Raise (KeyError (missing_columns f drop_na_columns)), w))
  /\ (missing_columns f drop_na_columns = [] ->
      exists t w',
        step_nulls gdf w = (Ok (length (heap w)), w')
        /\ nth_error (heap w') (length (heap w)) = Some t
        /\ columns t = columns f
        /\ subseq (rows t) (rows f)
        /\ (forall lr,
               In lr (rows t)
               <-> In lr (rows f)
                   /\ forall c, In c drop_na_columns ->
                                cell f c (snd lr) <> VNull)
        /\ exists w'',
            step_nulls (length (heap w)) w' = (Ok (S (length (heap w))), w'')
            /\ nth_error (heap w'') (S (length (heap w))) = Some t).
Proof.
  intros Hf. rewrite (step_nulls_run w gdf f Hf), dropna_run. split.
  - intros Hm. destruct (missing_columns f drop_na_columns); [congruence|].
    reflexivity.
  - intros Hm. rewrite Hm.
    set (t := Frame (columns f)
                    (filter (complete_row f drop_na_columns) (rows f))).
    exists t. eexists. split; [reflexivity|]. cbn [heap].
    split; [apply nth_error_alloc|]. split; [reflexivity|].
    split; [apply subseq_filter|]. split.
    + intros lr. cbn [rows t]. rewrite filter_In. unfold complete_row.
      rewrite forallb_forall. split; intros [Hin Hc]; split; try exact Hin.
      * intros c Hcin Hnull. specialize (Hc c Hcin). rewrite Hnull in Hc.
        discriminate.
      * intros c Hcin. specialize (Hc c Hcin).
        destruct (cell f c (snd lr)); try reflexivity. congruence.
    + set (w1 := World (heap w ++ [t]) _).
      assert (Ht : nth_error (heap w1) (length (heap w)) = Some t)
        by apply nth_error_alloc.
      rewrite (step_nulls_run w1 (length (heap w)) t Ht), dropna_run.
      assert (Hmt : missing_columns t drop_na_columns = []) by exact Hm.
      rewrite Hmt. eexists. split.
      * cbn [heap w1]. rewrite length_app, Nat.add_comm. reflexivity.
      * cbn [heap w1 rows columns t].
        change (complete_row (Frame (columns f) _) drop_na_columns)
          with (complete_row f drop_na_columns).
        rewrite filter_idem.
        rewrite <- app_assoc. cbn [app].
        rewrite nth_error_app2 by lia.
        replace (S (length (heap w)) - length (heap w))%nat with 1%nat by lia.
        reflexivity.
Qed.

Lemma step_nulls_complete_rows_witness :
  exists t w',
    step_nulls 0%nat (World [raw_frame] []) = (Ok 1%nat, w')
    /\ nth_error (heap w') 1 = Some t
    /\ columns t = columns raw_frame
    /\ subseq (rows t) (rows raw_frame).
Proof.
  destruct (proj2 (step_nulls_complete_rows (World [raw_frame] []) 0%nat
                     raw_frame eq_refl) eq_refl)
    as (t & w' & H1 & H2 & H3 & H4 & _).
  exists t, w'. repeat split; assumption.
Defined.

Lemma existsb_cons_weaker (k0 : list value) (seen1 seen2 : list (list value)) :
  (forall k, existsb (key_eqb k) seen2 = true ->
             existsb (key_eqb k) seen1 = true) ->
  forall k, existsb (key_eqb k) (k0 :: seen2) = true ->
            existsb (key_eqb k) (k0 :: seen1) = true.
Proof.
  intros H k. cbn [existsb]. rewrite !orb_true_iff.
  intros [Hk|Hk]; [left; exact Hk|right; apply H; exact Hk].
Qed.

(** Among the keys [drop_duplicates] keeps, none is a duplicate. *)
Lemma duplicated_kept keys :
  forall seen1 seen2,
    (forall k, existsb (key_eqb k) seen2 = true ->
               existsb (key_eqb k) seen1 = true) ->
    duplicated seen2 (kept_keys seen1 keys)
    = map (fun _ => false) (kept_keys seen1 keys).
Proof.
  unfold kept_keys.
  induction keys as [|k rest IH]; intros seen1 seen2 Hw; [reflexivity|].
  cbn [duplicated map combine filter].
  destruct (existsb (key_eqb k) seen1) eqn:E; cbn [negb fst filter map snd].
  - apply IH. intros k' Hk'. cbn [existsb]. apply orb_true_iff. right.
    apply Hw. exact Hk'.
  - cbn [duplicated]. f_equal.
    + destruct (existsb (key_eqb k) seen2) eqn:E2; [|reflexivity].
      rewrite (Hw k E2) in E. discriminate.
    + apply IH. apply existsb_cons_weaker. exact Hw.
Qed.

Lemma select_map {A B} (g : A -> B) (bs : list bool) :
  forall l : list A,
    map g (map snd (filter fst (combine bs l)))
    = map snd (filter fst (combine bs (map g l))).
Proof.
  induction bs as [|b bs IH]; intros [|x l]; cbn [combine filter map];
    try reflexivity.
  destruct b; cbn [fst filter map snd]; rewrite IH; reflexivity.
Qed.

Lemma select_all_true {A} (l : list A) :
  map snd (filter fst (combine (map (fun _ => true) l) l)) = l.
Proof. induction l as [|x t IH]; cbn; [reflexivity|]. rewrite IH. reflexivity. Qed.

Lemma reset_index_twice f : reset_index (reset_index f) = reset_index f.
Proof.
  unfold reset_index at 1. rewrite reset_index_len.
  fold (cells (reset_index f)). unfold cells. rewrite reset_index_cells.
  reflexivity.
Qed.

(** The keys of the rows the duplicate filter keeps. *)
Lemma drop_duplicates_keys f subset t :
  drop_duplicates f subset = Ok t ->
  columns t = columns f
  /\ map (row_key f subset) (cells t)
     = kept_keys [] (map (row_key f subset) (cells f)).
Proof.
  unfold drop_duplicates. destruct (missing_columns f subset); [|discriminate].
  intros H; injection H as <-. split; [reflexivity|].
  unfold cells, select, kept_keys. cbn [rows].
  rewrite !select_map, !map_map. reflexivity.
Qed.

(** X12.  The duplicate filter (step 4).  Without a [latitude] or a
    [longitude] column it raises [KeyError] and changes nothing.  Otherwise
    no two rows of the frame it returns have the same (latitude, longitude)
    pair, and the step applied again to that frame returns the same frame:
    a de-duplicated table is a fixed point. *)
Theorem step_duplicates_fixed_point (w : world) (gdf : loc) (f : DataFrame) :
  nth_error (heap w) gdf = Some f ->
  (missing_columns f coordinates <> [] ->
   step_duplicates gdf w
   = (Raise (KeyError (missing_columns f coordinates)), w))
  /\ (missing_columns f coordinates = [] ->
      exists t w',
        step_duplicates gdf w = (Ok (length (heap w)), w')
        /\ nth_error (heap w') (length (heap w)) = Some t
        /\ (forall i j ri rj,
               (i < j)%nat ->
               nth_error (cells t) i = Some ri ->
               nth_error (cells t) j = Some rj ->
               key_eqb (row_key t coordinates rj) (row_key t coordinates ri)
               = false)
        /\ exists w'',
            step_duplicates (length (heap w)) w'
            = (Ok (S (length (heap w))), w'')
            /\ nth_error (heap w'') (S (length (heap w))) = Some t).
Proof.
  intros Hf. rewrite (step_duplicates_run w gdf f Hf).
  fold coordinates. split.
  - intros Hm. unfold drop_duplicates.
    destruct (missing_columns f coordinates); [congruence|reflexivity].
  - intros Hm.
    destruct (drop_duplicates f coordinates) as [u|e] eqn:Hd;
      [|unfold drop_duplicates in Hd; rewrite Hm in Hd; discriminate].
    destruct (drop_duplicates_keys f coordinates u Hd) as [Hcols Hkeys].
    set (t := reset_index u).
    assert (Hct : columns t = columns f) by exact Hcols.
    assert (Hkey : forall r, row_key t coordinates r = row_key f coordinates r).
    { intros r. unfold row_key, cell. rewrite Hct. reflexivity. }
    assert (Hkt : map (row_key t coordinates) (cells t)
                  = kept_keys [] (map (row_key f coordinates) (cells f))).
    { assert (Hcu : cells t = cells u) by apply reset_index_cells.
      rewrite Hcu, <- Hkeys. apply map_ext. exact Hkey. }
    assert (Hnodup : duplicated [] (map (row_key t coordinates) (cells t))
                     = map (fun _ => false)
                           (map (row_key t coordinates) (cells t))).
    { rewrite Hkt. apply duplicated_kept. intros k Hk. exact Hk. }
    exists t. eexists. split; [reflexivity|]. cbn [heap].
    split; [apply nth_error_alloc|]. split.
    + intros i j ri rj Hij Hi Hj.
      assert (Hkj : nth_error (map (row_key t coordinates) (cells t)) j
                    = Some (row_key t coordinates rj))
        by (rewrite nth_error_map, Hj; reflexivity).
      pose proof (duplicated_nth _ [] j _ Hkj) as Hd'.
      rewrite Hnodup, nth_error_map, Hkj, app_nil_r in Hd'.
      cbn [option_map] in Hd'. injection Hd' as Hd'. symmetry in Hd'.
      destruct (key_eqb (row_key t coordinates rj) (row_key t coordinates ri))
        eqn:E; [|reflexivity].
      assert (Hex : existsb (key_eqb (row_key t coordinates rj))
                      (rev (firstn j (map (row_key t coordinates) (cells t))))
                    = true).
      { apply existsb_exists. exists (row_key t coordinates ri).
        split; [|exact E]. apply in_rev. rewrite rev_involutive.
        apply in_firstn_nth. exists i. split; [exact Hij|].
        rewrite nth_error_map, Hi. reflexivity. }
      exfalso. exact (eq_true_false_abs _ Hex Hd').
    + set (w1 := World (heap w ++ [t]) _).
      assert (Ht : nth_error (heap w1) (length (heap w)) = Some t)
        by apply nth_error_alloc.
      rewrite (step_duplicates_run w1 (length (heap w)) t Ht).
      fold coordinates.
      assert (Hmt : missing_columns t coordinates = []).
      { unfold missing_columns, has_column in *. rewrite Hct. exact Hm. }
      assert (Hdt : drop_duplicates t coordinates = Ok (Frame (columns t) (rows t))).
      { unfold drop_duplicates. rewrite Hmt. unfold select. do 2 f_equal.
        assert (Hk2 : map (fun lr : label * list value =>
                             row_key t coordinates (snd lr)) (rows t)
                      = map (row_key t coordinates) (cells t))
          by (unfold cells; rewrite map_map; reflexivity).
        rewrite Hk2, Hnodup. unfold cells. rewrite !map_map. cbn [negb].
        apply select_all_true. }
      rewrite Hdt. eexists. split.
      * cbn [heap w1]. rewrite length_app, Nat.add_comm. reflexivity.
      * cbn [heap w1].
        rewrite <- app_assoc. cbn [app].
        rewrite nth_error_app2 by lia.
        replace (S (length (heap w)) - length (heap w))%nat with 1%nat by lia.
        cbn [nth_error]. f_equal.
        assert (Hsame : Frame (columns t) (rows t) = t) by (destruct t; reflexivity).
        rewrite Hsame. unfold t. apply reset_index_twice.
Qed.

Lemma step_duplicates_fixed_point_witness :
  exists t w',
    step_duplicates 0%nat (World [twin_frame] []) = (Ok 1%nat, w')
    /\ nth_error (heap w') 1 = Some t.
Proof.
  destruct (proj2 (step_duplicates_fixed_point (World [twin_frame] []) 0%nat
                     twin_frame eq_refl) eq_refl)
    as (t & w' & H1 & H2 & _).
  exists t, w'. split; assumption.
Defined.




(** * The cascade and the caller's frame *)

Lemma untouched_bind n (m : M loc) (k : loc -> M loc) :
  untouched_below n m ->
  (forall g, (n <= g)%nat -> untouched_below n (k g)) ->
  untouched_below n (bind m k).
Proof.
  intros Hm Hk w Hn. destruct (Hm w Hn) as (H1 & H2 & H3).
  unfold bind. destruct (m w) as [[g|e] w1] eqn:E; cbn [fst snd] in *.
  - destruct (Hk g (H3 g eq_refl) w1 H2) as (K1 & K2 & K3).
    repeat split.
    + intros l Hl. rewrite (K1 l Hl). apply H1. exact Hl.
    + exact K2.
    + exact K3.
  - split; [exact H1|]. split; [exact H2|exact H3].
Qed.

Lemma untouched_raise n (e : exn) (w : world) :
  (n <= length (heap w))%nat ->
  (forall l, (l < n)%nat -> nth_error (heap w) l = nth_error (heap w) l)
  /\ (n <= length (heap w))%nat
  /\ forall out, @Raise loc e = Ok out -> (n <= out)%nat.
Proof. intros H. split; [reflexivity|]. split; [exact H|discriminate]. Qed.

Lemma untouched_append n (w : world) (extra : list DataFrame) (out : loc) :
  (n <= length (heap w))%nat ->
  (length (heap w) <= out)%nat ->
  (forall l, (l < n)%nat ->
             nth_error (heap w ++ extra) l = nth_error (heap w) l)
  /\ (n <= length (heap w ++ extra))%nat
  /\ forall out', Ok out = Ok out' -> (n <= out')%nat.
Proof.
  intros Hn Hout. split; [|split].
  - intros l Hl. apply nth_error_app1. lia.
  - rewrite length_app. lia.
  - intros out' H. injection H as <-. lia.
Qed.

Lemma step_geometry_untouched n g : untouched_below n (step_geometry g).
Proof.
  intros w Hn. destruct (nth_error (heap w) g) as [f|] eqn:Hf.
  - rewrite (step_geometry_run w g f Hf).
    destruct (getitem_col f "geometry"); [|apply untouched_raise; exact Hn].
    cbn zeta. cbn [fst snd heap]. apply untouched_append; lia.
  - unfold step_geometry, bind, load. rewrite Hf.
    apply untouched_raise; exact Hn.
Qed.

Lemma step_version_untouched n g : untouched_below n (step_version g).
Proof.
  intros w Hn. destruct (nth_error (heap w) g) as [f|] eqn:Hf.
  - rewrite (step_version_run w g f Hf).
    destruct (getitem_col f "versao"); [|apply untouched_raise; exact Hn].
    cbn zeta. cbn [fst snd heap]. apply untouched_append; lia.
  - unfold step_version, bind, load. rewrite Hf.
    apply untouched_raise; exact Hn.
Qed.

Lemma step_operation_untouched n g :
  (n <= g)%nat -> untouched_below n (step_operation g).
Proof.
  intros Hg w Hn. destruct (nth_error (heap w) g) as [f|] eqn:Hf.
  - destruct (position "operacao" (columns f)) as [i|] eqn:Hi.
    + assert (Hs : exists s, getitem_col f "operacao" = Some s)
        by (apply getitem_col_has; unfold has_column; rewrite Hi;
            reflexivity).
      destruct Hs as [s Hs].
      rewrite (step_operation_run w g f i s Hf Hi Hs).
      cbn zeta. cbn [fst snd heap]. split; [|split].
      * intros l Hl. rewrite nth_error_app1 by (rewrite update_length; lia).
        apply nth_error_update_other. lia.
      * rewrite length_app, update_length. lia.
      * intros out H. injection H as <-. lia.
    + rewrite (step_operation_missing w g f Hf Hi).
      apply untouched_raise; exact Hn.
  - unfold step_operation, bind, load. rewrite Hf.
    apply untouched_raise; exact Hn.
Qed.

Lemma step_nulls_untouched n g : untouched_below n (step_nulls g).
Proof.
  intros w Hn. destruct (nth_error (heap w) g) as [f|] eqn:Hf.
  - rewrite (step_nulls_run w g f Hf).
    destruct (dropna f drop_na_columns); [|apply untouched_raise; exact Hn].
    cbn [fst snd heap]. apply untouched_append; lia.
  - unfold step_nulls, bind, load. rewrite Hf.
    apply untouched_raise; exact Hn.
Qed.

Lemma step_outliers_untouched n g : untouched_below n (step_outliers g).
Proof.
  intros w Hn. unfold step_outliers.
  destruct (nth_error (heap w) g) as [f|] eqn:Hf.
  - rewrite (remove_outliers_iqr_unfold g check_outliers 3 true w f Hf).
    destruct (iqr_loop_sound check_outliers 3 true (length (heap w))
                (df_len f) (NdArray (map (fun _ => true) (index f)))
                (World (heap w ++ [f]) (stdout w)) f (nth_error_alloc _ _))
      as [Hg Hout].
    set (run := iqr_loop _ _ _ _ _ _ _) in *.
    assert (Hgrow : grows w (snd run)).
    { eapply grows_trans; [|exact Hg]. exists [f]. reflexivity. }
    split; [|split].
    + intros l Hl. destruct Hgrow as [extra ->]. apply nth_error_app1. lia.
    + pose proof (grows_length _ _ Hgrow). lia.
    + intros out H. destruct (Hout out H) as [[->|Hl] _]; [lia|].
      cbn [heap] in Hl. rewrite length_app in Hl. lia.
  - unfold remove_outliers_iqr, bind, load. rewrite Hf.
    apply untouched_raise; exact Hn.
Qed.

Lemma step_duplicates_untouched n g : untouched_below n (step_duplicates g).
Proof.
  intros w Hn. destruct (nth_error (heap w) g) as [f|] eqn:Hf.
  - rewrite (step_duplicates_run w g f Hf).
    destruct (drop_duplicates f ["latitude"; "longitude"]);
      [|apply untouched_raise; exact Hn].
    cbn [fst snd heap]. apply untouched_append; lia.
  - unfold step_duplicates, bind, load. rewrite Hf.
    apply untouched_raise; exact Hn.
Qed.

Lemma step_prune_untouched n g :
  (n <= g)%nat -> untouched_below n (step_prune g).
Proof.
  intros Hg w Hn. destruct (nth_error (heap w) g) as [f|] eqn:Hf.
  - rewrite (step_prune_run w g f Hf).
    destruct (drop f drop_columns); [|apply untouched_raise; exact Hn].
    cbn [fst snd heap]. split; [|split].
    + intros l Hl. apply nth_error_update_other. lia.
    + rewrite update_length. exact Hn.
    + intros out H. injection H as <-. exact Hg.
  - unfold step_prune, bind, load. rewrite Hf.
    apply untouched_raise; exact Hn.
Qed.

(** X14.  [validate_gdf] leaves the caller's table alone.  It assigns a
    column and drops columns in place, but always on frames it has made
    itself: whether the call returns or raises, the frame it was given and
    every other frame that existed before the call are unchanged, and a
    frame it returns is one that did not exist before. *)
Theorem validate_gdf_preserves_input
    (w : world) (gdf : loc) (f : DataFrame) :
  nth_error (heap w) gdf = Some f ->
  let run := validate_gdf gdf w in
  nth_error (heap (snd run)) gdf = Some f
  /\ (forall l g, nth_error (heap w) l = Some g ->
                  nth_error (heap (snd run)) l = Some g)
  /\ (forall out, fst run = Ok out ->
                  out <> gdf /\ nth_error (heap w) out = None).
Proof.
  intros Hf run. unfold run. rewrite (validate_gdf_unfold w gdf f Hf).
  set (n := length (heap w)).
  set (w0 := World (heap w) (stdout w ++ [InfoRaw (df_len f)])).
  assert (Hsafe : untouched_below n
                    (g1 <- step_geometry gdf ;;
                     g2 <- step_version g1 ;;
                     g3 <- step_operation g2 ;;
                     g4 <- step_nulls g3 ;;
                     g5 <- step_outliers g4 ;;
                     g6 <- step_duplicates g5 ;;
                     step_prune g6)).
  { apply untouched_bind; [apply step_geometry_untouched|]. intros g1 H1.
    apply untouched_bind; [apply step_version_untouched|]. intros g2 H2.
    apply untouched_bind; [apply step_operation_untouched; exact H2|].
    intros g3 H3.
    apply untouched_bind; [apply step_nulls_untouched|]. intros g4 H4.
    apply untouched_bind; [apply step_outliers_untouched|]. intros g5 H5.
    apply untouched_bind; [apply step_duplicates_untouched|]. intros g6 H6.
    apply step_prune_untouched. exact H6. }
  destruct (Hsafe w0 (Nat.le_refl n)) as (H1 & H2 & H3).
  assert (Hlt : forall l g, nth_error (heap w) l = Some g -> (l < n)%nat)
    by (intros l g Hl; apply nth_error_Some; congruence).
  split; [|split].
  - rewrite (H1 gdf (Hlt gdf f Hf)). exact Hf.
  - intros l g Hl. rewrite (H1 l (Hlt l g Hl)). exact Hl.
  - intros out Hout. specialize (H3 out Hout).
    pose proof (Hlt gdf f Hf). split; [lia|].
    apply nth_error_None. exact H3.
Qed.

Lemma validate_gdf_preserves_input_witness :
  nth_error (heap (snd (validate_gdf 0%nat (World [raw_frame] [])))) 0
  = Some raw_frame.
Proof.
  apply (proj1 (validate_gdf_preserves_input (World [raw_frame] []) 0%nat
                  raw_frame eq_refl)).
Defined.

(** * What a returning run of the cascade requires and delivers *)

Lemma position_names (c : string) :
  forall cs cs' : list (string * dtype),
    map fst cs = map fst cs' -> position c cs = position c cs'.
Proof.
  induction cs as [|[a d] cs IH]; intros [|[a' d'] cs'] H; cbn in H;
    try discriminate; [reflexivity|].
  injection H as -> H. cbn [position]. rewrite (IH cs' H). reflexivity.
Qed.

Lemma has_column_names f f' c :
  names f' = names f -> has_column f' c = has_column f c.
Proof.
  intros H. unfold has_column. rewrite (position_names c _ _ H). reflexivity.
Qed.

Lemma update_names (cs : list (string * dtype)) :
  forall i c d0 d,
    nth_error cs i = Some (c, d0) ->
    map fst (update cs i (c, d)) = map fst cs.
Proof.
  induction cs as [|[c' d'] cs IH]; intros [|i] c d0 d H; cbn in *;
    try discriminate.
  - injection H as -> ->. reflexivity.
  - rewrite (IH i c d0 d H). reflexivity.
Qed.

Lemma set_dtype_names i d cs : map fst (set_dtype i d cs) = map fst cs.
Proof.
  unfold set_dtype. destruct (nth_error cs i) as [[c d0]|] eqn:E;
    [|reflexivity].
  apply (update_names cs i c d0 d E).
Qed.

Lemma dtype_of_position f c :
  dtype_of f c
  = match position c (columns f) with
    | Some i => Some (snd (nth i (columns f) (c, Dobject)))
    | None => None
    end.
Proof.
  unfold dtype_of, getitem_col. destruct (position c (columns f));
    reflexivity.
Qed.

Lemma position_name (c : string) (cs : list (string * dtype)) :
  forall i, position c cs = Some i ->
            exists d, nth_error cs i = Some (c, d).
Proof.
  induction cs as [|[a d] cs IH]; intros i H; cbn in H; [discriminate|].
  destruct (String.eqb a c) eqn:E.
  - injection H as <-. apply String.eqb_eq in E. subst a. exists d.
    reflexivity.
  - destruct (position c cs) as [j|]; [|discriminate].
    injection H as <-. apply (IH j eq_refl).
Qed.

Lemma nth_update_other {A} (l : list A) :
  forall i j x d, i <> j -> nth j (update l i x) d = nth j l d.
Proof.
  induction l as [|h t IH]; intros [|i] [|j] x d Hij; cbn; try reflexivity.
  - contradiction.
  - apply IH. congruence.
Qed.

(** Re-typing the column of one name leaves the dtype of every column of
    another name. *)
Lemma dtype_of_set_dtype f a i d rs c :
  position a (columns f) = Some i ->
  c <> a ->
  dtype_of (Frame (set_dtype i d (columns f)) rs) c = dtype_of f c.
Proof.
  intros Hi Hca. rewrite !dtype_of_position. cbn [columns].
  rewrite position_set_dtype.
  destruct (position c (columns f)) as [j|] eqn:Hj; [|reflexivity].
  destruct (position_name a (columns f) i Hi) as [da Ha].
  destruct (position_name c (columns f) j Hj) as [dc Hc].
  assert (Hij : i <> j) by (intros ->; congruence).
  unfold set_dtype. rewrite Ha. rewrite nth_update_other by exact Hij.
  reflexivity.
Qed.

Lemma drop_shape f cols f' :
  drop f cols = Ok f' ->
  missing_columns f cols = []
  /\ names f' = filter (fun c => negb (mem_str c cols)) (names f)
  /\ index f' = index f
  /\ df_len f' = df_len f.
Proof.
  intros H. pose proof (drop_len f cols f' H) as Hlen.
  unfold drop in H. destruct (missing_columns f cols); [|discriminate].
  injection H as <-. split; [reflexivity|]. split; [|split].
  - unfold names. cbn [columns].
    rewrite (filter_fst_combine_map
               (fun cd : string * dtype => negb (mem_str (fst cd) cols))).
    symmetry. apply (filter_map_commute
                       (fun cd : string * dtype => fst cd)
                       (fun c => negb (mem_str c cols))).
  - unfold index. cbn [rows]. rewrite map_map. reflexivity.
  - exact Hlen.
Qed.

Lemma getitem_col_some_has f c s :
  getitem_col f c = Some s -> has_column f c = true.
Proof.
  intros H. destruct (has_column f c) eqn:E; [reflexivity|].
  apply getitem_col_none in E. congruence.
Qed.

Lemma nth_error_alloc2 {A} (h : list A) (a b : A) :
  nth_error (h ++ [a; b]) (S (length h)) = Some b.
Proof.
  rewrite nth_error_app2 by lia.
  replace (S (length h) - length h)%nat with 1%nat by lia. reflexivity.
Qed.

Lemma dtype_of_columns f f' c :
  columns f' = columns f -> dtype_of f' c = dtype_of f c.
Proof. intros H. rewrite !dtype_of_position, H. reflexivity. Qed.

Lemma has_column_columns f f' c :
  columns f' = columns f -> has_column f' c = has_column f c.
Proof. intros H. unfold has_column. rewrite H. reflexivity. Qed.

Lemma dense_index_relabel f f' :
  index f' = index f -> df_len f' = df_len f ->
  dense_index f -> dense_index f'.
Proof. unfold dense_index. intros -> ->. auto. Qed.

(** X15.  What a returning run of [validate_gdf] requires of its input and
    delivers.  The input has every column the cascade names (geometry,
    versao, operacao, the seven mandatory attributes, latitude, longitude
    and the whole drop set) and its [pot_mw] column has a numeric dtype;
    the frame returned has the column names of the input, in order,
    without the drop set, and the labels 0, 1, 2, ... *)
Theorem validate_gdf_schema
    (w : world) (gdf : loc) (f : DataFrame) (out : loc) (w' : world) :
  nth_error (heap w) gdf = Some f ->
  validate_gdf gdf w = (Ok out, w') ->
  (forall c, In c required_columns -> has_column f c = true)
  /\ (exists d, dtype_of f "pot_mw" = Some d /\ numeric_kind d = true)
  /\ exists f',
      nth_error (heap w') out = Some f'
      /\ names f' = filter (fun c => negb (mem_str c drop_columns)) (names f)
      /\ dense_index f'.
Proof.
  intros Hf Hrun.
  rewrite (validate_gdf_unfold w gdf f Hf) in Hrun.
  set (w0 := World (heap w) (stdout w ++ [InfoRaw (df_len f)])) in *.
  assert (Hf0 : nth_error (heap w0) gdf = Some f) by exact Hf.
  apply bind_ok in Hrun. destruct Hrun as (g1 & w1 & H1 & Hrun).
  apply bind_ok in Hrun. destruct Hrun as (g2 & w2 & H2 & Hrun).
  apply bind_ok in Hrun. destruct Hrun as (g3 & w3 & H3 & Hrun).
  apply bind_ok in Hrun. destruct Hrun as (g4 & w4 & H4 & Hrun).
  apply bind_ok in Hrun. destruct Hrun as (g5 & w5 & H5 & Hrun).
  apply bind_ok in Hrun. destruct Hrun as (g6 & w6 & H6 & H7).
  (* step 1 *)
  rewrite (step_geometry_run w0 gdf f Hf0) in H1.
  destruct (getitem_col f "geometry") as [sg|] eqn:G; [|discriminate].
  cbn zeta in H1.
  set (f1 := Frame (columns f)
               (filter (fun lr => is_valid (cell f "geometry" (snd lr))) _))
    in H1.
  assert (Hf1 : nth_error (heap w1) g1 = Some f1).
  { injection H1 as <- <-. cbn [heap]. apply nth_error_alloc2. }
  assert (C1 : columns f1 = columns f) by reflexivity.
  (* step 2.1 *)
  rewrite (step_version_run w1 g1 f1 Hf1) in H2.
  destruct (getitem_col f1 "versao") as [sv|] eqn:V; [|discriminate].
  cbn zeta in H2.
  set (f2 := Frame (columns f1) _) in H2.
  assert (Hf2 : nth_error (heap w2) g2 = Some f2).
  { injection H2 as <- <-. cbn [heap]. apply nth_error_alloc. }
  assert (C2 : columns f2 = columns f) by reflexivity.
  (* step 2.2 *)
  destruct (position "operacao" (columns f2)) as [i|] eqn:Hi;
    [|rewrite (step_operation_missing w2 g2 f2 Hf2 Hi) in H3; discriminate].
  assert (Hso : exists s, getitem_col f2 "operacao" = Some s)
    by (apply getitem_col_has; unfold has_column; rewrite Hi; reflexivity).
  destruct Hso as [so Hso].
  rewrite (step_operation_run w2 g2 f2 i so Hf2 Hi Hso) in H3.
  cbn zeta in H3.
  set (f3 := Frame (columns (Frame (set_dtype i (s_dtype (replace so))
                                              (columns f2)) _)) _) in H3.
  assert (Hf3 : nth_error (heap w3) g3 = Some f3).
  { injection H3 as <- <-. cbn [heap]. apply nth_error_alloc_update. }
  assert (C3 : columns f3 = set_dtype i (s_dtype (replace so)) (columns f2))
    by reflexivity.
  assert (N3 : names f3 = names f).
  { unfold names. rewrite C3, set_dtype_names, C2. reflexivity. }
  (* step 2.3 *)
  rewrite (step_nulls_run w3 g3 f3 Hf3) in H4.
  destruct (dropna f3 drop_na_columns) as [f4|e] eqn:D4; [|discriminate].
  assert (Hf4 : nth_error (heap w4) g4 = Some f4).
  { injection H4 as <- <-. cbn [heap]. apply nth_error_alloc. }
  unfold dropna in D4.
  destruct (missing_columns f3 drop_na_columns) eqn:M4; [|discriminate].
  assert (C4 : columns f4 = columns f3) by (injection D4 as <-; reflexivity).
  (* step 3 *)
  unfold step_outliers in H5.
  pose proof H5 as H5'.
  rewrite (remove_outliers_iqr_unfold g4 check_outliers 3 true w4 f4 Hf4)
    in H5, H5'.
  assert (Hcopy : nth_error (heap (World (heap w4 ++ [f4]) (stdout w4)))
                            (length (heap w4)) = Some f4)
    by apply nth_error_alloc.
  destruct (iqr_loop_shape check_outliers 3 true _ _ _ _ f4 g5 Hcopy
              (f_equal fst H5))
    as (f5 & Hf5 & C5 & _).
  rewrite H5 in Hf5. cbn [snd] in Hf5.
  unfold check_outliers in H5'.
  rewrite (iqr_loop_cons "pot_mw" [] 3 true _ _ _ _ f4 Hcopy) in H5'.
  destruct (getitem_col f4 "pot_mw") as [sp|] eqn:P; [|discriminate].
  destruct (numeric_kind (s_dtype sp)) eqn:Pnum; [|discriminate].
  clear H5'.
  (* step 4 *)
  rewrite (step_duplicates_run w5 g5 f5 Hf5) in H6.
  destruct (drop_duplicates f5 ["latitude"; "longitude"]) as [u|e] eqn:D6;
    [|discriminate].
  assert (Hf6 : nth_error (heap w6) g6 = Some (reset_index u)).
  { injection H6 as <- <-. cbn [heap]. apply nth_error_alloc. }
  unfold drop_duplicates in D6. fold coordinates in D6.
  destruct (missing_columns f5 coordinates) eqn:M6; [|discriminate].
  assert (C6 : columns (reset_index u) = columns f5)
    by (injection D6 as <-; reflexivity).
  (* step 5 *)
  rewrite (step_prune_run w6 g6 (reset_index u) Hf6) in H7.
  destruct (drop (reset_index u) drop_columns) as [f7|e] eqn:D7;
    [|discriminate].
  destruct (drop_shape _ _ _ D7) as (M7 & N7 & I7 & L7).
  assert (Hf7 : nth_error (heap w') out = Some f7).
  { injection H7 as <- <-. cbn [heap]. apply nth_error_update_same.
    apply nth_error_Some. congruence. }
  (* names along the way *)
  assert (N4 : names f4 = names f) by (unfold names; rewrite C4; exact N3).
  assert (N5 : names f5 = names f) by (unfold names; rewrite C5; exact N4).
  assert (N6 : names (reset_index u) = names f)
    by (unfold names; rewrite C6; exact N5).
  split; [|split].
  - intros c Hc. unfold required_columns in Hc.
    destruct Hc as [<-|[<-|[<-|Hc]]].
    + apply (getitem_col_some_has f "geometry" sg G).
    + rewrite <- (has_column_columns f f1 "versao" C1).
      apply (getitem_col_some_has f1 "versao" sv V).
    + rewrite <- (has_column_columns f f2 "operacao" C2).
      unfold has_column. rewrite Hi. reflexivity.
    + apply in_app_or in Hc. destruct Hc as [Hc|Hc].
      * rewrite <- (has_column_names f f3 c N3).
        apply (proj1 (missing_columns_nil f3 drop_na_columns) M4 c Hc).
      * apply in_app_or in Hc. destruct Hc as [Hc|Hc].
        -- rewrite <- (has_column_names f f5 c N5).
           apply (proj1 (missing_columns_nil f5 coordinates) M6 c Hc).
        -- rewrite <- (has_column_names f (reset_index u) c N6).
           apply (proj1 (missing_columns_nil _ drop_columns) M7 c Hc).
  - exists (s_dtype sp). split; [|exact Pnum].
    rewrite <- (dtype_of_columns f f2 "pot_mw" C2).
    rewrite <- (dtype_of_set_dtype f2 "operacao" i (s_dtype (replace so))
                  (rows f3) "pot_mw" Hi) by discriminate.
    assert (E3 : Frame (set_dtype i (s_dtype (replace so)) (columns f2))
                       (rows f3) = f3) by reflexivity.
    rewrite E3, <- (dtype_of_columns f3 f4 "pot_mw" C4).
    unfold dtype_of. rewrite P. reflexivity.
  - exists f7. split; [exact Hf7|]. split.
    + rewrite N7, N6. reflexivity.
    + apply (dense_index_relabel (reset_index u) f7 I7 L7).
      apply reset_index_index.
Qed.

Lemma validate_gdf_schema_witness :
  exists f',
    nth_error (heap (snd (validate_gdf 0%nat (World [raw_frame] [])))) 8
    = Some f'
    /\ names f' = filter (fun c => negb (mem_str c drop_columns))
                         (names raw_frame)
    /\ dense_index f'.
Proof.
  assert (Hrun : validate_gdf 0%nat (World [raw_frame] [])
                 = (Ok 8%nat,
                    snd (validate_gdf 0%nat (World [raw_frame] []))))
    by (vm_compute; reflexivity).
  destruct (validate_gdf_schema (World [raw_frame] []) 0%nat raw_frame 8%nat
              _ eq_refl Hrun) as (_ & _ & H).
  exact H.
Defined.

(** * The transforms applied before the cascade *)

Lemma sub_breaks_clean s :
  forall b c, In c (chars (sub_breaks b s)) -> is_break c = false.
Proof.
  induction s as [|a rest IH]; intros b c; cbn [sub_breaks chars
    list_ascii_of_string]; [intros []|].
  destruct (is_break a) eqn:Ea.
  - destruct b.
    + apply IH.
    + cbn [list_ascii_of_string In]. intros [<-|Hin]; [reflexivity|].
      apply (IH true c Hin).
  - cbn [list_ascii_of_string In]. intros [<-|Hin]; [exact Ea|].
    apply (IH false c Hin).
Qed.

Lemma sub_breaks_no_break s :
  forall b, forallb (fun c => negb (is_break c)) (chars s) = true ->
            sub_breaks b s = s.
Proof.
  induction s as [|a rest IH]; intros b H; [reflexivity|].
  cbn [chars list_ascii_of_string forallb] in H.
  apply andb_true_iff in H. destruct H as [Ha Hrest].
  apply negb_true_iff in Ha. cbn [sub_breaks]. rewrite Ha.
  rewrite (IH false Hrest). reflexivity.
Qed.

Lemma sub_breaks_length s :
  forall b, (String.length (sub_breaks b s) <= String.length s)%nat.
Proof.
  induction s as [|a rest IH]; intros b; cbn [sub_breaks String.length];
    [lia|].
  destruct (is_break a); [destruct b|]; cbn [String.length];
    try (specialize (IH true); lia); specialize (IH false); lia.
Qed.

Lemma sub_breaks_kept s :
  forall b,
    filter (fun c => negb (is_space c)) (chars (sub_breaks b s))
    = filter (fun c => negb (is_break c) && negb (is_space c)) (chars s).
Proof.
  induction s as [|a rest IH]; intros b; [reflexivity|].
  cbn [sub_breaks chars list_ascii_of_string filter].
  destruct (is_break a) eqn:Ea; cbn [negb andb].
  - destruct b; [apply IH|].
    cbn [list_ascii_of_string filter]. apply IH.
  - cbn [list_ascii_of_string filter].
    destruct (negb (is_space a)); [f_equal|]; apply IH.
Qed.

(** X16.  The replacement of line breaks on one text.  The result has no
    carriage return and no line feed; a text without any is returned as it
    is, so the replacement is idempotent; the result is never longer than
    the text; and every character that is neither a break nor a space is
    kept, in order (only breaks go, only spaces come in). *)
Theorem replace_line_breaks_spec (s : string) :
  (forall c, In c (chars (replace_line_breaks s)) -> is_break c = false)
  /\ (forallb (fun c => negb (is_break c)) (chars s) = true ->
      replace_line_breaks s = s)
  /\ replace_line_breaks (replace_line_breaks s) = replace_line_breaks s
  /\ (String.length (replace_line_breaks s) <= String.length s)%nat
  /\ filter (fun c => negb (is_space c)) (chars (replace_line_breaks s))
     = filter (fun c => negb (is_break c) && negb (is_space c)) (chars s).
Proof.
  unfold replace_line_breaks. split; [|split; [|split; [|split]]].
  - apply sub_breaks_clean.
  - apply sub_breaks_no_break.
  - apply sub_breaks_no_break. apply forallb_forall. intros c Hc.
    rewrite (sub_breaks_clean s false c Hc). reflexivity.
  - apply sub_breaks_length.
  - apply sub_breaks_kept.
Qed.

Lemma replace_line_breaks_spec_witness :
  replace_line_breaks "Parque Eolico" = "Parque Eolico".
Proof.
  apply (proj1 (proj2 (replace_line_breaks_spec "Parque Eolico"))).
  reflexivity.
Defined.

Example replace_line_breaks_runs :
  replace_line_breaks
    (String "A" (String "013" (String "010" (String "010" (String "B"
       (String "010" EmptyString))))))
  = "A B ".
Proof. reflexivity. Qed.







Lemma update_update {A} (l : list A) :
  forall i x y, update (update l i x) i y = update l i y.
Proof.
  induction l as [|h t IH]; intros [|i] x y; cbn; try reflexivity.
  rewrite IH. reflexivity.
Qed.

Lemma bind_load {B} (l : loc) (k : DataFrame -> M B) w f :
  nth_error (heap w) l = Some f -> bind (load l) k w = k f w.
Proof. intros H. unfold bind, load. rewrite H. reflexivity. Qed.

Lemma bind_store {B} (l : loc) (x : DataFrame) (k : unit -> M B) w f :
  nth_error (heap w) l = Some f ->
  bind (store l x) k w = k tt (World (update (heap w) l x) (stdout w)).
Proof. intros H. unfold bind, store. rewrite H. reflexivity. Qed.

Lemma bind_some {S A B} (a : A) (e : exn) (k : A -> St S B) (w : S) :
  bind (lift_option (Some a) e) k w = k a w.
Proof. reflexivity. Qed.





Example add_lat_lon_points :
  result_frame (add_lat_lon 0%nat (World [points_frame] []))
  = Some (Frame [("geometry", Dgeometry); ("NOME_EOL", Dobject);
                 ("POT_MW", Dfloat); ("longitude", Dfloat);
                 ("latitude", Dfloat)]
                [(0, [VGeom (Geometry (-77 # 2) (-5 # 2) true); VStr "A";
                      num 2; VNum (-77 # 2); VNum (-5 # 2)]);
                 (1, [VNull; VStr "B"; num 3; VNull; VNull]);
                 (2, [VGeom (Geometry (-40 # 1) (-3 # 1) true); VStr "C";
                      VNull; VNum (-40 # 1); VNum (-3 # 1)])]).
Proof. reflexivity. Qed.

Lemma update_last {A} (h : list A) (x y : A) :
  update (h ++ [x]) (length h) y = h ++ [y].
Proof. induction h as [|a h IH]; cbn; [reflexivity|]. rewrite IH. reflexivity. Qed.

Lemma position_unique (c : string) (cs : list (string * dtype)) :
  forall i,
    nth_error (map fst cs) i = Some c ->
    (forall j, nth_error (map fst cs) j = Some c -> j = i) ->
    position c cs = Some i.
Proof.
  induction cs as [|[a d] cs IH]; intros i Hi Huniq.
  - destruct i; discriminate.
  - cbn [position]. destruct (String.eqb a c) eqn:E.
    + apply String.eqb_eq in E. subst a.
      rewrite (Huniq 0%nat eq_refl). reflexivity.
    + destruct i as [|i].
      * cbn in Hi. injection Hi as ->. rewrite String.eqb_refl in E.
        discriminate.
      * cbn in Hi. rewrite (IH i Hi); [reflexivity|].
        intros j Hj. specialize (Huniq (S j) Hj). lia.
Qed.

(** The comprehension on a frame that has its geometry column. *)
Lemma renamed_ok lower g f s :
  getitem_col f g = Some s ->
  forall cols w,
    renamed lower (Some g) f cols w
    = (Ok (map (fun cd => (lowered lower g (fst cd), snd cd)) cols), w).
Proof.
  intros Hg. induction cols as [|[col d] rest IH]; intros w; [reflexivity|].
  cbn [renamed geometry_name]. unfold bind at 1. unfold bind at 1.
  rewrite Hg. cbn [lift_option ret].
  unfold bind at 1. rewrite IH. reflexivity.
Qed.

(** The comprehension on a frame without one: the first column raises. *)
Lemma renamed_fails lower active f :
  (forall g, active = Some g -> getitem_col f g = None) ->
  forall cd rest w,
    renamed lower active f (cd :: rest) w = (Raise AttributeError, w).
Proof.
  intros Hno [col d] rest w. cbn [renamed]. unfold bind at 1.
  destruct active as [g|]; cbn [geometry_name]; [|reflexivity].
  unfold bind at 1. rewrite (Hno g eq_refl). reflexivity.
Qed.

(** X18.  [lowercase_columns] on a frame with distinct column names, whose
    active geometry column is called [g] (or was never set).  It returns a
    copy and leaves its argument as it was, whether it returns or raises.
    On a frame that has columns but whose active geometry column is unset
    or absent it raises [AttributeError].  A frame without columns is
    copied as it is.  Otherwise the copy has the rows and the dtypes of
    the input, and the column at each position is renamed to its
    lower-case name, the column called [g] (and no other, whatever it is
    called) keeping its name; a column whose new name no other column of
    the result bears is found under that name, with the cells it had. *)
Theorem lowercase_columns_spec
    (lower : string -> string) (active : option string) (w : world)
    (gdf : loc) (f : DataFrame) :
  nth_error (heap w) gdf = Some f ->
  NoDup (names f) ->
  let run := lowercase_columns lower active gdf w in
  nth_error (heap (snd run)) gdf = Some f
  /\ (columns f <> [] ->
      (forall g, active = Some g -> has_column f g = false) ->
      fst run = Raise AttributeError)
  /\ (columns f = [] ->
      run = (Ok (length (heap w)),
             World (heap w ++ [Frame [] (rows f)]) (stdout w)))
  /\ (forall g,
         active = Some g -> has_column f g = true ->
         exists f',
           run = (Ok (length (heap w)), World (heap w ++ [f']) (stdout w))
           /\ rows f' = rows f
           /\ map snd (columns f') = map snd (columns f)
           /\ names f' = map (lowered lower g) (names f)
           /\ (forall i, nth_error (names f) i = Some g ->
                         nth_error (names f') i = Some g)
           /\ forall c i,
               nth_error (names f) i = Some c ->
               (forall j, nth_error (names f') j = Some (lowered lower g c) ->
                          j = i) ->
               position (lowered lower g c) (columns f') = Some i
               /\ forall r, cell f' (lowered lower g c) r = nth i r VNull).
Proof.
  intros Hf _ run.
  assert (Hlt : (gdf < length (heap w))%nat)
    by (apply nth_error_Some; congruence).
  set (w1 := World (heap w ++ [f]) (stdout w)).
  assert (Hcopy : nth_error (heap w1) (length (heap w)) = Some f)
    by apply nth_error_alloc.
  assert (Hrun : run
                 = bind (renamed lower active f (columns f))
                        (fun cols =>
                           store (length (heap w)) (Frame cols (rows f)) ;;;
                           ret (length (heap w))) w1).
  { unfold run, lowercase_columns.
    rewrite (bind_load gdf _ w f Hf).
    unfold bind at 1. unfold alloc at 1. fold w1.
    rewrite (bind_load (length (heap w)) _ w1 f Hcopy). reflexivity. }
  assert (Hdone : forall cols,
             renamed lower active f (columns f) w1 = (Ok cols, w1) ->
             run = (Ok (length (heap w)),
                    World (heap w ++ [Frame cols (rows f)]) (stdout w))).
  { intros cols Hr. rewrite Hrun. unfold bind at 1. rewrite Hr.
    rewrite (bind_store (length (heap w)) _ _ w1 f Hcopy).
    unfold ret, w1. cbn [heap stdout]. rewrite update_last. reflexivity. }
  split; [|split; [|split]].
  - rewrite Hrun. unfold bind at 1.
    destruct (renamed lower active f (columns f) w1) as [[cols|e] w2] eqn:Hr.
    + assert (Hw : w2 = w1).
      { destruct (columns f) as [|cd rest] eqn:Hc.
        - cbn in Hr. injection Hr as _ <-. reflexivity.
        - destruct active as [g|].
          + destruct (getitem_col f g) as [s|] eqn:Hg.
            * rewrite (renamed_ok lower g f s Hg) in Hr.
              injection Hr as _ <-. reflexivity.
            * rewrite (renamed_fails lower (Some g) f) in Hr;
                [discriminate|].
              intros g' Hg'. injection Hg' as <-. exact Hg.
          + rewrite (renamed_fails lower None f) in Hr; [discriminate|].
            intros g' Hg'. discriminate. }
      subst w2.
      rewrite (bind_store (length (heap w)) _ _ w1 f Hcopy).
      unfold ret, w1. cbn [snd heap stdout]. rewrite update_last.
      rewrite nth_error_app1 by exact Hlt. exact Hf.
    + assert (Hw : w2 = w1).
      { destruct (columns f) as [|cd rest] eqn:Hc.
        - cbn in Hr. discriminate.
        - destruct active as [g|].
          + destruct (getitem_col f g) as [s|] eqn:Hg.
            * rewrite (renamed_ok lower g f s Hg) in Hr. discriminate.
            * rewrite (renamed_fails lower (Some g) f) in Hr.
              -- injection Hr as _ <-. reflexivity.
              -- intros g' Hg'. injection Hg' as <-. exact Hg.
          + rewrite (renamed_fails lower None f) in Hr.
            * injection Hr as _ <-. reflexivity.
            * intros g' Hg'. discriminate. }
      subst w2. unfold w1. cbn [snd heap].
      rewrite nth_error_app1 by exact Hlt. exact Hf.
  - intros Hne Hno. rewrite Hrun. unfold bind at 1.
    destruct (columns f) as [|cd rest] eqn:Hc; [congruence|].
    rewrite (renamed_fails lower active f); [reflexivity|].
    intros g Hg. apply getitem_col_none. apply Hno. exact Hg.
  - intros Hc. apply Hdone. rewrite Hc. reflexivity.
  - intros g Hact Hhas. subst active.
    destruct (getitem_col_has f g Hhas) as [s Hg].
    set (cols := map (fun cd : string * dtype =>
                        (lowered lower g (fst cd), snd cd)) (columns f)).
    exists (Frame cols (rows f)).
    split; [apply Hdone; apply (renamed_ok lower g f s Hg)|].
    split; [reflexivity|].
    assert (Hdt : map snd cols = map snd (columns f)).
    { unfold cols. rewrite map_map. apply map_ext. intros [a d].
      reflexivity. }
    assert (Hnm : map fst cols = map (lowered lower g) (names f)).
    { unfold cols, names. rewrite !map_map. apply map_ext. intros [a d].
      reflexivity. }
    split; [exact Hdt|]. split; [exact Hnm|]. split.
    + intros i Hi. unfold names at 1. cbn [columns]. rewrite Hnm.
      rewrite nth_error_map, Hi. cbn [option_map]. unfold lowered.
      rewrite String.eqb_refl. reflexivity.
    + intros c i Hi Huniq.
      assert (Hpos : position (lowered lower g c) cols = Some i).
      { apply position_unique.
        - rewrite Hnm, nth_error_map, Hi. reflexivity.
        - exact Huniq. }
      split; [exact Hpos|].
      intros r. unfold cell. cbn [columns]. rewrite Hpos. reflexivity.
Qed.

Lemma lowercase_columns_spec_witness :
  exists f',
    lowercase_columns ascii_lower (Some "SHAPE") 0%nat
                      (World [shape_frame] [])
    = (Ok 1%nat, World ([shape_frame] ++ [f']) [])
    /\ names f' = ["SHAPE"; "nome_eol"; "geometry"].
Proof.
  assert (Hnd : NoDup (names shape_frame)).
  { repeat constructor; cbn; intuition discriminate. }
  destruct (proj2 (proj2 (proj2
              (lowercase_columns_spec ascii_lower (Some "SHAPE")
                 (World [shape_frame] []) 0%nat shape_frame eq_refl Hnd)))
              "SHAPE" eq_refl eq_refl)
    as (f' & Hrun & _ & _ & Hnames & _).
  exists f'. split; [exact Hrun|exact Hnames].
Defined.

(** The geometry column keeps its name whatever it is called, and a
    column that is merely called Geometry is lowered like the others. *)
Example lowercase_columns_shape :
  option_map names
    (result_frame (lowercase_columns ascii_lower (Some "SHAPE") 0%nat
                     (World [shape_frame] [])))
  = Some ["SHAPE"; "nome_eol"; "geometry"]
  /\ fst (lowercase_columns ascii_lower (Some "geometry") 0%nat
            (World [shape_frame] []))
     = Raise AttributeError.
Proof. split; reflexivity. Qed.

Lemma update_same {A} (l : list A) :
  forall i x, nth_error l i = Some x -> update l i x = l.
Proof.
  induction l as [|h t IH]; intros [|i] x H; cbn in *; try discriminate.
  - congruence.
  - rewrite (IH i x H). reflexivity.
Qed.

Lemma set_dtype_same cs i c d :
  nth_error cs i = Some (c, d) -> set_dtype i d cs = cs.
Proof.
  intros H. unfold set_dtype. rewrite H. apply update_same. exact H.
Qed.

Lemma str_replace_cell_update i (r : list value) :
  nth i (update r i (str_replace_cell (nth i r VNull))) VNull
  = str_replace_cell (nth i r VNull).
Proof.
  destruct (Nat.lt_ge_cases i (length r)) as [Hlt|Hge].
  - apply nth_update. exact Hlt.
  - rewrite (nth_overflow_null r i Hge). cbn [str_replace_cell].
    apply nth_overflow. rewrite update_length. exact Hge.
Qed.

Lemma object_column_position f col :
  NoDup (names f) ->
  In col (object_columns f) ->
  exists i, position col (columns f) = Some i
            /\ nth_error (columns f) i = Some (col, Dobject).
Proof.
  unfold names, object_columns. intros Hnd Hin.
  apply in_map_iff in Hin. destruct Hin as ([c d] & Hc & Hin).
  cbn in Hc. subst c. apply filter_In in Hin. destruct Hin as [Hin Hd].
  cbn in Hd. destruct d; try discriminate.
  apply In_nth_error in Hin. destruct Hin as [i Hi].
  exists i. split; [|exact Hi].
  apply position_unique.
  - rewrite nth_error_map, Hi. reflexivity.
  - intros j Hj.
    apply (proj1 (NoDup_nth_error (map fst (columns f))) Hnd j i).
    + apply nth_error_Some. congruence.
    + rewrite Hj, nth_error_map, Hi. reflexivity.
Qed.

Lemma object_columns_nodup f : NoDup (names f) -> NoDup (object_columns f).
Proof.
  unfold names, object_columns.
  induction (columns f) as [|[c d] cs IH]; cbn [map filter snd];
    intros Hnd; [constructor|].
  inversion Hnd as [|? ? Hnotin Hnd']; subst.
  destruct d; try (apply IH; exact Hnd').
  cbn [map fst]. constructor; [|apply IH; exact Hnd'].
  intros Hin. apply Hnotin. apply in_map_iff in Hin.
  destruct Hin as (cd & Hcd & Hin). apply filter_In in Hin.
  apply in_map_iff. exists cd. split; [exact Hcd|apply Hin].
Qed.

Lemma text_accessor_ok (s : Series) :
  Forall (fun lv => is_text (snd lv) = true) (s_items s) ->
  str_accessor_ok s = true.
Proof.
  intros H. unfold str_accessor_ok.
  destruct (filter (fun lv => negb (isnull (snd lv))) (s_items s))
    as [|lv rest] eqn:E; [reflexivity|].
  assert (Hin : In lv (filter (fun lv => negb (isnull (snd lv))) (s_items s)))
    by (rewrite E; left; reflexivity).
  apply filter_In in Hin. destruct Hin as [Hin Hnn].
  pose proof (proj1 (Forall_forall _ _) H lv Hin) as Ht.
  destruct lv as [l v]. cbn [forallb snd] in *.
  destruct v; cbn in *; try discriminate; reflexivity.
Qed.

(** The assignment of one cleaned object column. *)
Lemma clean_column fc col i s :
  position col (columns fc) = Some i ->
  nth_error (columns fc) i = Some (col, Dobject) ->
  getitem_col fc col = Some s ->
  assign_col fc col (str_replace s)
  = Frame (columns fc)
          (map (fun lr => (fst lr,
                           update (snd lr) i
                                  (str_replace_cell (nth i (snd lr) VNull))))
               (rows fc)).
Proof.
  intros Hi Hd Hs.
  assert (Hitems : s_items s
                   = map (fun lr => (fst lr, nth i (snd lr) VNull)) (rows fc)).
  { rewrite (getitem_col_items fc col s Hs). apply map_ext. intros lr.
    unfold cell. rewrite Hi. reflexivity. }
  assert (Hrep : s_items (str_replace s)
                 = map (fun lr => (fst lr,
                                   str_replace_cell (nth i (snd lr) VNull)))
                       (rows fc)).
  { change (s_items (str_replace s))
      with (map (fun lv => (fst lv, str_replace_cell (snd lv))) (s_items s)).
    rewrite Hitems, map_map. reflexivity. }
  assert (Hdt : s_dtype (str_replace s) = Dobject) by reflexivity.
  unfold assign_col, setitem_col. rewrite Hi, Hdt.
  rewrite (set_dtype_same _ _ _ _ Hd).
  f_equal. unfold set_cells. rewrite Hrep.
  unfold labels. rewrite map_map. cbn [fst]. fold (index fc).
  rewrite labels_eqb_refl, combine_map_right, map_map. reflexivity.
Qed.

Lemma mem_str_cons c a l : mem_str c (a :: l) = (String.eqb c a || mem_str c l)%bool.
Proof. reflexivity. Qed.

Lemma line_breaks_loop_run f gdf cols :
  NoDup (names f) ->
  (forall c lr, In c (object_columns f) -> In lr (rows f) ->
                is_text (cell f c (snd lr)) = true) ->
  forall w fc R done,
    nth_error (heap w) gdf = Some fc ->
    columns fc = columns f ->
    rows_rewritten R f fc ->
    (forall r c i, position c (columns f) = Some i ->
                   nth i (R r) VNull
                   = if mem_str c done then str_replace_cell (nth i r VNull)
                     else nth i r VNull) ->
    NoDup cols ->
    (forall c, In c cols ->
               In c (object_columns f) /\ mem_str c done = false) ->
    exists fc' R',
      line_breaks_loop cols gdf w
      = (Ok tt, World (update (heap w) gdf fc') (stdout w))
      /\ columns fc' = columns f
      /\ rows_rewritten R' f fc'
      /\ forall r c i,
          position c (columns f) = Some i ->
          nth i (R' r) VNull
          = if (mem_str c done || mem_str c cols)%bool
            then str_replace_cell (nth i r VNull)
            else nth i r VNull.
Proof.
  intros Hnd Htext.
  induction cols as [|col rest IH]; intros w fc R done Hfc Hcols Hrows HR Hndc Hin.
  - exists fc, R. cbn [line_breaks_loop ret].
    rewrite (update_same (heap w) gdf fc Hfc). destruct w.
    split; [reflexivity|]. split; [exact Hcols|]. split; [exact Hrows|].
    intros r c i Hi. rewrite orb_false_r. apply (HR r c i Hi).
  - destruct (Hin col (or_introl eq_refl)) as [Hobj Hdone].
    destruct (object_column_position f col Hnd Hobj) as (i & Hi & Hd).
    assert (Hi' : position col (columns fc) = Some i) by (rewrite Hcols; exact Hi).
    assert (Hd' : nth_error (columns fc) i = Some (col, Dobject))
      by (rewrite Hcols; exact Hd).
    assert (Hs : exists s, getitem_col fc col = Some s)
      by (apply getitem_col_has; unfold has_column; rewrite Hi'; reflexivity).
    destruct Hs as [s Hs].
    assert (Hok : str_accessor_ok s = true).
    { apply text_accessor_ok. rewrite (getitem_col_items fc col s Hs).
      unfold rows_rewritten in Hrows. rewrite Hrows, map_map, Forall_map.
      cbn [snd fst]. apply Forall_forall. intros lr Hlr.
      unfold cell at 1. rewrite Hi'. rewrite (HR (snd lr) col i Hi), Hdone.
      pose proof (Htext col lr Hobj Hlr) as Ht. unfold cell in Ht.
      rewrite Hi in Ht. exact Ht. }
    set (fc1 := Frame (columns fc)
                      (map (fun lr => (fst lr,
                                       update (snd lr) i
                                         (str_replace_cell
                                            (nth i (snd lr) VNull))))
                           (rows fc))).
    set (R1 := fun r => update (R r) i (str_replace_cell (nth i (R r) VNull))).
    set (w1 := World (update (heap w) gdf fc1) (stdout w)).
    assert (Hlt : (gdf < length (heap w))%nat)
      by (apply nth_error_Some; congruence).
    assert (Hfc1 : nth_error (heap w1) gdf = Some fc1)
      by (apply nth_error_update_same; exact Hlt).
    assert (Hrows1 : rows_rewritten R1 f fc1).
    { unfold rows_rewritten in *. cbn [rows fc1]. rewrite Hrows, map_map.
      reflexivity. }
    assert (HR1 : forall r c j,
               position c (columns f) = Some j ->
               nth j (R1 r) VNull
               = if mem_str c (col :: done)
                 then str_replace_cell (nth j r VNull) else nth j r VNull).
    { intros r c j Hj. unfold R1. rewrite mem_str_cons.
      destruct (Nat.eq_dec i j) as [<-|Hij].
      - destruct (position_name c (columns f) i Hj) as [dc Hc].
        assert (c = col) by congruence. subst c.
        rewrite String.eqb_refl. cbn [orb].
        rewrite str_replace_cell_update, (HR r col i Hi), Hdone.
        reflexivity.
      - rewrite nth_update_other by exact Hij.
        destruct (String.eqb c col) eqn:E.
        + apply String.eqb_eq in E. subst c. congruence.
        + cbn [orb]. apply (HR r c j Hj). }
    inversion Hndc as [|? ? Hnotin Hndrest]; subst.
    destruct (IH w1 fc1 R1 (col :: done) Hfc1 Hcols Hrows1 HR1 Hndrest)
      as (fc' & R' & Hrun & Hc' & Hr' & HR').
    { intros c Hc. destruct (Hin c (or_intror Hc)) as [Ho Hdn].
      split; [exact Ho|]. rewrite mem_str_cons, Hdn, orb_false_r.
      destruct (String.eqb c col) eqn:E; [|reflexivity].
      apply String.eqb_eq in E. subst c. contradiction. }
    exists fc', R'. split.
    { cbn [line_breaks_loop].
      rewrite (bind_load gdf _ w fc Hfc).
      unfold column_of at 1. rewrite Hs, bind_some, Hok. cbn [negb].
      rewrite (clean_column fc col i s Hi' Hd' Hs). fold fc1.
      rewrite (bind_store gdf fc1 _ w fc Hfc). fold w1.
      rewrite Hrun. unfold w1. cbn [heap stdout]. rewrite update_update.
      reflexivity. }
    split; [exact Hc'|]. split; [exact Hr'|].
    intros r c j Hj. rewrite (HR' r c j Hj), !mem_str_cons.
    destruct (String.eqb c col); destruct (mem_str c done);
      destruct (mem_str c rest); reflexivity.
Qed.

(** X19.  [deal_with_line_breaks] on a frame with distinct column names
    whose object columns hold text (strings and nulls).  It works on the
    frame it is given and returns it; columns, dtypes, labels and row
    order stay; in every object column a string becomes the same string
    with each run of line breaks replaced by one space, so that no string
    of these columns holds a carriage return or a line feed any more; the
    cells of all other columns, and the nulls, are unchanged. *)
Theorem deal_with_line_breaks_spec (w : world) (gdf : loc) (f : DataFrame) :
  nth_error (heap w) gdf = Some f ->
  NoDup (names f) ->
  (forall c lr, In c (object_columns f) -> In lr (rows f) ->
                is_text (cell f c (snd lr)) = true) ->
  exists f' R,
    deal_with_line_breaks gdf w
    = (Ok gdf, World (update (heap w) gdf f') (stdout w))
    /\ columns f' = columns f
    /\ rows_rewritten R f f'
    /\ (forall r c,
           has_column f c = true ->
           cell f' c (R r)
           = if mem_str c (object_columns f)
             then str_replace_cell (cell f c r) else cell f c r)
    /\ (forall lr c s,
           In lr (rows f') -> In c (object_columns f) ->
           cell f' c (snd lr) = VStr s ->
           forall ch, In ch (chars s) -> is_break ch = false).
Proof.
  intros Hf Hnd Htext.
  destruct (line_breaks_loop_run f gdf (object_columns f) Hnd Htext
              w f (fun r => r) [] Hf eq_refl)
    as (f' & R & Hrun & Hcols & Hrows & HR).
  - unfold rows_rewritten. rewrite <- (map_id (rows f)) at 1.
    apply map_ext. intros [l r]. reflexivity.
  - intros r c i _. reflexivity.
  - apply object_columns_nodup. exact Hnd.
  - intros c Hc. split; [exact Hc|reflexivity].
  - assert (Hcell : forall r c,
               has_column f c = true ->
               cell f' c (R r)
               = if mem_str c (object_columns f)
                 then str_replace_cell (cell f c r) else cell f c r).
    { intros r c Hc. unfold cell, has_column in *. rewrite Hcols.
      destruct (position c (columns f)) as [i|] eqn:Hi; [|discriminate].
      apply (HR r c i Hi). }
    exists f', R. split.
    { unfold deal_with_line_breaks.
      rewrite (bind_load gdf _ w f Hf). unfold bind. rewrite Hrun.
      reflexivity. }
    split; [exact Hcols|]. split; [exact Hrows|]. split; [exact Hcell|].
    intros lr c s Hin Hc Hs ch Hch.
    unfold rows_rewritten in Hrows. rewrite Hrows in Hin.
    apply in_map_iff in Hin. destruct Hin as (lr0 & <- & Hin0).
    cbn [snd] in Hs.
    destruct (object_column_position f c Hnd Hc) as (i & Hi & _).
    rewrite Hcell in Hs by (unfold has_column; rewrite Hi; reflexivity).
    rewrite (mem_str_in c (object_columns f) Hc) in Hs.
    destruct (cell f c (snd lr0)) as [| |s0|]; cbn in Hs; try discriminate.
    injection Hs as <-.
    apply (sub_breaks_clean s0 false ch Hch).
Qed.

Lemma deal_with_line_breaks_spec_witness :
  exists f' R,
    deal_with_line_breaks 0%nat (World [text_frame] [])
    = (Ok 0%nat, World [f'] [])
    /\ columns f' = columns text_frame
    /\ rows_rewritten R text_frame f'.
Proof.
  assert (Hnd : NoDup (names text_frame)).
  { repeat constructor; cbn; intuition discriminate. }
  assert (Htext : forall c lr,
             In c (object_columns text_frame) -> In lr (rows text_frame) ->
             is_text (cell text_frame c (snd lr)) = true).
  { intros c lr [<-|[<-|[]]] [<-|[<-|[]]]; reflexivity. }
  destruct (deal_with_line_breaks_spec (World [text_frame] []) 0%nat
              text_frame eq_refl Hnd Htext)
    as (f' & R & H1 & H2 & H3 & _).
  exists f', R. repeat split; assumption.
Defined.

Example deal_with_line_breaks_text :
  result_frame (deal_with_line_breaks 0%nat (World [text_frame] []))
  = Some (Frame [("nome_eol", Dobject); ("pot_mw", Dfloat); ("obs", Dobject)]
                [(0, [VStr "A B"; num 2; VNull]);
                 (1, [VStr "C"; VNull; VStr " D"])]).
Proof. reflexivity. Qed.

(** * The frame a returning run of the cascade delivers *)

(** The stages of a returning run, frame by frame. *)
Lemma validate_gdf_stages w gdf f out w' :
  nth_error (heap w) gdf = Some f ->
  validate_gdf gdf w = (Ok out, w') ->
  exists i f4 f5 u f7,
    position "operacao" (columns f) = Some i
    /\ names f4 = names f
    /\ (forall r, In r (cells f4) ->
                  exists r0, In r0 (cells f)
                             /\ r = snd (normalise_row i (0, r0))
                             /\ nth i r VNull <> VNull)
    /\ (forall r c, In r (cells f4) -> In c drop_na_columns ->
                    cell f4 c r <> VNull)
    /\ columns f5 = columns f4
    /\ subseq (cells f5) (cells f4)
    /\ drop_duplicates f5 coordinates = Ok u
    /\ drop (reset_index u) drop_columns = Ok f7
    /\ nth_error (heap w') out = Some f7.
Proof.
  intros Hf Hrun.
  rewrite (validate_gdf_unfold w gdf f Hf) in Hrun.
  set (w0 := World (heap w) (stdout w ++ [InfoRaw (df_len f)])) in *.
  assert (Hf0 : nth_error (heap w0) gdf = Some f) by exact Hf.
  apply bind_ok in Hrun. destruct Hrun as (g1 & w1 & H1 & Hrun).
  apply bind_ok in Hrun. destruct Hrun as (g2 & w2 & H2 & Hrun).
  apply bind_ok in Hrun. destruct Hrun as (g3 & w3 & H3 & Hrun).
  apply bind_ok in Hrun. destruct Hrun as (g4 & w4 & H4 & Hrun).
  apply bind_ok in Hrun. destruct Hrun as (g5 & w5 & H5 & Hrun).
  apply bind_ok in Hrun. destruct Hrun as (g6 & w6 & H6 & H7).
  (* step 1 *)
  rewrite (step_geometry_run w0 gdf f Hf0) in H1.
  destruct (getitem_col f "geometry") as [sg|] eqn:G; [|discriminate].
  cbn zeta in H1.
  set (f1 := Frame (columns f)
               (filter (fun lr => is_valid (cell f "geometry" (snd lr))) _))
    in H1.
  assert (Hf1 : nth_error (heap w1) g1 = Some f1).
  { injection H1 as <- <-. cbn [heap]. apply nth_error_alloc2. }
  assert (S1 : subseq (rows f1) (rows f)).
  { cbn [rows f1]. eapply subseq_trans; apply subseq_filter. }
  (* step 2.1 *)
  rewrite (step_version_run w1 g1 f1 Hf1) in H2.
  destruct (getitem_col f1 "versao") as [sv|] eqn:V; [|discriminate].
  cbn zeta in H2.
  set (f2 := Frame (columns f1) _) in H2.
  assert (Hf2 : nth_error (heap w2) g2 = Some f2).
  { injection H2 as <- <-. cbn [heap]. apply nth_error_alloc. }
  assert (S2 : subseq (rows f2) (rows f)).
  { eapply subseq_trans; [|exact S1]. cbn [rows f2]. apply subseq_filter. }
  assert (C2 : columns f2 = columns f) by reflexivity.
  (* step 2.2 *)
  destruct (position "operacao" (columns f2)) as [i|] eqn:Hi;
    [|rewrite (step_operation_missing w2 g2 f2 Hf2 Hi) in H3; discriminate].
  assert (Hso : exists s, getitem_col f2 "operacao" = Some s)
    by (apply getitem_col_has; unfold has_column; rewrite Hi; reflexivity).
  destruct Hso as [so Hso].
  rewrite (step_operation_run w2 g2 f2 i so Hf2 Hi Hso) in H3.
  cbn zeta in H3.
  set (f3 := Frame (columns (Frame (set_dtype i (s_dtype (replace so))
                                              (columns f2)) _)) _) in H3.
  assert (Hf3 : nth_error (heap w3) g3 = Some f3).
  { injection H3 as <- <-. cbn [heap]. apply nth_error_alloc_update. }
  assert (N3 : names f3 = names f).
  { unfold names. cbn [columns f3]. rewrite set_dtype_names, C2.
    reflexivity. }
  assert (R3 : forall r, In r (cells f3) ->
                         exists r0, In r0 (cells f)
                                    /\ r = snd (normalise_row i (0, r0))
                                    /\ nth i r VNull <> VNull).
  { intros r Hr. unfold cells in Hr. cbn [rows f3] in Hr.
    apply in_map_iff in Hr. destruct Hr as (lr & <- & Hlr).
    apply filter_In in Hlr. destruct Hlr as [Hlr Hnn].
    apply in_map_iff in Hlr. destruct Hlr as (lr0 & <- & Hlr0).
    exists (snd lr0). split.
    - unfold cells. apply in_map. apply (subseq_In _ _ lr0 S2 Hlr0).
    - split; [reflexivity|]. cbn [snd] in *. intros Hnull.
      rewrite Hnull in Hnn. discriminate. }
  (* step 2.3 *)
  rewrite (step_nulls_run w3 g3 f3 Hf3) in H4.
  destruct (dropna f3 drop_na_columns) as [f4|e] eqn:D4; [|discriminate].
  assert (Hf4 : nth_error (heap w4) g4 = Some f4).
  { injection H4 as <- <-. cbn [heap]. apply nth_error_alloc. }
  rewrite dropna_run in D4.
  destruct (missing_columns f3 drop_na_columns) eqn:M4; [|discriminate].
  injection D4 as D4.
  assert (C4 : columns f4 = columns f3) by (rewrite <- D4; reflexivity).
  assert (R4 : forall r, In r (cells f4) -> In r (cells f3)).
  { intros r Hr. rewrite <- D4 in Hr. unfold cells in *. cbn [rows] in Hr.
    apply in_map_iff in Hr. destruct Hr as (lr & <- & Hlr).
    apply filter_In in Hlr. apply in_map. apply Hlr. }
  assert (Q4 : forall r c, In r (cells f4) -> In c drop_na_columns ->
                           cell f4 c r <> VNull).
  { intros r c Hr Hc. rewrite <- D4 in Hr. unfold cells in Hr.
    cbn [rows] in Hr.
    apply in_map_iff in Hr. destruct Hr as (lr & <- & Hlr).
    apply filter_In in Hlr. destruct Hlr as [_ Hcomp].
    unfold complete_row in Hcomp. rewrite forallb_forall in Hcomp.
    specialize (Hcomp c Hc). intros Hnull.
    assert (Hsame : cell f4 c (snd lr) = cell f3 c (snd lr))
      by (unfold cell; rewrite C4; reflexivity).
    rewrite Hsame in Hnull. rewrite Hnull in Hcomp. discriminate. }
  (* step 3 *)
  unfold step_outliers in H5.
  rewrite (remove_outliers_iqr_unfold g4 check_outliers 3 true w4 f4 Hf4)
    in H5.
  assert (Hcopy : nth_error (heap (World (heap w4 ++ [f4]) (stdout w4)))
                            (length (heap w4)) = Some f4)
    by apply nth_error_alloc.
  destruct (iqr_loop_shape check_outliers 3 true _ _ _ _ f4 g5 Hcopy
              (f_equal fst H5))
    as (f5 & Hf5 & C5 & S5 & _).
  rewrite H5 in Hf5. cbn [snd] in Hf5.
  (* step 4 *)
  rewrite (step_duplicates_run w5 g5 f5 Hf5) in H6.
  fold coordinates in H6.
  destruct (drop_duplicates f5 coordinates) as [u|e] eqn:D6; [|discriminate].
  assert (Hf6 : nth_error (heap w6) g6 = Some (reset_index u)).
  { injection H6 as <- <-. cbn [heap]. apply nth_error_alloc. }
  (* step 5 *)
  rewrite (step_prune_run w6 g6 (reset_index u) Hf6) in H7.
  destruct (drop (reset_index u) drop_columns) as [f7|e] eqn:D7;
    [|discriminate].
  assert (Hf7 : nth_error (heap w') out = Some f7).
  { injection H7 as <- <-. cbn [heap]. apply nth_error_update_same.
    apply nth_error_Some. congruence. }
  exists i, f4, f5, u, f7.
  split; [rewrite <- C2; exact Hi|].
  split; [unfold names; rewrite C4; exact N3|].
  split; [intros r Hr; apply R3, R4, Hr|].
  split; [exact Q4|].
  repeat split; assumption.
Qed.

Lemma kept_keys_distinct (keys : list (list value)) :
  forall i j ki kj,
    (i < j)%nat ->
    nth_error (kept_keys [] keys) i = Some ki ->
    nth_error (kept_keys [] keys) j = Some kj ->
    key_eqb kj ki = false.
Proof.
  intros i j ki kj Hij Hi Hj.
  pose proof (duplicated_kept keys [] [] (fun k H => H)) as Hnodup.
  pose proof (duplicated_nth _ [] j _ Hj) as Hd.
  rewrite Hnodup, nth_error_map, Hj, app_nil_r in Hd.
  cbn [option_map] in Hd. injection Hd as Hd. symmetry in Hd.
  destruct (key_eqb kj ki) eqn:E; [|reflexivity].
  assert (Hex : existsb (key_eqb kj) (rev (firstn j (kept_keys [] keys)))
                = true).
  { apply existsb_exists. exists ki. split; [|exact E].
    apply in_rev. rewrite rev_involutive. apply in_firstn_nth.
    exists i. split; assumption. }
  exfalso. exact (eq_true_false_abs _ Hex Hd).
Qed.

Lemma pruned_row_nil cs cols : pruned_row cs cols [] = [].
Proof. unfold pruned_row. destruct cs; reflexivity. Qed.

Lemma nth_opt_nil (o : option nat) :
  match o with Some i => nth i [] VNull | None => VNull end = VNull.
Proof. destruct o as [[|i]|]; reflexivity. Qed.

(** A cell of a column that [drop] keeps is the cell the row had. *)
Lemma pruned_cell (cols : list string) (c : string) :
  mem_str c cols = false ->
  forall cs r,
    match position c (filter (fun cd : string * dtype =>
                                negb (mem_str (fst cd) cols)) cs) with
    | Some i => nth i (pruned_row cs cols r) VNull
    | None => VNull
    end
    = match position c cs with Some i => nth i r VNull | None => VNull end.
Proof.
  intros Hc. induction cs as [|[a d] cs IH]; intros r; [reflexivity|].
  cbn [filter fst position].
  destruct (String.eqb a c) eqn:E.
  - apply String.eqb_eq in E. subst a. rewrite Hc. cbn [negb position].
    rewrite String.eqb_refl. destruct r as [|x r]; [reflexivity|].
    unfold pruned_row. cbn [map combine fst]. rewrite Hc. reflexivity.
  - destruct r as [|x r].
    + rewrite pruned_row_nil.
      transitivity VNull; [|symmetry]; apply nth_opt_nil.
    + specialize (IH r).
      unfold pruned_row in *. cbn [map combine fst].
      destruct (mem_str a cols) eqn:Ea; cbn [negb filter fst map snd position].
      * destruct (position c (filter _ cs)), (position c cs); cbn; exact IH.
      * rewrite E.
        destruct (position c (filter _ cs)), (position c cs); cbn; exact IH.
Qed.

Lemma pruned_row_names (cols : list string) (cs cs' : list (string * dtype)) :
  map fst cs = map fst cs' ->
  forall r, pruned_row cs cols r = pruned_row cs' cols r.
Proof.
  intros H r. unfold pruned_row.
  assert (Hk : forall l : list (string * dtype),
             map (fun c => negb (mem_str (fst c) cols)) l
             = map (fun n => negb (mem_str n cols)) (map fst l))
    by (intros l; rewrite map_map; reflexivity).
  rewrite (Hk cs), (Hk cs'), H. reflexivity.
Qed.

Lemma drop_cells f cols f' :
  drop f cols = Ok f' ->
  cells f' = map (pruned_row (columns f) cols) (cells f)
  /\ forall c r, mem_str c cols = false ->
                 cell f' c (pruned_row (columns f) cols r) = cell f c r.
Proof.
  unfold drop. destruct (missing_columns f cols); [|discriminate].
  intros H. injection H as <-. split.
  - unfold cells, pruned_row. cbn [rows]. rewrite !map_map. reflexivity.
  - intros c r Hc. unfold cell. cbn [columns].
    rewrite (filter_fst_combine_map
               (fun cd : string * dtype => negb (mem_str (fst cd) cols))).
    apply pruned_cell. exact Hc.
Qed.

Lemma is_one_replace_one v : is_one (replace_one v) = false.
Proof.
  unfold replace_one. destruct (is_one v) eqn:E; [reflexivity|exact E].
Qed.

Lemma nth_update_cases (l : list value) :
  forall i v, nth i (update l i v) VNull = v
              \/ nth i (update l i v) VNull = VNull.
Proof.
  induction l as [|h t IH]; intros [|i] v; cbn; auto.
Qed.

Lemma drop_duplicates_cells f subset u :
  drop_duplicates f subset = Ok u -> subseq (cells u) (cells f).
Proof.
  unfold drop_duplicates. destruct (missing_columns f subset); [|discriminate].
  intros H. injection H as <-. unfold cells, select. cbn [rows].
  apply subseq_map, subseq_select.
Qed.

(** X20.  What a returning run of [validate_gdf] delivers.  Every row of
    the returned frame is a row of the input frame whose status cell was
    normalised (1 and "1" to "Sim") and whose pruned columns were cut out:
    no other cell is changed and no row is invented.  In the returned frame
    the status and the seven mandatory attributes are never null, no
    status is 1 or "1" any more, and no two rows have the same
    (latitude, longitude) pair. *)
Theorem validate_gdf_output (w : world) (gdf : loc) (f : DataFrame)
    (out : loc) (w' : world) :
  nth_error (heap w) gdf = Some f ->
  validate_gdf gdf w = (Ok out, w') ->
  exists i f',
    position "operacao" (columns f) = Some i
    /\ nth_error (heap w') out = Some f'
    /\ (forall r, In r (cells f') ->
                  exists r0,
                    In r0 (cells f)
                    /\ r = pruned_row (columns f) drop_columns
                             (update r0 i (replace_one (nth i r0 VNull))))
    /\ (forall r c, In r (cells f') -> In c required_values ->
                    cell f' c r <> VNull)
    /\ (forall r, In r (cells f') -> is_one (cell f' "operacao" r) = false)
    /\ (forall a b ra rb,
           (a < b)%nat ->
           nth_error (cells f') a = Some ra ->
           nth_error (cells f') b = Some rb ->
           key_eqb (row_key f' coordinates rb) (row_key f' coordinates ra)
           = false).
Proof.
  intros Hf Hrun.
  destruct (validate_gdf_stages w gdf f out w' Hf Hrun)
    as (i & f4 & f5 & u & f7 & Hi & N4 & R4 & Q4 & C5 & S5 & D6 & D7 & Hf7).
  destruct (drop_duplicates_keys f5 coordinates u D6) as [Cu Hkeys].
  pose proof (drop_duplicates_cells f5 coordinates u D6) as Su.
  destruct (drop_cells (reset_index u) drop_columns f7 D7) as [Hc7 Hcell7].
  assert (Hc6 : cells (reset_index u) = cells u) by apply reset_index_cells.
  assert (C6 : columns (reset_index u) = columns f4)
    by (cbn [reset_index columns]; rewrite Cu; exact C5).
  rewrite Hc6, C6 in Hc7. rewrite C6 in Hcell7.
  assert (Hcell4 : forall c r, cell (reset_index u) c r = cell f4 c r)
    by (intros c r; unfold cell; rewrite C6; reflexivity).
  assert (Hi4 : position "operacao" (columns f4) = Some i)
    by (rewrite (position_names "operacao" _ _ N4); exact Hi).
  assert (Hfrom : forall r, In r (cells f7) ->
                            exists r6, In r6 (cells f4)
                                       /\ r = pruned_row (columns f4)
                                                drop_columns r6).
  { intros r Hr. rewrite Hc7 in Hr. apply in_map_iff in Hr.
    destruct Hr as (r6 & <- & Hr6). exists r6. split; [|reflexivity].
    apply (subseq_In _ _ r6 S5). apply (subseq_In _ _ r6 Su). exact Hr6. }
  assert (Hkept : forall c, In c required_values ->
                            mem_str c drop_columns = false).
  { intros c Hc.
    assert (Hall : forallb (fun c => negb (mem_str c drop_columns))
                           required_values = true) by reflexivity.
    rewrite forallb_forall in Hall. specialize (Hall c Hc).
    destruct (mem_str c drop_columns); [discriminate|reflexivity]. }
  exists i, f7. split; [exact Hi|]. split; [exact Hf7|]. split; [|split].
  - intros r Hr. destruct (Hfrom r Hr) as (r6 & Hr6 & ->).
    destruct (R4 r6 Hr6) as (r0 & Hr0 & -> & _).
    exists r0. split; [exact Hr0|].
    apply pruned_row_names. exact N4.
  - intros r c Hr Hc. destruct (Hfrom r Hr) as (r6 & Hr6 & ->).
    rewrite (Hcell7 c r6 (Hkept c Hc)), Hcell4.
    destruct Hc as [<-|Hc].
    + unfold cell. rewrite Hi4. destruct (R4 r6 Hr6) as (_ & _ & _ & Hnn).
      exact Hnn.
    + apply Q4; assumption.
  - split.
    + intros r Hr. destruct (Hfrom r Hr) as (r6 & Hr6 & ->).
      rewrite (Hcell7 "operacao" r6 eq_refl), Hcell4.
      unfold cell. rewrite Hi4.
      destruct (R4 r6 Hr6) as (r0 & _ & -> & _). cbn [normalise_row snd].
      destruct (nth_update_cases r0 i (replace_one (nth i r0 VNull)))
        as [->| ->]; [apply is_one_replace_one|reflexivity].
    + intros a b ra rb Hab Ha Hb.
      rewrite Hc7, nth_error_map in Ha, Hb.
      destruct (nth_error (cells u) a) as [ua|] eqn:Ea; [|discriminate].
      destruct (nth_error (cells u) b) as [ub|] eqn:Eb; [|discriminate].
      cbn [option_map] in Ha, Hb. injection Ha as <-. injection Hb as <-.
      assert (Hkey : forall r, row_key f7 coordinates
                                 (pruned_row (columns f4) drop_columns r)
                               = row_key f5 coordinates r).
      { intros r. unfold row_key, coordinates. cbn [map].
        rewrite (Hcell7 "latitude" r eq_refl),
                (Hcell7 "longitude" r eq_refl), !Hcell4. unfold cell.
        rewrite C5. reflexivity. }
      rewrite !Hkey.
      apply (kept_keys_distinct
               (map (row_key f5 coordinates) (cells f5)) a b); [exact Hab| |];
        rewrite <- Hkeys, nth_error_map.
      * rewrite Ea. reflexivity.
      * rewrite Eb. reflexivity.
Qed.

Lemma validate_gdf_output_witness :
  exists i f',
    position "operacao" (columns raw_frame) = Some i
    /\ nth_error (heap (snd (validate_gdf 0%nat (World [raw_frame] []))))
                 8%nat = Some f'
    /\ forall r c, In r (cells f') -> In c required_values ->
                   cell f' c r <> VNull.
Proof.
  assert (Hrun : validate_gdf 0%nat (World [raw_frame] [])
                 = (Ok 8%nat,
                    snd (validate_gdf 0%nat (World [raw_frame] []))))
    by (vm_compute; reflexivity).
  destruct (validate_gdf_output (World [raw_frame] []) 0%nat raw_frame 8%nat
              _ eq_refl Hrun)
    as (i & f' & H1 & H2 & _ & H4 & _).
  exists i, f'. repeat split; assumption.
Defined.
